(** * Video-Veil: a shallow embedding of [scripts/video-veil.py]

    The development follows the Python file top to bottom:

    - [Py]      : the few pieces of Python the script relies on (exceptions,
                  [posixpath.join], [posixpath.basename], [str.endswith],
                  [str(int)], [strftime]);
    - [Pixels]  : pixel buffers, PIL images and the two [cv2.cvtColor] calls;
    - [Model]   : the torch / k-diffusion / web-ui interface the script is
                  written against (opaque operations, taken as parameters),
                  the shared mutable state, and the three classes
                  [VideoVeilImage], [VideoVeilSourceVideo] and [Script];
    - [SpecInversion] : the noise inversion as the specification words it;
    - [Demo]    : a small concrete world in which the model can be run;
    - the theorems: noise inversion, loading, assembly, the per-frame
      request and the frame loop.

    Console output ([print]) and the [tqdm] progress bar do not influence any
    value the script computes and are left out. *)

From Stdlib Require Import ZArith QArith Ascii String.
From stdpp Require Import base tactics option list strings pretty.

Local Open Scope Z_scope.
Local Open Scope string_scope.
Local Open Scope list_scope.

(* ===================================================================== *)
(** ** Python values and exceptions                                        *)
(* ===================================================================== *)

Module Py.

(** The exceptions the script raises itself or provokes in the runtime. *)
Inductive exn : Type :=
| Exception (msg : string)          (* [raise Exception(f"...")] *)
| IndexError                        (* [l[i]] out of range *)
| ValueError                        (* wrong number of values to unpack *)
| TypeError                         (* e.g. [os.path.basename(None)] *)
| AttributeError                    (* [None.shape] *)
| UnboundLocalError (var : string)  (* local read before assignment *)
| CvError                           (* [cv2.error] *)
| HostError (code : Z).             (* anything raised inside the host *)

Inductive result (A : Type) : Type :=
| Ok (a : A)
| Raise (e : exn).
Arguments Ok {A} a.
Arguments Raise {A} e.

(** [str(x)] of an optional string inside an f-string. *)
Definition str_opt (s : option string) : string :=
  match s with Some s => s | None => "None" end.

(** [str(n)] for a Python int. *)
Definition str_int (n : Z) : string := pretty n.

Definition slash : ascii := "/"%char.

(** [s.endswith(suffix)] *)
Definition endswith (s suffix : string) : bool :=
  let n := String.length s in
  let m := String.length suffix in
  (m <=? n)%nat && String.eqb (String.substring (n - m) m s) suffix.

(** [s.startswith("/")] *)
Definition isabs (s : string) : bool :=
  match s with
  | String c _ => Ascii.eqb c slash
  | EmptyString => false
  end.

Fixpoint has_slash (s : string) : bool :=
  match s with
  | EmptyString => false
  | String c rest => Ascii.eqb c slash || has_slash rest
  end.

(** [posixpath.basename]: [p[p.rfind('/') + 1:]] *)
Fixpoint basename (p : string) : string :=
  match p with
  | EmptyString => EmptyString
  | String c rest =>
      if has_slash rest then basename rest
      else if Ascii.eqb c slash then rest
      else String c rest
  end.

(** [posixpath.join(a, b)] with two arguments. *)
Definition join (a b : string) : string :=
  if isabs b then b
  else if (String.eqb a "" || endswith a "/") then a +:+ b
  else a +:+ "/" +:+ b.

(** [datetime.now(timezone.utc)] as the fields [strftime] prints. *)
Record datetime : Type := {
  year : nat; month : nat; day : nat;
  hour : nat; minute : nat; second : nat
}.

Definition digit (n : nat) : ascii := Ascii.ascii_of_nat (48 + n mod 10).

Definition pad2 (n : nat) : string :=
  String (digit (n / 10)) (String (digit n) "").

Definition pad4 (n : nat) : string :=
  String (digit (n / 1000)) (String (digit (n / 100)) (pad2 n)).

(** [d.strftime("%Y-%m-%dT%H-%M-%S")] *)
Definition strftime (d : datetime) : string :=
  pad4 (year d) +:+ "-" +:+ pad2 (month d) +:+ "-" +:+ pad2 (day d) +:+ "T"
    +:+ pad2 (hour d) +:+ "-" +:+ pad2 (minute d) +:+ "-" +:+ pad2 (second d).

(** [l[i]] for a non-negative index. *)
Definition index {A} (l : list A) (i : nat) : result A :=
  match l !! i with
  | Some a => Ok a
  | None => Raise IndexError
  end.

(** [l[-1]] *)
Definition index_last {A} (l : list A) : result A :=
  match last l with
  | Some a => Ok a
  | None => Raise IndexError
  end.

(** [range(a, b)] for naturals. *)
Definition range (a b : nat) : list nat := seq a (b - a).

End Py.

Import Py.

(* ===================================================================== *)
(** ** Pixel buffers and PIL images                                        *)
(* ===================================================================== *)

Module Pixels.

(** A colour, independently of how its channels are laid out in memory. *)
Record color : Type := Color { red : Z; green : Z; blue : Z }.

(** One pixel of an [H x W x 3] array: its three channels in storage order. *)
Definition pixel : Type := (Z * Z * Z)%type.

(** A [numpy] array of shape [(height, width, 3)], row by row. *)
Definition ndarray : Type := list (list pixel).

Definition as_rgb (c : color) : pixel := (red c, green c, blue c).
Definition as_bgr (c : color) : pixel := (blue c, green c, red c).

(** A picture laid out in RGB order and in OpenCV's BGR order. *)
Definition rgb_array (scene : list (list color)) : ndarray := map (map as_rgb) scene.
Definition bgr_array (scene : list (list color)) : ndarray := map (map as_bgr) scene.

Definition swap_first_third (px : pixel) : pixel :=
  let '(a, b, c) := px in (c, b, a).

(** [cv2.cvtColor(a, cv2.COLOR_BGR2RGB)] and [cv2.cvtColor(a, cv2.COLOR_RGB2BGR)]:
    both exchange the first and the third channel of every pixel. *)
Definition cvtColor_BGR2RGB (a : ndarray) : ndarray := map (map swap_first_third) a.
Definition cvtColor_RGB2BGR (a : ndarray) : ndarray := map (map swap_first_third) a.

(** [a.shape]: rows, columns (of the first row: arrays are rectangular), channels. *)
Definition shape (a : ndarray) : nat * nat * nat :=
  (length a, match a with row :: _ => length row | [] => 0%nat end, 3%nat).

(** A PIL image: its mode and the pixels of its RGB rendering.  The script
    takes [np.array] of RGB images only (the folder loader converts first, the
    frames of a video are built with [Image.fromarray] from an RGB array). *)
Record Image : Type := { mode : string; pixels : ndarray }.

Definition Image_fromarray (a : ndarray) : Image := {| mode := "RGB"; pixels := a |}.
Definition np_array (img : Image) : ndarray := pixels img.
Definition Image_convert_RGB (img : Image) : Image := {| mode := "RGB"; pixels := pixels img |}.

End Pixels.

Import Pixels.

(* ===================================================================== *)
(** ** The interface the script is written against                         *)
(* ===================================================================== *)

(** Torch tensors and the operations the inversion loop applies to them.
    They are opaque: nothing below depends on what a tensor is. *)
Class TensorOps (T : Type) : Type := {
  tadd : T -> T -> T;               (* [a + b] *)
  tsub : T -> T -> T;               (* [a - b] *)
  tmul : T -> T -> T;               (* [a * b] *)
  tdiv : T -> T -> T;               (* [a / b] *)
  of_number : Q -> T;               (* a Python number used as an operand *)
  cat : list T -> T;                (* [torch.cat] *)
  chunk2 : T -> T * T;              (* [t.chunk(2)] unpacked into two names *)
  new_ones_batch : T -> T;          (* [x.new_ones([x.shape[0]])] *)
  ndim : T -> nat;                  (* [t.ndim] *)
  append_dims : T -> nat -> T       (* [K.utils.append_dims] *)
}.

Declare Scope tensor_scope.
Delimit Scope tensor_scope with tensor.
Infix "+" := tadd : tensor_scope.
Infix "-" := tsub : tensor_scope.
Infix "*" := tmul : tensor_scope.
Infix "/" := tdiv : tensor_scope.

(** The file-system operations worth recording. *)
Inductive io_event : Type :=
| IoListdir (path : string)
| IoImageOpen (path : string)
| IoVideoCapture (path : string)
| IoCapRead (path : string).

(** What [cv2.VideoCapture(path)] gives: whether it opened, the frames
    [read()] returns before it reports the end, and its [CAP_PROP_FPS]. *)
Record capture : Type := {
  isOpened : bool;
  stream : list ndarray;
  cap_fps : Q
}.

(** A file produced by [cv2.VideoWriter]. *)
Record video_file : Type := {
  vpath : string;
  fourcc : string;
  vfps : Q;
  vsize : nat * nat;
  written : list ndarray;
  released : bool
}.

Definition video_write (a : ndarray) (v : video_file) : video_file :=
  {| vpath := vpath v; fourcc := fourcc v; vfps := vfps v; vsize := vsize v;
     written := written v ++ [a]; released := released v |}.

Definition video_release (v : video_file) : video_file :=
  {| vpath := vpath v; fourcc := fourcc v; vfps := vfps v; vsize := vsize v;
     written := written v; released := true |}.

Section Model.

Context {T : Type} `{TensorOps T}.
(** The part of [shared.state] the script never looks at. *)
Context {host_state : Type}.
(** What [setup_color_correction] returns. *)
Context {correction : Type}.

(** The conditioning dictionary handed to [apply_model]. *)
Record cond_dict : Type := {
  c_concat : list T;
  c_crossattn : list T
}.

(** [shared.sd_model] / [p.sd_model]. *)
Record sd_model : Type := {
  parameterization : string;
  apply_model : T -> T -> cond_dict -> T;
  get_learned_conditioning : list string -> T
}.

(** A k-diffusion wrapper ([K.external.CompVisDenoiser] and
    [CompVisVDenoiser]).  [get_sigmas] returns a one-dimensional tensor,
    kept here as the list of its entries; [get_scalings] returns a tuple. *)
Record denoiser : Type := {
  get_sigmas : Z -> list T;
  get_scalings : T -> list T;
  sigma_to_t : T -> T
}.

(** *** class VideoVeilImage *)

Record VideoVeilImage : Type := {
  frame_array : ndarray;
  frame_image : Image;
  transformed_image : option Image;
  height : nat;
  width : nat
}.

(** The callable stored in [cp.sample]: the host's own method, or the
    closure [sample_extra] together with the variables it captured. *)
Inductive sample_fn : Type :=
| HostSample
| SampleExtra (frame : VideoVeilImage)
              (prompt_describing_original_video : string)
              (neg_prompt_describing_original_video : string).

(** The processing request [p] (a [StableDiffusionProcessingImg2Img]),
    reduced to the attributes the script reads or writes. *)
Record Request : Type := {
  batch_size : Z;
  sampler_name : string;
  steps : Z;
  n_iter : Z;
  cfg_scale : Q;
  prompt : string;
  negative_prompt : string;
  init_latent : T;
  image_conditioning : T;
  p_sd_model : sd_model;
  sample : sample_fn;
  control_net_input_image : option (list ndarray);
  init_images : list Image;
  color_corrections : option (list correction);
  outpath_samples : string
}.

(** The [Processed] object returned by [process_images]. *)
Record Processed : Type := {
  images : list (option Image);
  seed : Z
}.

(** [shared.state] *)
Record shared_state : Type := {
  sampling_steps : Z;
  job_count : Z;
  job_no : Z;
  job : string;
  skipped : bool;
  interrupted : bool;
  host : host_state
}.

(** What [sd_samplers.create_sampler] returns. *)
Record sampler : Type := {
  model_wrap_get_sigmas : Z -> list T;
  sample_img2img :
    Request -> T -> T -> T -> T -> T -> shared_state -> result T * shared_state
}.

(** Everything mutable: the host's shared state, the calls made across the
    interface (recorded in order), and the files written. *)
Record World : Type := {
  state : shared_state;
  model_calls : list (T * T * cond_dict);
  pipeline_calls : list Request;
  sampler_calls : list (Request * T * T);
  io_log : list io_event;
  dirs_made : list string;
  videos : list video_file;
  gallery_updates : list (list string)
}.

(** The surroundings of one run: the host application, the libraries and
    the file system.  All of it is opaque to the script. *)
Record Env : Type := {
  shared_sd_model : sd_model;
  CompVisDenoiser : sd_model -> denoiser;
  CompVisVDenoiser : sd_model -> denoiser;
  store_latent : T -> shared_state -> shared_state;
  nextjob : shared_state -> shared_state;
  create_sampler : string -> sd_model -> sampler;
  process_images : Request -> shared_state -> result Processed * shared_state;
  p_close : Request -> shared_state -> shared_state;
  host_sample : Request -> T -> T -> shared_state -> result T * shared_state;
  setup_color_correction : Image -> correction;
  os_path_exists : string -> bool;
  os_listdir : string -> result (list string);
  Image_open : string -> result Image;
  VideoCapture : string -> capture;
  datetime_now_utc : datetime
}.

Variable env : Env.

(** *** A state-and-exception monad *)

Definition M (A : Type) : Type := World -> result A * World.

Definition ret {A} (a : A) : M A := fun w => (Ok a, w).

Definition raise {A} (e : exn) : M A := fun w => (Raise e, w).

Definition bind {A B} (m : M A) (k : A -> M B) : M B :=
  fun w =>
    match m w with
    | (Ok a, w') => k a w'
    | (Raise e, w') => (Raise e, w')
    end.

Definition lift {A} (r : result A) : M A := fun w => (r, w).

Definition get_state : M shared_state := fun w => (Ok (state w), w).

Definition set_state (s : shared_state) (w : World) : World :=
  {| state := s; model_calls := model_calls w; pipeline_calls := pipeline_calls w;
     sampler_calls := sampler_calls w; io_log := io_log w; dirs_made := dirs_made w;
     videos := videos w; gallery_updates := gallery_updates w |}.

Definition modify_state (f : shared_state -> shared_state) : M unit :=
  fun w => (Ok tt, set_state (f (state w)) w).

Definition log_model_call (c : T * T * cond_dict) (w : World) : World :=
  {| state := state w; model_calls := model_calls w ++ [c];
     pipeline_calls := pipeline_calls w; sampler_calls := sampler_calls w;
     io_log := io_log w; dirs_made := dirs_made w; videos := videos w;
     gallery_updates := gallery_updates w |}.

Definition log_pipeline_call (c : Request) (w : World) : World :=
  {| state := state w; model_calls := model_calls w;
     pipeline_calls := pipeline_calls w ++ [c]; sampler_calls := sampler_calls w;
     io_log := io_log w; dirs_made := dirs_made w; videos := videos w;
     gallery_updates := gallery_updates w |}.

Definition log_sampler_call (c : Request * T * T) (w : World) : World :=
  {| state := state w; model_calls := model_calls w;
     pipeline_calls := pipeline_calls w; sampler_calls := sampler_calls w ++ [c];
     io_log := io_log w; dirs_made := dirs_made w; videos := videos w;
     gallery_updates := gallery_updates w |}.

Definition log_io (e : io_event) (w : World) : World :=
  {| state := state w; model_calls := model_calls w;
     pipeline_calls := pipeline_calls w; sampler_calls := sampler_calls w;
     io_log := io_log w ++ [e]; dirs_made := dirs_made w; videos := videos w;
     gallery_updates := gallery_updates w |}.

Definition set_dirs_made (d : list string) (w : World) : World :=
  {| state := state w; model_calls := model_calls w;
     pipeline_calls := pipeline_calls w; sampler_calls := sampler_calls w;
     io_log := io_log w; dirs_made := d; videos := videos w;
     gallery_updates := gallery_updates w |}.

Definition set_videos (v : list video_file) (w : World) : World :=
  {| state := state w; model_calls := model_calls w;
     pipeline_calls := pipeline_calls w; sampler_calls := sampler_calls w;
     io_log := io_log w; dirs_made := dirs_made w; videos := v;
     gallery_updates := gallery_updates w |}.

Definition log_gallery_update (u : list string) (w : World) : World :=
  {| state := state w; model_calls := model_calls w;
     pipeline_calls := pipeline_calls w; sampler_calls := sampler_calls w;
     io_log := io_log w; dirs_made := dirs_made w; videos := videos w;
     gallery_updates := gallery_updates w ++ [u] |}.

Notation "x <- m ;; k" := (bind m (fun x => k))
  (at level 100, m at next level, right associativity).

(** Setters of [shared.state]. *)
Definition set_sampling_steps (n : Z) (s : shared_state) : shared_state :=
  {| sampling_steps := n; job_count := job_count s; job_no := job_no s; job := job s;
     skipped := skipped s; interrupted := interrupted s; host := host s |}.
Definition set_job_count (n : Z) (s : shared_state) : shared_state :=
  {| sampling_steps := sampling_steps s; job_count := n; job_no := job_no s; job := job s;
     skipped := skipped s; interrupted := interrupted s; host := host s |}.
Definition set_job_no (n : Z) (s : shared_state) : shared_state :=
  {| sampling_steps := sampling_steps s; job_count := job_count s; job_no := n; job := job s;
     skipped := skipped s; interrupted := interrupted s; host := host s |}.
Definition set_job (j : string) (s : shared_state) : shared_state :=
  {| sampling_steps := sampling_steps s; job_count := job_count s; job_no := job_no s; job := j;
     skipped := skipped s; interrupted := interrupted s; host := host s |}.
Definition set_skipped (b : bool) (s : shared_state) : shared_state :=
  {| sampling_steps := sampling_steps s; job_count := job_count s; job_no := job_no s; job := job s;
     skipped := b; interrupted := interrupted s; host := host s |}.

(** The calls across the interface, each recorded before it is made. *)
Definition call_apply_model (m : sd_model) (x t : T) (c : cond_dict) : M T :=
  fun w => (Ok (apply_model m x t c), log_model_call (x, t, c) w).

Definition call_process_images (cp : Request) : M Processed :=
  fun w =>
    let w1 := log_pipeline_call cp w in
    let '(r, s) := process_images env cp (state w1) in
    (r, set_state s w1).

Definition call_sample_img2img (smp : sampler) (cp : Request)
    (x noise conditioning unconditional_conditioning image_cond : T) : M T :=
  fun w =>
    let w1 := log_sampler_call (cp, x, noise) w in
    let '(r, s) :=
      sample_img2img smp cp x noise conditioning unconditional_conditioning
        image_cond (state w1) in
    (r, set_state s w1).

(** Unpacking a sequence into exactly two names. *)
Definition unpack2 {A} (l : list A) : M (A * A) :=
  match l with
  | [a; b] => ret (a, b)
  | _ => raise ValueError
  end.

(** A [for] loop that threads one local variable through its body. *)
Fixpoint for_each {A X} (body : A -> X -> M X) (l : list A) (x : X) : M X :=
  match l with
  | [] => ret x
  | a :: l' => x' <- body a x ;; for_each body l' x'
  end.

(** *** VideoVeilImage.find_noise_for_image_sigma_adjustment *)

(** The body of [for i in trange(1, len(sigmas))]; [x] is the loop-carried
    latent, everything else is fixed before the loop. *)
Definition inversion_step (dnw : denoiser) (skip : nat) (p : Request)
    (cond uncond : T) (cfg_scale : Q) (sigmas : list T) (s_in : T)
    (i : nat) (x : T) : M T :=
  let x_in := cat (replicate 2 x) in
  sigma_prev <- lift (index sigmas (i - 1)) ;;
  let sigma_in := cat (replicate 2 (sigma_prev * s_in)%tensor) in
  let cond_in := cat [uncond; cond] in
  let image_conditioning := cat (replicate 2 (image_conditioning p)) in
  let cond_in := {| c_concat := [image_conditioning]; c_crossattn := [cond_in] |} in
  scalings <- unpack2 (map (fun k => append_dims k (ndim x_in))
                           (drop skip (get_scalings dnw sigma_in))) ;;
  let c_out := fst scalings in
  let c_in := snd scalings in
  t <- (if Nat.eqb i 1
        then sigma_i <- lift (index sigmas i) ;;
             ret (sigma_to_t dnw (cat (replicate 2 (sigma_i * s_in)%tensor)))
        else ret (sigma_to_t dnw sigma_in)) ;;
  eps <- call_apply_model (shared_sd_model env) (x_in * c_in)%tensor t cond_in ;;
  let '(denoised_uncond, denoised_cond) := chunk2 (x_in + eps * c_out)%tensor in
  let denoised :=
    (denoised_uncond + (denoised_cond - denoised_uncond) * of_number cfg_scale)%tensor in
  d <- (if Nat.eqb i 1
        then sigma_i <- lift (index sigmas i) ;;
             ret ((x - denoised) / (of_number 2 * sigma_i))%tensor
        else ret ((x - denoised) / sigma_prev)%tensor) ;;
  sigma_i <- lift (index sigmas i) ;;
  let dt := (sigma_i - sigma_prev)%tensor in
  let x := (x + d * dt)%tensor in
  _ <- modify_state (store_latent env x) ;;
  ret x.

(** The [if shared.sd_model.parameterization == "v"] at the top of the
    routine: the wrapper [dnw] and the offset [skip]. *)
Definition model_wrapper : denoiser * nat :=
  if String.eqb (parameterization (shared_sd_model env)) "v"
  then (CompVisVDenoiser env (shared_sd_model env), 1%nat)
  else (CompVisDenoiser env (shared_sd_model env), 0%nat).

Definition find_noise_for_image_sigma_adjustment (p : Request)
    (cond uncond : T) (cfg_scale : Q) (steps : Z) : M T :=
  let x := init_latent p in
  let s_in := new_ones_batch x in
  let '(dnw, skip) := model_wrapper in
  let sigmas := reverse (get_sigmas dnw steps) in
  _ <- modify_state (set_sampling_steps steps) ;;
  x <- for_each (inversion_step dnw skip p cond uncond cfg_scale sigmas s_in)
         (range 1 (length sigmas)) x ;;
  _ <- modify_state (nextjob env) ;;
  sigma_last <- lift (index_last sigmas) ;;
  ret (x / sigma_last)%tensor.

(** *** VideoVeilImage.__init__ and set_transformed_image *)

Definition VideoVeilImage_init (frame_array : option ndarray)
    (frame_image : option Image) : result VideoVeilImage :=
  match frame_array, frame_image with
  | Some arr, _ =>
      let converted_frame_array := cvtColor_BGR2RGB arr in
      let img := Image_fromarray converted_frame_array in
      let '(h, w, _) := shape arr in
      Ok {| frame_array := arr; frame_image := img; transformed_image := None;
            height := h; width := w |}
  | None, Some img =>
      let arr := np_array img in
      let '(h, w, _) := shape arr in
      Ok {| frame_array := arr; frame_image := img; transformed_image := None;
            height := h; width := w |}
  | None, None => Raise AttributeError     (* [None.shape] *)
  end.

Definition set_transformed_image (self : VideoVeilImage) (image : option Image)
    : VideoVeilImage :=
  {| frame_array := frame_array self; frame_image := frame_image self;
     transformed_image := image; height := height self; width := width self |}.

(** *** class VideoVeilSourceVideo *)

Record VideoVeilSourceVideo : Type := {
  frames : list VideoVeilImage;
  use_images_directory : bool;
  video_path : option string;
  directory_upload_path : option string;
  test_run : bool;
  test_run_frames_count : option Z;
  output_video_path : option string;
  video_width : nat;
  video_height : nat;
  output_path : option string      (* created by [create_mp4] *)
}.

Definition set_frames (f : list VideoVeilImage) (self : VideoVeilSourceVideo)
    : VideoVeilSourceVideo :=
  {| frames := f; use_images_directory := use_images_directory self;
     video_path := video_path self;
     directory_upload_path := directory_upload_path self;
     test_run := test_run self;
     test_run_frames_count := test_run_frames_count self;
     output_video_path := output_video_path self;
     video_width := video_width self; video_height := video_height self;
     output_path := output_path self |}.

Definition set_dimensions (w h : nat) (self : VideoVeilSourceVideo)
    : VideoVeilSourceVideo :=
  {| frames := frames self; use_images_directory := use_images_directory self;
     video_path := video_path self;
     directory_upload_path := directory_upload_path self;
     test_run := test_run self;
     test_run_frames_count := test_run_frames_count self;
     output_video_path := output_video_path self;
     video_width := w; video_height := h;
     output_path := output_path self |}.

Definition set_output_path (o : string) (self : VideoVeilSourceVideo)
    : VideoVeilSourceVideo :=
  {| frames := frames self; use_images_directory := use_images_directory self;
     video_path := video_path self;
     directory_upload_path := directory_upload_path self;
     test_run := test_run self;
     test_run_frames_count := test_run_frames_count self;
     output_video_path := output_video_path self;
     video_width := video_width self; video_height := video_height self;
     output_path := Some o |}.

(** [self.test_run_frames_count is not None and len(self.frames) >= self.test_run_frames_count] *)
Definition frame_cap_reached (cap : option Z) (loaded : list VideoVeilImage) : bool :=
  match cap with
  | Some k => (k <=? Z.of_nat (length loaded))%Z
  | None => false
  end.

Definition image_extensions : list string := [".jpg"; ".jpeg"; ".png"].

Definition has_image_extension (file_name : string) : bool :=
  existsb (fun ext => endswith file_name ext) image_extensions.

Definition call_listdir (path : string) : M (list string) :=
  fun w => (os_listdir env path, log_io (IoListdir path) w).

Definition call_Image_open (path : string) : M Image :=
  fun w => (Image_open env path, log_io (IoImageOpen path) w).

Definition call_VideoCapture (path : option string) : M capture :=
  match path with
  | Some f => fun w => (Ok (VideoCapture env f), log_io (IoVideoCapture f) w)
  | None => raise TypeError
  end.

(** The loop of [_load_frames_from_folder] over the remaining names;
    [loaded] is [self.frames] so far. *)
Fixpoint load_images (dir : option string) (cap : option Z)
    (image_names : list string) (loaded : list VideoVeilImage)
    : M (list VideoVeilImage) :=
  match image_names with
  | [] => ret loaded
  | image_name :: rest =>
      if frame_cap_reached cap loaded then ret loaded
      else
        image_path <- match dir with
                      | Some d => ret (join d image_name)
                      | None => raise TypeError
                      end ;;
        image <- call_Image_open image_path ;;
        let image :=
          if negb (String.eqb (mode image) "RGB") then Image_convert_RGB image
          else image in
        frame <- lift (VideoVeilImage_init None (Some image)) ;;
        load_images dir cap rest (loaded ++ [frame])
  end.

Definition _load_frames_from_folder (self : VideoVeilSourceVideo)
    : M VideoVeilSourceVideo :=
  (* [os.listdir(None)] lists the current directory *)
  listing <- call_listdir (default "." (directory_upload_path self)) ;;
  let image_names := filter (fun n => has_image_extension n = true) listing in
  if (length image_names <=? 0)%nat then
    raise (Exception ("No images (*.png, *.jpg, *.jpeg) found in '"
                      +:+ str_opt (directory_upload_path self) +:+ "'."))
  else
    loaded <- load_images (directory_upload_path self)
                (test_run_frames_count self) image_names [] ;;
    ret (set_frames loaded self).

(** The [while True] loop of [_load_frames_from_video]: [remaining] is what
    the capture has not yet returned, [loaded] is [self.frames] so far. *)
Fixpoint read_frames (path : string) (cap : option Z) (remaining : list ndarray)
    (loaded : list VideoVeilImage) : M (list VideoVeilImage) :=
  if frame_cap_reached cap loaded then ret loaded
  else
    match remaining with
    | frame :: rest =>
        fun w =>
          (v <- lift (VideoVeilImage_init (Some frame) None) ;;
           read_frames path cap rest (loaded ++ [v])) (log_io (IoCapRead path) w)
    | [] => fun w => (Ok loaded, log_io (IoCapRead path) w)
    end.

Definition _load_frames_from_video (self : VideoVeilSourceVideo)
    : M VideoVeilSourceVideo :=
  cap <- call_VideoCapture (video_path self) ;;
  let self := set_frames [] self in
  if negb (isOpened cap) then ret self
  else
    loaded <- read_frames (default "" (video_path self))
                (test_run_frames_count self) (stream cap) [] ;;
    ret (set_frames loaded self).

Definition _set_video_dimensions (self : VideoVeilSourceVideo)
    : VideoVeilSourceVideo :=
  match frames self with
  | first_frame :: _ => set_dimensions (width first_frame) (height first_frame) self
  | [] => self
  end.

(** [path is None or not os.path.exists(path)] *)
Definition path_missing (path : option string) : bool :=
  match path with
  | None => true
  | Some f => negb (os_path_exists env f)
  end.

Definition VideoVeilSourceVideo_init (use_images_directory : bool)
    (video_path directory_upload_path : option string)
    (test_run : bool) (test_run_frames_count : Z)
    (throw_errors_when_invalid : bool) : M VideoVeilSourceVideo :=
  let self :=
    {| frames := [];
       use_images_directory := use_images_directory;
       video_path := video_path;
       directory_upload_path := directory_upload_path;
       test_run := test_run;
       test_run_frames_count :=
         if negb test_run then None else Some test_run_frames_count;
       output_video_path := None;
       video_width := 0; video_height := 0;
       output_path := None |} in
  if use_images_directory then
    if path_missing directory_upload_path then
      if throw_errors_when_invalid then
        raise (Exception ("Directory not found: '"
                          +:+ str_opt directory_upload_path +:+ "'."))
      else ret self
    else
      self <- _load_frames_from_folder self ;;
      ret (_set_video_dimensions self)
  else
    if path_missing video_path then
      if throw_errors_when_invalid then
        raise (Exception ("Video not found: '" +:+ str_opt video_path +:+ "'."))
      else ret self
    else
      self <- _load_frames_from_video self ;;
      ret (_set_video_dimensions self).

(** [os.makedirs(path, exist_ok=True)] *)
Definition makedirs (path : string) : M unit :=
  fun w =>
    (Ok tt,
     if os_path_exists env path || bool_decide (path ∈ dirs_made w) then w
     else set_dirs_made (dirs_made w ++ [path]) w).

(** [cv2.VideoWriter(path, fourcc, fps, size)]: the writer opened last is
    the head of [videos]. *)
Definition VideoWriter (path code : string) (fps : Q) (size : nat * nat) : M unit :=
  fun w =>
    (Ok tt,
     set_videos ({| vpath := path; fourcc := code; vfps := fps; vsize := size;
                    written := []; released := false |} :: videos w) w).

Definition on_open_video (f : video_file -> video_file) : M unit :=
  fun w =>
    (Ok tt,
     match videos w with
     | v :: vs => set_videos (f v :: vs) w
     | [] => w
     end).

(** [out.write(cv2.cvtColor(np.array(frame.transformed_image), cv2.COLOR_RGB2BGR))].
    For a frame without transformed image, [np.array(None)] is a
    zero-dimensional object array and [cv2.cvtColor] rejects it. *)
Definition write_frame (frame : VideoVeilImage) (_ : unit) : M unit :=
  match transformed_image frame with
  | Some img => on_open_video (video_write (cvtColor_RGB2BGR (np_array img)))
  | None => raise CvError
  end.

Definition create_mp4 (self : VideoVeilSourceVideo) (seed : Z)
    (output_directory : string) (img2img_gallery : bool)
    : M VideoVeilSourceVideo :=
  if test_run self then ret self
  else
    let fps := 30%Q in
    named <-
      (if negb (use_images_directory self) then
         match video_path self with
         | Some f =>
             let original_file_name := basename f in
             clip <- call_VideoCapture (Some f) ;;
             (* [if clip:] a capture object is always true *)
             ret (original_file_name, cap_fps clip)
         | None => raise TypeError
         end
       else
         match directory_upload_path self with
         | Some d => ret (basename d +:+ ".mp4", fps)
         | None => raise TypeError
         end) ;;
    let original_file_name := fst named in
    let fps := snd named in
    let date_string := strftime (datetime_now_utc env) in
    let file_name :=
      date_string +:+ "-" +:+ str_int seed +:+ "-" +:+ original_file_name in
    let output_directory := join output_directory "video-veil-output" in
    _ <- makedirs output_directory ;;
    let output_path := join output_directory file_name in
    _ <- VideoWriter output_path "mp4v" fps (video_width self, video_height self) ;;
    _ <- for_each write_frame (frames self) tt ;;
    _ <- on_open_video video_release ;;
    let self := set_output_path output_path self in
    if img2img_gallery
    then fun w => (Ok self, log_gallery_update [output_path] w)
    else ret self.

(** *** class Script *)

Definition color_correction_option_none : string := "None".
Definition color_correction_option_video : string := "From Source Video".
Definition color_correction_option_generated_image : string :=
  "From Stable Diffusion Generated Image".

Definition set_sampling (b : Z) (name : string) (f : sample_fn) (cp : Request)
    : Request :=
  {| batch_size := b; sampler_name := name; steps := steps cp; n_iter := n_iter cp;
     cfg_scale := cfg_scale cp; prompt := prompt cp;
     negative_prompt := negative_prompt cp; init_latent := init_latent cp;
     image_conditioning := image_conditioning cp; p_sd_model := p_sd_model cp;
     sample := f; control_net_input_image := control_net_input_image cp;
     init_images := init_images cp; color_corrections := color_corrections cp;
     outpath_samples := outpath_samples cp |}.

Definition set_frame_inputs (arrays : list ndarray) (imgs : list Image)
    (cp : Request) : Request :=
  {| batch_size := batch_size cp; sampler_name := sampler_name cp;
     steps := steps cp; n_iter := n_iter cp;
     cfg_scale := cfg_scale cp; prompt := prompt cp;
     negative_prompt := negative_prompt cp; init_latent := init_latent cp;
     image_conditioning := image_conditioning cp; p_sd_model := p_sd_model cp;
     sample := sample cp; control_net_input_image := Some arrays;
     init_images := imgs; color_corrections := color_corrections cp;
     outpath_samples := outpath_samples cp |}.

Definition set_color_corrections (c : list correction) (cp : Request) : Request :=
  {| batch_size := batch_size cp; sampler_name := sampler_name cp;
     steps := steps cp; n_iter := n_iter cp;
     cfg_scale := cfg_scale cp; prompt := prompt cp;
     negative_prompt := negative_prompt cp; init_latent := init_latent cp;
     image_conditioning := image_conditioning cp; p_sd_model := p_sd_model cp;
     sample := sample cp; control_net_input_image := control_net_input_image cp;
     init_images := init_images cp; color_corrections := Some c;
     outpath_samples := outpath_samples cp |}.

(** [cp.batch_size = 1; cp.sampler_name = "Euler"; cp.sample = sample_extra] *)
Definition apply_img2img_alternate_fix (cp : Request) (frame : VideoVeilImage)
    (prompt_describing_original_video neg_prompt_describing_original_video : string)
    : Request :=
  set_sampling 1 "Euler"
    (SampleExtra frame prompt_describing_original_video
       neg_prompt_describing_original_video) cp.

(** The closure [sample_extra], with its captured variables as arguments.
    Of its parameters only the two conditionings are used. *)
Definition sample_extra (cp : Request) (frame : VideoVeilImage)
    (prompt_describing_original_video neg_prompt_describing_original_video : string)
    (conditioning unconditional_conditioning : T) : M T :=
  _ <- modify_state (fun s => set_job_count (job_count s + 1) s) ;;
  let decode_cfg_scale := 1%Q in
  let cond :=
    get_learned_conditioning (p_sd_model cp) [prompt_describing_original_video] in
  let uncond :=
    get_learned_conditioning (p_sd_model cp) [neg_prompt_describing_original_video] in
  rec_noise <- find_noise_for_image_sigma_adjustment cp cond uncond
                 decode_cfg_scale (steps cp) ;;
  let sampler := create_sampler env (sampler_name cp) (p_sd_model cp) in
  let sigmas := model_wrap_get_sigmas sampler (steps cp) in
  sigma_0 <- lift (index sigmas 0) ;;
  let noise_dt := (rec_noise - (init_latent cp / sigma_0))%tensor in
  call_sample_img2img sampler cp (init_latent cp) noise_dt conditioning
    unconditional_conditioning (image_conditioning cp).

(** [cp.sample(conditioning, unconditional_conditioning, ...)] as the host
    calls it while it processes [cp]. *)
Definition call_sample (cp : Request) (conditioning unconditional_conditioning : T)
    : M T :=
  match sample cp with
  | SampleExtra frame pos neg =>
      sample_extra cp frame pos neg conditioning unconditional_conditioning
  | HostSample =>
      fun w =>
        let '(r, s) :=
          host_sample env cp conditioning unconditional_conditioning (state w) in
        (r, set_state s w)
  end.

Definition prompt_placeholder : string :=
  "This prompt should describe your input video".
Definition neg_prompt_placeholder : string :=
  "This is your negative prompt describing your input video".

(** The local variables of [Script.run] that the frame loop assigns. *)
Record locals : Type := {
  l_source_video : VideoVeilSourceVideo;
  l_proc : option Processed;        (* [None]: not yet bound *)
  l_cp : option Request
}.

(** The colour-correction step of the loop body. *)
Definition apply_color_correction (color_correction : string)
    (source_video : VideoVeilSourceVideo) (frame : VideoVeilImage)
    (cp : Request) : M Request :=
  if String.eqb color_correction color_correction_option_none then ret cp
  else if String.eqb color_correction color_correction_option_video then
    ret (set_color_corrections [setup_color_correction env (frame_image frame)] cp)
  else if String.eqb color_correction color_correction_option_generated_image then
    if (0 <? length (frames source_video))%nat then
      last_frame <- lift (index_last (frames source_video)) ;;
      match transformed_image last_frame with
      | Some img =>
          (* use the previous frame for color correction *)
          ret (set_color_corrections [setup_color_correction env img] cp)
      | None => ret cp
      end
    else ret cp
  else ret cp.

(** One pass through the body of [for i, frame in enumerate(source_video.frames)],
    after the two checks at its top. *)
Definition process_frame (p : Request) (color_correction : string) (i : nat)
    (l : locals) : M locals :=
  let source_video := l_source_video l in
  frame <- lift (index (frames source_video) i) ;;
  _ <- modify_state
         (fun s => set_job (str_int (job_no s + 1) +:+ " out of "
                            +:+ str_int (job_count s)) s) ;;
  let cp := p in                                   (* [copy.copy(p)] *)
  let cp := apply_img2img_alternate_fix cp frame
              prompt_placeholder neg_prompt_placeholder in
  let cp := set_frame_inputs [frame_array frame] [frame_image frame] cp in
  cp <- apply_color_correction color_correction source_video frame cp ;;
  proc <- call_process_images cp ;;
  image <- lift (index (images proc) 0) ;;
  let source_video :=
    set_frames (<[i := set_transformed_image frame image]> (frames source_video))
      source_video in
  _ <- modify_state (p_close env cp) ;;
  ret {| l_source_video := source_video; l_proc := Some proc; l_cp := Some cp |}.

(** The frame loop; [todo] holds the indices still to visit. *)
Fixpoint frame_loop (p : Request) (color_correction : string) (todo : list nat)
    (l : locals) : M locals :=
  match todo with
  | [] => ret l
  | i :: rest =>
      _ <- modify_state (fun s => if skipped s then set_skipped false s else s) ;;
      s <- get_state ;;
      if interrupted s then ret l                  (* [break] *)
      else
        l' <- process_frame p color_correction i l ;;
        frame_loop p color_correction rest l'
  end.

Definition read_local {A} (name : string) (v : option A) : M A :=
  match v with
  | Some a => ret a
  | None => raise (UnboundLocalError name)
  end.

Definition is_blank (path : option string) : bool :=
  match path with
  | None => true
  | Some f => String.eqb f ""
  end.

Definition run (p : Request) (use_images_directory : bool)
    (video_path directory_upload_path : option string)
    (color_correction : string) (test_run : bool) (test_run_frames_count : Z)
    : M Processed :=
  let no_video_path := is_blank video_path in
  let no_directory_upload_path := is_blank directory_upload_path in
  let enabled := negb no_video_path || negb no_directory_upload_path in
  if enabled then
    source_video <- VideoVeilSourceVideo_init use_images_directory video_path
                      directory_upload_path test_run test_run_frames_count true ;;
    let l := {| l_source_video := source_video; l_proc := None; l_cp := None |} in
    l <- (if (0 <? length (frames source_video))%nat then
            _ <- modify_state
                   (fun s => set_job_count
                               (Z.of_nat (length (frames source_video)) * n_iter p) s) ;;
            _ <- modify_state (set_job_no 0) ;;
            l <- frame_loop p color_correction
                   (range 0 (length (frames source_video))) l ;;
            shown <- read_local "proc" (l_proc l) ;;
            let shown :=
              {| images := map transformed_image (frames (l_source_video l));
                 seed := seed shown |} in
            last_cp <- read_local "cp" (l_cp l) ;;
            sv <- create_mp4 (l_source_video l) (seed shown)
                    (outpath_samples last_cp) true ;;
            ret {| l_source_video := sv; l_proc := Some shown; l_cp := l_cp l |}
          else ret l) ;;
    read_local "proc" (l_proc l)
  else
    call_process_images p.

End Model.

Arguments Request : clear implicits.
Arguments World : clear implicits.
Arguments Env : clear implicits.
Arguments shared_state : clear implicits.
Arguments locals : clear implicits.

(* ===================================================================== *)
(** ** The inversion procedure as the specification words it               *)
(* ===================================================================== *)

(** Steps 2a-2i of the specification for one index [i], and the iteration
    "for [i] from 1 to [stepCount]", written with total indexing. *)
Section SpecInversion.

Context {T : Type} `{TensorOps T} {correction : Type}.
Variable model : @sd_model T.
Variable dnw : @denoiser T.
Variable skip : nat.
Variable p : Request T correction.
Variables cond uncond : T.
Variable guidanceScale : Q.
Variable sigmas : list T.

Definition spec_sigma (i : nat) : T := nth i sigmas (of_number 0).

Definition spec_duplicate (t : T) : T := cat [t; t].

Definition spec_s_in : T := new_ones_batch (init_latent p).

(** 2b: the duplicated sigma of this step and the duplicated conditioning. *)
Definition spec_sigma_in (i : nat) : T :=
  spec_duplicate (spec_sigma (i - 1) * spec_s_in)%tensor.

Definition spec_cond_in : cond_dict :=
  {| c_concat := [spec_duplicate (image_conditioning p)];
     c_crossattn := [cat [uncond; cond]] |}.

(** 2c: the scale factors, after the leading ones are skipped. *)
Definition spec_c_out (x : T) (i : nat) : T :=
  append_dims (nth skip (get_scalings dnw (spec_sigma_in i)) (of_number 0))
    (ndim (spec_duplicate x)).

Definition spec_c_in (x : T) (i : nat) : T :=
  append_dims (nth (S skip) (get_scalings dnw (spec_sigma_in i)) (of_number 0))
    (ndim (spec_duplicate x)).

(** 2d: the time step, anchored to [sigmas[1]] in the first iteration. *)
Definition spec_timestep (i : nat) : T :=
  if Nat.eqb i 1
  then sigma_to_t dnw (spec_duplicate (spec_sigma 1 * spec_s_in)%tensor)
  else sigma_to_t dnw (spec_sigma_in i).

(** 2e: the one call of the opaque model in iteration [i]. *)
Definition spec_model_call (x : T) (i : nat) : T * T * cond_dict :=
  ((spec_duplicate x * spec_c_in x i)%tensor, spec_timestep i, spec_cond_in).

(** 2f, 2g: the two denoised halves and classifier-free guidance. *)
Definition spec_denoised (x : T) (i : nat) : T :=
  let eps :=
    apply_model model (spec_duplicate x * spec_c_in x i)%tensor
      (spec_timestep i) spec_cond_in in
  let halves := chunk2 (spec_duplicate x + eps * spec_c_out x i)%tensor in
  (fst halves + (snd halves - fst halves) * of_number guidanceScale)%tensor.

(** 2h: the step direction. *)
Definition spec_direction (x : T) (i : nat) : T :=
  if Nat.eqb i 1
  then ((x - spec_denoised x i) / (of_number 2 * spec_sigma 1))%tensor
  else ((x - spec_denoised x i) / spec_sigma (i - 1))%tensor.

(** 2i: the advance. *)
Definition spec_advance (x : T) (i : nat) : T :=
  (x + spec_direction x i * (spec_sigma i - spec_sigma (i - 1)))%tensor.

(** The latent after iterations [1..i]. *)
Fixpoint spec_latent (i : nat) : T :=
  match i with
  | O => init_latent p
  | S k => spec_advance (spec_latent k) (S k)
  end.

(** 3: the result for [stepCount = s]. *)
Definition spec_invert (s : nat) : T :=
  (spec_latent s / spec_sigma (length sigmas - 1))%tensor.

End SpecInversion.

(* ===================================================================== *)
(** ** A small concrete world                                              *)
(* ===================================================================== *)

(** Tensors with one axis over the rationals, a stub model, a stub host and
    a file system with a two-frame clip, a folder of images, an empty
    folder and a file no decoder opens.  The general theorems below are
    instantiated here. *)
Module Demo.

Definition tensor : Type := list Q.

(** Element-wise operations; an operand with a single entry broadcasts. *)
Definition broadcast (f : Q -> Q -> Q) (a b : tensor) : tensor :=
  match a, b with
  | [x], _ => map (fun y => Qred (f x y)) b
  | _, [y] => map (fun x => Qred (f x y)) a
  | _, _ => zip_with (fun x y => Qred (f x y)) a b
  end.

#[export] Instance tensor_ops : TensorOps tensor := {|
  tadd := broadcast Qplus;
  tsub := broadcast Qminus;
  tmul := broadcast Qmult;
  tdiv := broadcast Qdiv;
  of_number := fun q => [q];
  cat := fun l => concat l;
  chunk2 := fun t => (take (length t / 2) t, drop (length t / 2) t);
  new_ones_batch := fun x => replicate (length x) 1%Q;
  ndim := fun _ => 1%nat;
  append_dims := fun t _ => t
|}.

(** [n, n-1, ..., 1] followed by the appended zero. *)
Definition demo_sigmas (n : Z) : list tensor :=
  map (fun k => [inject_Z (Z.of_nat k)]) (reverse (seq 1 (Z.to_nat n))) ++ [[0%Q]].

Definition eps_wrapper : @denoiser tensor := {|
  get_sigmas := demo_sigmas;
  get_scalings := fun sigma => [broadcast Qmult [(-1)%Q] sigma; [1%Q]];
  sigma_to_t := fun sigma => sigma
|}.

Definition v_wrapper : @denoiser tensor := {|
  get_sigmas := demo_sigmas;
  get_scalings := fun sigma => [[1%Q]; broadcast Qmult [(-1)%Q] sigma; [1%Q]];
  sigma_to_t := fun sigma => sigma
|}.

Definition demo_model (kind : string) : @sd_model tensor := {|
  parameterization := kind;
  apply_model := fun x t c =>
    broadcast Qplus (broadcast Qmult x [(1 # 2)%Q])
      (broadcast Qplus t (concat (c_concat c)));
  get_learned_conditioning := fun prompts =>
    [inject_Z (Z.of_nat (String.length (default "" (head prompts))))]
|}.

(** The host's hidden state here: how many more frames the user lets pass
    before pressing Interrupt ([None]: never). *)
Definition patience : Type := option nat.

Definition demo_sampler : @sampler tensor patience nat := {|
  model_wrap_get_sigmas := demo_sigmas;
  sample_img2img := fun _ x noise _ _ _ s => (Ok (broadcast Qplus x noise), s)
|}.

Definition px (r g b : Z) : color := Color r g b.

Definition scene_a : list (list color) := [[px 255 0 0; px 0 255 0]].
Definition scene_b : list (list color) := [[px 10 20 30; px 40 50 60]].

Definition stylized : Image := {| mode := "RGB"; pixels := [[(7, 8, 9); (1, 2, 3)]] |}.

Definition after_frame (s : shared_state patience) : shared_state patience :=
  match host s with
  | Some (S n) =>
      {| sampling_steps := sampling_steps s; job_count := job_count s;
         job_no := job_no s; job := job s; skipped := skipped s;
         interrupted := interrupted s; host := Some n |}
  | Some O =>
      {| sampling_steps := sampling_steps s; job_count := job_count s;
         job_no := job_no s; job := job s; skipped := skipped s;
         interrupted := true; host := Some O |}
  | None => s
  end.

Definition demo_env (kind : string) : Env tensor patience nat := {|
  shared_sd_model := demo_model kind;
  CompVisDenoiser := fun _ => eps_wrapper;
  CompVisVDenoiser := fun _ => v_wrapper;
  store_latent := fun _ s => s;
  nextjob := fun s => set_job_no (job_no s + 1) s;
  create_sampler := fun _ _ => demo_sampler;
  process_images := fun cp s => (Ok {| images := [Some stylized]; seed := 42 |}, s);
  p_close := fun _ s => after_frame s;
  host_sample := fun _ c _ s => (Ok c, s);
  setup_color_correction := fun img => length (pixels img);
  os_path_exists := fun f =>
    bool_decide (f ∈ ["/in/clip.mp4"; "/in/frames"; "/in/empty"; "/in/broken.mp4"]);
  os_listdir := fun d =>
    if String.eqb d "/in/frames" then Ok ["a.png"; "notes.txt"; "b.jpg"]
    else if String.eqb d "/in/empty" then Ok ["notes.txt"]
    else Raise (HostError 20);
  Image_open := fun f =>
    if String.eqb f "/in/frames/a.png"
    then Ok {| mode := "RGB"; pixels := rgb_array scene_a |}
    else if String.eqb f "/in/frames/b.jpg"
    then Ok {| mode := "L"; pixels := rgb_array scene_b |}
    else Raise (HostError 2);
  VideoCapture := fun f =>
    if String.eqb f "/in/clip.mp4"
    then {| isOpened := true; stream := [bgr_array scene_a; bgr_array scene_b];
            cap_fps := 24%Q |}
    else {| isOpened := false; stream := []; cap_fps := 0%Q |};
  datetime_now_utc :=
    {| year := 2023; month := 4; day := 9; hour := 7; minute := 30; second := 5 |}
|}.

Definition demo_state (user : patience) : shared_state patience := {|
  sampling_steps := 0; job_count := 0; job_no := 0; job := "";
  skipped := false; interrupted := false; host := user
|}.

Definition demo_world (user : patience) : World tensor patience nat := {|
  state := demo_state user; model_calls := []; pipeline_calls := [];
  sampler_calls := []; io_log := []; dirs_made := []; videos := [];
  gallery_updates := []
|}.

Definition demo_request : Request tensor nat := {|
  batch_size := 4; sampler_name := "DPM++ 2M"; steps := 2; n_iter := 1;
  cfg_scale := 7%Q; prompt := "a castle"; negative_prompt := "blurry";
  init_latent := [3%Q]; image_conditioning := [0%Q];
  p_sd_model := demo_model "eps"; sample := HostSample;
  control_net_input_image := None; init_images := [];
  color_corrections := None; outpath_samples := "outputs/img2img"
|}.

(** A frame of the clip with its transformed image, and stores holding it. *)
Definition demo_frame : VideoVeilImage := {|
  frame_array := bgr_array scene_a;
  frame_image := Image_fromarray (rgb_array scene_a);
  transformed_image := Some stylized;
  height := 1; width := 2
|}.

Definition demo_store (test : bool) : VideoVeilSourceVideo := {|
  frames := [demo_frame];
  use_images_directory := false;
  video_path := Some "/in/clip.mp4";
  directory_upload_path := None;
  test_run := test;
  test_run_frames_count := if test then Some 1 else None;
  output_video_path := None;
  video_width := 2; video_height := 1;
  output_path := None
|}.

Definition demo_locals : locals tensor nat := {|
  l_source_video := demo_store false; l_proc := None; l_cp := None
|}.

End Demo.

(* ===================================================================== *)
(** ** Notions used to state the theorems                                  *)
(* ===================================================================== *)

Section Notions.

Context {T : Type} `{TensorOps T} {host_state correction : Type}.
Variable env : Env T host_state correction.

(** A computation whose outcome (value or exception) does not depend on
    the world it starts in. *)
Definition state_blind {A} (m : @M T host_state correction A) : Prop :=
  forall w1 w2, fst (m w1) = fst (m w2).

(** The world after iterations [k+1 .. k+n] of the inversion loop, in the
    specification's terms: one recorded model call and one stored preview
    per iteration. *)
Fixpoint world_after_steps (dnw : denoiser) (skip : nat)
    (p : Request T correction) (cond uncond : T) (g : Q) (sigmas : list T)
    (k n : nat) (w : World T host_state correction)
    : World T host_state correction :=
  match n with
  | O => w
  | S n' =>
      let x := spec_latent (shared_sd_model env) dnw skip p cond uncond g sigmas k in
      let x' := spec_latent (shared_sd_model env) dnw skip p cond uncond g sigmas (S k) in
      let w1 := log_model_call (spec_model_call dnw skip p cond uncond sigmas x (S k)) w in
      world_after_steps dnw skip p cond uncond g sigmas (S k) n'
        (set_state (store_latent env x' (state w1)) w1)
  end.

(** The local [original_file_name] of [create_mp4], as the code computes
    it: [os.path.basename] of the video path, or of the folder path with
    [.mp4] appended.  It is there when the selected path is. *)
Definition original_file_name (self : VideoVeilSourceVideo) : option string :=
  if use_images_directory self
  then (fun d => basename d +:+ ".mp4") <$> directory_upload_path self
  else basename <$> video_path self.

(** The specification's [<directory name>]: the last component of the
    directory's path.  A separator typed after that component ends the
    path, it is not part of the name. *)
Fixpoint strip_trailing_slashes (path : string) : string :=
  match path with
  | EmptyString => EmptyString
  | String c rest =>
      match strip_trailing_slashes rest with
      | EmptyString => if Ascii.eqb c slash then EmptyString else String c EmptyString
      | kept => String c kept
      end
  end.

Definition spec_directory_name (path : string) : string :=
  basename (strip_trailing_slashes path).

(** The "original source name" of the specification's assembly contract:
    the file name of a video source, [<directory name>.mp4] for a
    directory source. *)
Definition spec_original_name (self : VideoVeilSourceVideo) : option string :=
  if use_images_directory self
  then (fun d => spec_directory_name d +:+ ".mp4") <$> directory_upload_path self
  else basename <$> video_path self.

(** The frame rate of the contract, and the file name built from a name. *)

Definition spec_frame_rate (self : VideoVeilSourceVideo) : Q :=
  if use_images_directory self then 30%Q
  else match video_path self with
       | Some f => cap_fps (VideoCapture env f)
       | None => 30%Q
       end.

Definition spec_file_name (seed : Z) (name : string) : string :=
  strftime (datetime_now_utc env) +:+ "-" +:+ str_int seed +:+ "-" +:+ name.

(** A request with other prompts and another CFG scale. *)
Definition with_prompting (pos neg : string) (scale : Q)
    (cp : Request T correction) : Request T correction :=
  {| batch_size := batch_size cp; sampler_name := sampler_name cp;
     steps := steps cp; n_iter := n_iter cp;
     cfg_scale := scale; prompt := pos; negative_prompt := neg;
     init_latent := init_latent cp;
     image_conditioning := image_conditioning cp; p_sd_model := p_sd_model cp;
     sample := sample cp; control_net_input_image := control_net_input_image cp;
     init_images := init_images cp; color_corrections := color_corrections cp;
     outpath_samples := outpath_samples cp |}.

(** A computation that submits nothing to the host pipeline. *)
Definition pipeline_silent {A} (m : @M T host_state correction A) : Prop :=
  forall w, pipeline_calls (snd (m w)) = pipeline_calls w.

(** From index [a] on, no frame has a transformed image. *)
Definition untransformed_from (a : nat) (fs : list VideoVeilImage) : Prop :=
  forall j f, (a <= j)%nat -> fs !! j = Some f -> transformed_image f = None.

(** A computation that submits to the host pipeline only requests that
    satisfy [P]. *)
Definition submits_only (P : Request T correction -> Prop) {A}
    (m : @M T host_state correction A) : Prop :=
  forall w, Forall P (pipeline_calls w) -> Forall P (pipeline_calls (snd (m w))).

(** How many more frames a loader may take: all that are available, or
    what the test-run cap leaves. *)
Definition spec_frame_budget (cap : option Z) (loaded available : nat) : nat :=
  match cap with
  | None => available
  | Some k => Nat.min (Z.to_nat (k - Z.of_nat loaded)) available
  end.

End Notions.

(* ===================================================================== *)
(** ** The callbacks of [Script.ui] and [Script.after_component]           *)
(* ===================================================================== *)

Section Callbacks.

Context {T : Type} {host_state correction : Type}.
Variable env : Env T host_state correction.

Notation "x <- m ;; k" := (bind m (fun x => k))
  (at level 100, m at next level, right associativity).

(** The values of the four [gr.update(value=...)] that [video_src_change]
    returns: the img2img image, its width and height sliders, and the
    source-info line. *)
Record source_update : Type := {
  img2img_component_value : option Image;
  img2img_w_slider_value : Z;
  img2img_h_slider_value : Z;
  video_source_info_value : string
}.

(** [video_path is None or directory_upload_path is None or directory_upload_path == ""] *)
Definition nothing_selected (video_path directory_upload_path : option string) : bool :=
  match video_path, directory_upload_path with
  | None, _ => true
  | Some _, None => true
  | Some _, Some d => String.eqb d ""
  end.

Definition video_src_change (use_directory_for_video : bool)
    (video_path directory_upload_path : option string)
    : @M T host_state correction source_update :=
  temp_video <- VideoVeilSourceVideo_init env use_directory_for_video video_path
                  directory_upload_path true 1 false ;;
  if (0 <? length (frames temp_video))%nat then
    first_frame <- lift (index (frames temp_video) 0) ;;
    ret {| img2img_component_value := Some (frame_image first_frame);
           img2img_w_slider_value := Z.of_nat (width first_frame);
           img2img_h_slider_value := Z.of_nat (height first_frame);
           video_source_info_value :=
             "<div style='color: #333'>Video Frames found: "
             +:+ str_int (Z.of_nat (width first_frame)) +:+ "x"
             +:+ str_int (Z.of_nat (height first_frame)) +:+ "px</div>" |}
  else
    let error_message :=
      if nothing_selected video_path directory_upload_path then ""
      else "Invalid source, unable to parse video frames from input." in
    ret {| img2img_component_value := None;
           img2img_w_slider_value := 512;
           img2img_h_slider_value := 512;
           video_source_info_value :=
             "<div style='color: red'>" +:+ error_message +:+ "</div>" |}.

(** [change_upload_type_click]: the visibility of the video-uploader row and
    of the directory row. *)
Definition change_upload_type_click (use_directory_for_video : bool) : bool * bool :=
  (negb use_directory_for_video, use_directory_for_video).

(** [test_run_click]: the visibility of the test-run parameters row. *)
Definition test_run_click (is_test_run : bool) : bool := is_test_run.

Definition title : string := "Video-Veil".

Definition show (is_img2img : bool) : bool := is_img2img.

End Callbacks.

Arguments source_update : clear implicits.

Section Components.

(** A gradio component, of which the script reads [elem_id] only. *)
Variable component : Type.
Variable elem_id : component -> option string.

(** The attributes [Script.__init__] creates. *)
Record Script : Type := {
  script_source_video : option VideoVeilSourceVideo;
  img2img_component : component;
  img2img_gallery : component;
  img2img_w_slider : component;
  img2img_h_slider : component
}.

(** [component.elem_id == name] *)
Definition has_elem_id (c : component) (name : string) : bool :=
  match elem_id c with
  | Some s => String.eqb s name
  | None => false
  end.

(** [after_component]: the script after the call, and the value returned. *)
Definition after_component (self : Script) (c : component)
    : Script * option component :=
  if has_elem_id c "img2img_image" then
    ({| script_source_video := script_source_video self;
        img2img_component := c;
        img2img_gallery := img2img_gallery self;
        img2img_w_slider := img2img_w_slider self;
        img2img_h_slider := img2img_h_slider self |}, Some c)
  else if has_elem_id c "img2img_gallery" then
    ({| script_source_video := script_source_video self;
        img2img_component := img2img_component self;
        img2img_gallery := c;
        img2img_w_slider := img2img_w_slider self;
        img2img_h_slider := img2img_h_slider self |}, Some c)
  else if has_elem_id c "img2img_width" then
    ({| script_source_video := script_source_video self;
        img2img_component := img2img_component self;
        img2img_gallery := img2img_gallery self;
        img2img_w_slider := c;
        img2img_h_slider := img2img_h_slider self |}, Some c)
  else if has_elem_id c "img2img_height" then
    ({| script_source_video := script_source_video self;
        img2img_component := img2img_component self;
        img2img_gallery := img2img_gallery self;
        img2img_w_slider := img2img_w_slider self;
        img2img_h_slider := c |}, Some c)
  else (self, None).

(** The host calls [after_component] once for every component it builds. *)
Definition after_components (self : Script) (cs : list component) : Script :=
  fold_left (fun s c => fst (after_component s c)) cs self.

(** The component a slot ends up with: the last one in [cs] that carries
    the slot's [elem_id], or the one it had. *)
Definition last_with_id (name : string) (initial : component)
    (cs : list component) : component :=
  fold_left (fun found c => if has_elem_id c name then c else found) cs initial.

End Components.

(* ===================================================================== *)
(** ** Further notions used to state the theorems                          *)
(* ===================================================================== *)

Section MoreNotions.

Context {T : Type} `{TensorOps T} {host_state correction : Type}.
Variable env : Env T host_state correction.

(** Two worlds that differ at most in the record of file-system
    operations, which has only grown. *)
Definition same_but_io (w w' : World T host_state correction) : Prop :=
  state w' = state w /\ model_calls w' = model_calls w
  /\ pipeline_calls w' = pipeline_calls w /\ sampler_calls w' = sampler_calls w
  /\ dirs_made w' = dirs_made w /\ videos w' = videos w
  /\ gallery_updates w' = gallery_updates w
  /\ exists events, io_log w' = io_log w ++ events.

(** A computation that only reads the file system. *)
Definition io_only {A} (m : @M T host_state correction A) : Prop :=
  forall w, same_but_io w (snd (m w)).

(** A host that processes every request it is given while no interrupt is
    pending: [process_images] returns a result whose first image is there,
    and neither it nor [p.close] raises the interrupt flag. *)
Definition cooperative_host : Prop :=
  (forall cp s, interrupted s = false ->
     exists pr img rest s',
       process_images env cp s = (Ok pr, s')
       /\ images pr = Some img :: rest /\ interrupted s' = false)
  /\ (forall cp s, interrupted s = false -> interrupted (p_close env cp s) = false).

(** [f'] is [f] with, at most, another transformed image. *)
Definition same_frame_data (f f' : VideoVeilImage) : Prop :=
  frame_array f' = frame_array f /\ frame_image f' = frame_image f
  /\ height f' = height f /\ width f' = width f.

(** The request the loop body builds for a frame, up to colour correction. *)
Definition request_for_frame (f : VideoVeilImage) (cp : Request T correction) : Prop :=
  sample cp = SampleExtra f prompt_placeholder neg_prompt_placeholder
  /\ batch_size cp = 1 /\ sampler_name cp = "Euler"
  /\ control_net_input_image cp = Some [frame_array f]
  /\ init_images cp = [frame_image f].

(** The dimensions [VideoVeilImage.__init__] reads off the pixel buffer. *)
Definition dimensions_of_array (f : VideoVeilImage) : Prop :=
  height f = length (frame_array f)
  /\ width f = match frame_array f with row :: _ => length row | [] => 0%nat end.

(** A frame of a folder source, built from the image file [name] in [d]. *)
Definition frame_of_file (d : string) (name : string) (f : VideoVeilImage) : Prop :=
  exists img,
    Image_open env (join d name) = Ok img
    /\ frame_array f = pixels img
    /\ mode (frame_image f) = "RGB" /\ pixels (frame_image f) = pixels img
    /\ transformed_image f = None.

(** Two worlds that differ at most in the shared state and in the record
    of pipeline calls. *)
Definition same_but_pipeline (w w' : World T host_state correction) : Prop :=
  model_calls w' = model_calls w /\ sampler_calls w' = sampler_calls w
  /\ io_log w' = io_log w /\ dirs_made w' = dirs_made w
  /\ videos w' = videos w /\ gallery_updates w' = gallery_updates w.

(** [f'] is [f] after the loop body attached a transformed image. *)
Definition transformed_from (f f' : VideoVeilImage) : Prop :=
  exists img, f' = set_transformed_image f (Some img).

(** The shared state in which the loop body submits its request, from the
    state [s] its iteration starts in: a pending skip is cleared and the
    job label is set. *)
Definition state_at_submission (s : shared_state host_state)
    : shared_state host_state :=
  let s := if skipped s then set_skipped false s else s in
  set_job (str_int (job_no s + 1) +:+ " out of " +:+ str_int (job_count s)) s.

(** What the host returns for the requests [cps] when the loop submits
    them one after another from state [s], closing each before the next:
    the results in order, up to the first request that raises. *)
Fixpoint host_pass (cps : list (Request T correction))
    (s : shared_state host_state) : list Processed :=
  match cps with
  | [] => []
  | cp :: rest =>
      match process_images env cp (state_at_submission s) with
      | (Ok pr, s') => pr :: host_pass rest (p_close env cp s')
      | (Raise _, _) => []
      end
  end.

(** A computation that, of everything outside the shared state, touches
    the record of model calls only, and adds at most [n] calls to it. *)
Definition calls_model_at_most (n : nat) {A} (m : @M T host_state correction A)
    : Prop :=
  forall w,
    pipeline_calls (snd (m w)) = pipeline_calls w
    /\ sampler_calls (snd (m w)) = sampler_calls w
    /\ io_log (snd (m w)) = io_log w
    /\ dirs_made (snd (m w)) = dirs_made w
    /\ videos (snd (m w)) = videos w
    /\ gallery_updates (snd (m w)) = gallery_updates w
    /\ exists more, model_calls (snd (m w)) = model_calls w ++ more
                    /\ (length more <= n)%nat.

End MoreNotions.

(* ===================================================================== *)
(** ** Further concrete hosts                                              *)
(* ===================================================================== *)

Module DemoHosts.

Import Demo.

(** The concrete host with other library entry points; everything not
    named is as in [demo_env]. *)
Definition variant_env (kind : string)
    (eps_denoiser : @denoiser tensor)
    (close : Request tensor nat -> shared_state patience -> shared_state patience)
    (open_image : string -> result Image) : Env tensor patience nat := {|
  shared_sd_model := shared_sd_model (demo_env kind);
  CompVisDenoiser := fun _ => eps_denoiser;
  CompVisVDenoiser := CompVisVDenoiser (demo_env kind);
  store_latent := store_latent (demo_env kind);
  nextjob := nextjob (demo_env kind);
  create_sampler := create_sampler (demo_env kind);
  process_images := process_images (demo_env kind);
  p_close := close;
  host_sample := host_sample (demo_env kind);
  setup_color_correction := setup_color_correction (demo_env kind);
  os_path_exists := os_path_exists (demo_env kind);
  os_listdir := os_listdir (demo_env kind);
  Image_open := open_image;
  VideoCapture := VideoCapture (demo_env kind);
  datetime_now_utc := datetime_now_utc (demo_env kind)
|}.

(** A host whose user never interrupts: [p.close] leaves the state alone. *)
Definition steady_env (kind : string) : Env tensor patience nat :=
  variant_env kind eps_wrapper (fun _ s => s) (Image_open (demo_env kind)).

(** A host whose plain wrapper returns three scalings, as only the
    v-wrapper should. *)
Definition miswired_env : Env tensor patience nat :=
  variant_env "eps" v_wrapper (p_close (demo_env "eps")) (Image_open (demo_env "eps")).

(** A host in which the second image of the folder cannot be opened. *)
Definition damaged_env : Env tensor patience nat :=
  variant_env "eps" eps_wrapper (p_close (demo_env "eps"))
    (fun f => if String.eqb f "/in/frames/a.png"
              then Ok {| mode := "RGB"; pixels := rgb_array scene_a |}
              else Raise (HostError 2)).

(** The store the folder of the concrete host gives, before any frame is
    transformed, with the folder path typed with a trailing slash. *)
Definition demo_folder_store : VideoVeilSourceVideo := {|
  frames := [demo_frame];
  use_images_directory := true;
  video_path := None;
  directory_upload_path := Some "/in/frames/";
  test_run := false;
  test_run_frames_count := None;
  output_video_path := None;
  video_width := 2; video_height := 1;
  output_path := None
|}.

(** A host in which the user typed the folder with a separator at its end,
    [/in/frames/]; the operating system takes that path for the same
    folder.  Its user never interrupts. *)
Definition slash_env : Env tensor patience nat := {|
  shared_sd_model := shared_sd_model (steady_env "eps");
  CompVisDenoiser := CompVisDenoiser (steady_env "eps");
  CompVisVDenoiser := CompVisVDenoiser (steady_env "eps");
  store_latent := store_latent (steady_env "eps");
  nextjob := nextjob (steady_env "eps");
  create_sampler := create_sampler (steady_env "eps");
  process_images := process_images (steady_env "eps");
  p_close := p_close (steady_env "eps");
  host_sample := host_sample (steady_env "eps");
  setup_color_correction := setup_color_correction (steady_env "eps");
  os_path_exists := fun f =>
    String.eqb f "/in/frames/" || os_path_exists (steady_env "eps") f;
  os_listdir := fun d =>
    if String.eqb d "/in/frames/" then Ok ["a.png"; "notes.txt"; "b.jpg"]
    else os_listdir (steady_env "eps") d;
  Image_open := Image_open (steady_env "eps");
  VideoCapture := VideoCapture (steady_env "eps");
  datetime_now_utc := datetime_now_utc (steady_env "eps")
|}.

End DemoHosts.

(* ===================================================================== *)
(** ** Theorems: the monad and the Python helpers                          *)
(* ===================================================================== *)

Section MonadFacts.

Context {T : Type} `{TensorOps T} {host_state correction : Type}.
Abbreviation W := (World T host_state correction).
Abbreviation Mw := (@M T host_state correction).

Lemma bind_ok {A B} (m : Mw A) (k : A -> Mw B) (w w' : W) (a : A) :
  m w = (Ok a, w') -> bind m k w = k a w'.
Proof. intros E. unfold bind. now rewrite E. Qed.

Lemma bind_raise {A B} (m : Mw A) (k : A -> Mw B) (w w' : W) (e : exn) :
  m w = (Raise e, w') -> bind m k w = (Raise e, w').
Proof. intros E. unfold bind. now rewrite E. Qed.

Lemma index_nth {A} (l : list A) (i : nat) (d : A) :
  (i < length l)%nat -> index l i = Ok (nth i l d).
Proof.
  intros Hi. unfold index.
  destruct (lookup_lt_is_Some_2 l i Hi) as [a Ha].
  rewrite Ha. f_equal. symmetry. now apply nth_lookup_Some.
Qed.

Lemma index_last_nth {A} (l : list A) (d : A) :
  (0 < length l)%nat -> index_last l = Ok (nth (length l - 1) l d).
Proof.
  intros Hl. unfold index_last. rewrite last_lookup.
  replace (Nat.pred (length l)) with (length l - 1)%nat by lia.
  destruct (lookup_lt_is_Some_2 l (length l - 1)) as [a Ha]; [lia|].
  rewrite Ha. f_equal. symmetry. now apply nth_lookup_Some.
Qed.

Lemma drop_two {A} (l : list A) (n : nat) (d : A) :
  length l = (n + 2)%nat -> drop n l = [nth n l d; nth (S n) l d].
Proof.
  revert l. induction n as [|n IH]; intros l Hl.
  - destruct l as [|a [|b [|c l]]]; simpl in Hl; try lia. reflexivity.
  - destruct l as [|a l]; simpl in Hl; [lia|]. simpl. apply IH. lia.
Qed.

(** *** State-blind computations compose *)

Lemma blind_ret {A} (a : A) : state_blind (ret a : Mw A).
Proof. intros w1 w2. reflexivity. Qed.

Lemma blind_raise {A} (e : exn) : state_blind (raise e : Mw A).
Proof. intros w1 w2. reflexivity. Qed.

Lemma blind_lift {A} (r : result A) : state_blind (lift r : Mw A).
Proof. intros w1 w2. reflexivity. Qed.

Lemma blind_modify_state (f : shared_state host_state -> shared_state host_state) :
  state_blind (modify_state f : Mw unit).
Proof. intros w1 w2. reflexivity. Qed.

Lemma blind_call_apply_model (m : sd_model) (x t : T) (c : cond_dict) :
  state_blind (call_apply_model m x t c : Mw T).
Proof. intros w1 w2. reflexivity. Qed.

Lemma blind_unpack2 {A} (l : list A) : state_blind (unpack2 l : Mw (A * A)).
Proof. intros w1 w2. unfold unpack2. destruct l as [|a [|b [|c l]]]; reflexivity. Qed.

Lemma blind_bind {A B} (m : Mw A) (k : A -> Mw B) :
  state_blind m -> (forall a, state_blind (k a)) -> state_blind (bind m k).
Proof.
  intros Hm Hk w1 w2. unfold bind. specialize (Hm w1 w2).
  destruct (m w1) as [[a1|e1] w1'], (m w2) as [[a2|e2] w2']; simpl in Hm;
    try discriminate; inversion Hm; subst; [apply Hk | reflexivity].
Qed.

Lemma blind_for_each {A X} (body : A -> X -> Mw X) (l : list A) :
  (forall a x, state_blind (body a x)) -> forall x, state_blind (for_each body l x).
Proof.
  intros Hb. induction l as [|a l IH]; intros x; simpl.
  - apply blind_ret.
  - apply blind_bind; [apply Hb | exact IH].
Qed.

End MonadFacts.

(* ===================================================================== *)
(** ** Theorems: paths and file names                                      *)
(* ===================================================================== *)

Section PathFacts.

Lemma digit_not_slash (n : nat) : Ascii.eqb (digit n) slash = false.
Proof.
  unfold digit. pose proof (Nat.mod_upper_bound n 10 ltac:(lia)) as Hk.
  destruct (n mod 10)%nat as [|[|[|[|[|[|[|[|[|[|k]]]]]]]]]]; try reflexivity; lia.
Qed.

Lemma strftime_not_absolute (d : datetime) (rest : string) :
  isabs (strftime d +:+ rest) = false.
Proof. unfold strftime, pad4. cbn [append isabs]. apply digit_not_slash. Qed.

Lemma endswith_slash_cons (c : ascii) (s : string) :
  s <> "" -> endswith (String c s) "/" = endswith s "/".
Proof.
  intros Hs. destruct s as [|c' s']; [congruence|].
  unfold endswith. simpl String.length.
  replace (S (S (String.length s')) - 1)%nat with (S (String.length s')) by lia.
  replace (S (String.length s') - 1)%nat with (String.length s') by lia.
  reflexivity.
Qed.

Lemma app_nonempty (x y : string) : y <> "" -> x +:+ y <> "".
Proof. intros Hy. destruct x; simpl; [exact Hy | discriminate]. Qed.

Lemma endswith_slash_app (x y : string) :
  y <> "" -> endswith (x +:+ y) "/" = endswith y "/".
Proof.
  intros Hy. induction x as [|c x IH]; [reflexivity|].
  change (String c x +:+ y) with (String c (x +:+ y)).
  rewrite endswith_slash_cons; [exact IH | now apply app_nonempty].
Qed.

Lemma output_directory_shape (out : string) :
  exists x, join out "video-veil-output" = x +:+ "video-veil-output".
Proof.
  unfold join. simpl isabs.
  destruct (String.eqb out "" || endswith out "/").
  - now exists out.
  - exists (out +:+ "/"). clear. induction out as [|c out IH]; [reflexivity|].
    change (String c (out +:+ "/" +:+ "video-veil-output")
            = String c ((out +:+ "/") +:+ "video-veil-output")).
    now rewrite IH.
Qed.

(** A relative file name joined to the output directory lies directly
    inside it. *)
Lemma join_under_output_directory (out name : string) :
  isabs name = false ->
  join (join out "video-veil-output") name
  = join out "video-veil-output" +:+ "/" +:+ name.
Proof.
  intros Hn. destruct (output_directory_shape out) as [x ->].
  unfold join at 1. rewrite Hn.
  rewrite endswith_slash_app by discriminate.
  assert (Hne : String.eqb (x +:+ "video-veil-output") "" = false).
  { apply String.eqb_neq. now apply app_nonempty. }
  rewrite Hne. reflexivity.
Qed.

End PathFacts.

(* ===================================================================== *)
(** ** Theorems: noise inversion                                           *)
(* ===================================================================== *)

Section InversionFacts.

Context {T : Type} `{TensorOps T} {host_state correction : Type}.
Variable env : Env T host_state correction.
Abbreviation W := (World T host_state correction).
Abbreviation Mw := (@M T host_state correction).

Lemma blind_inversion_step dnw skip (p : Request T correction) cond uncond g
    sigmas s_in i x :
  state_blind (inversion_step env dnw skip p cond uncond g sigmas s_in i x).
Proof.
  unfold inversion_step.
  apply blind_bind; [apply blind_lift | intros sigma_prev].
  apply blind_bind; [apply blind_unpack2 | intros scalings].
  apply blind_bind.
  { destruct (Nat.eqb i 1); [|apply blind_ret].
    apply blind_bind; [apply blind_lift | intros; apply blind_ret]. }
  intros t.
  apply blind_bind; [apply blind_call_apply_model | intros eps].
  destruct (chunk2 _) as [du dc].
  apply blind_bind.
  { destruct (Nat.eqb i 1); [|apply blind_ret].
    apply blind_bind; [apply blind_lift | intros; apply blind_ret]. }
  intros d.
  apply blind_bind; [apply blind_lift | intros sigma_i].
  apply blind_bind; [apply blind_modify_state | intros; apply blind_ret].
Qed.

Lemma blind_find_noise (p : Request T correction) cond uncond g steps :
  state_blind (find_noise_for_image_sigma_adjustment env p cond uncond g steps).
Proof.
  unfold find_noise_for_image_sigma_adjustment.
  destruct (model_wrapper env) as [dnw skip].
  apply blind_bind; [apply blind_modify_state | intros _].
  apply blind_bind.
  { apply blind_for_each. intros i x. apply blind_inversion_step. }
  intros x.
  apply blind_bind; [apply blind_modify_state | intros _].
  apply blind_bind; [apply blind_lift | intros; apply blind_ret].
Qed.

(** C7: the noise-inversion routine is deterministic.  Its outcome -- the
    returned noise, or the exception it ends with -- is a function of the
    request (initial latent and image conditioning), the two conditionings,
    the guidance scale, the step count and the model with its schedule: two
    invocations with these fixed give the same outcome whatever the shared
    state (job counters, flags, previews, earlier calls) each starts from. *)
Theorem noise_inversion_deterministic (p : Request T correction)
    (cond uncond : T) (cfg_scale : Q) (steps : Z) (w1 w2 : W) :
  fst (find_noise_for_image_sigma_adjustment env p cond uncond cfg_scale steps w1)
  = fst (find_noise_for_image_sigma_adjustment env p cond uncond cfg_scale steps w2).
Proof. apply blind_find_noise. Qed.

(** One iteration, when the schedule has an entry [i] and the wrapper
    returns [skip + 2] scalings, is the specification's step. *)
Lemma inversion_step_spec dnw skip (p : Request T correction) cond uncond g
    sigmas i x (w : W) :
  (1 <= i < length sigmas)%nat ->
  (forall sg, length (get_scalings dnw sg) = (skip + 2)%nat) ->
  inversion_step env dnw skip p cond uncond g sigmas
    (new_ones_batch (init_latent p)) i x w
  = let x' := spec_advance (shared_sd_model env) dnw skip p cond uncond g sigmas x i in
    let w1 := log_model_call (spec_model_call dnw skip p cond uncond sigmas x i) w in
    (Ok x', set_state (store_latent env x' (state w1)) w1).
Proof.
  intros Hi Hsc. unfold inversion_step.
  assert (Hprev : index sigmas (i - 1) = Ok (spec_sigma sigmas (i - 1))).
  { apply index_nth. lia. }
  assert (Hcur : index sigmas i = Ok (spec_sigma sigmas i)).
  { apply index_nth. lia. }
  unfold bind at 1, lift at 1. rewrite Hprev.
  rewrite (drop_two _ skip (of_number 0) (Hsc _)). simpl map. unfold unpack2.
  unfold bind at 1, ret at 1. simpl fst. simpl snd.
  unfold spec_advance, spec_direction, spec_denoised, spec_model_call,
    spec_timestep, spec_c_in, spec_c_out, spec_cond_in, spec_sigma_in,
    spec_duplicate, spec_s_in.
  simpl replicate.
  destruct (Nat.eqb i 1) eqn:Ei.
  - apply Nat.eqb_eq in Ei. subst i.
    unfold bind, lift, ret, call_apply_model, modify_state. rewrite Hcur.
    simpl. destruct (chunk2 _) as [du dc]. reflexivity.
  - unfold bind, lift, ret, call_apply_model, modify_state.
    simpl. destruct (chunk2 _) as [du dc]. simpl. rewrite Hcur. reflexivity.
Qed.

Lemma inversion_loop_spec dnw skip (p : Request T correction) cond uncond g
    sigmas :
  (forall sg, length (get_scalings dnw sg) = (skip + 2)%nat) ->
  forall n k (w : W),
  (k + n < length sigmas)%nat ->
  for_each (inversion_step env dnw skip p cond uncond g sigmas
              (new_ones_batch (init_latent p)))
    (seq (S k) n)
    (spec_latent (shared_sd_model env) dnw skip p cond uncond g sigmas k) w
  = (Ok (spec_latent (shared_sd_model env) dnw skip p cond uncond g sigmas (k + n)),
     world_after_steps env dnw skip p cond uncond g sigmas k n w).
Proof.
  intros Hsc. induction n as [|n IH]; intros k w Hk.
  - simpl. rewrite Nat.add_0_r. reflexivity.
  - simpl seq. simpl for_each.
    erewrite bind_ok; [| apply inversion_step_spec; [lia | exact Hsc]].
    cbv zeta. change (spec_advance _ _ _ _ _ _ _ _ _ (S k))
      with (spec_latent (shared_sd_model env) dnw skip p cond uncond g sigmas (S k)).
    rewrite IH by lia. simpl world_after_steps.
    replace (S k + n)%nat with (k + S n)%nat by lia. reflexivity.
Qed.

Lemma model_calls_after_steps dnw skip (p : Request T correction) cond uncond g
    sigmas n : forall k (w : W),
  model_calls (world_after_steps env dnw skip p cond uncond g sigmas k n w)
  = model_calls w ++
    map (fun i => spec_model_call dnw skip p cond uncond sigmas
                    (spec_latent (shared_sd_model env) dnw skip p cond uncond g
                       sigmas (i - 1)) i)
        (seq (S k) n).
Proof.
  induction n as [|n IH]; intros k w; simpl.
  - now rewrite app_nil_r.
  - rewrite IH. simpl. rewrite <- app_assoc. simpl.
    now rewrite Nat.sub_0_r.
Qed.


(** The whole routine under the two interface assumptions: the value it
    returns and the world it leaves. *)
Lemma find_noise_spec (p : Request T correction) cond uncond g steps (s : nat)
    (w : W) :
  let dnw := fst (model_wrapper env) in
  let skip := snd (model_wrapper env) in
  let sigmas := reverse (get_sigmas dnw steps) in
  length (get_sigmas dnw steps) = S s ->
  (forall sg, length (get_scalings dnw sg) = (skip + 2)%nat) ->
  find_noise_for_image_sigma_adjustment env p cond uncond g steps w
  = (Ok (spec_invert (shared_sd_model env) dnw skip p cond uncond g sigmas s),
     let w1 := set_state (set_sampling_steps steps (state w)) w in
     let w2 := world_after_steps env dnw skip p cond uncond g sigmas 0 s w1 in
     set_state (nextjob env (state w2)) w2).
Proof.
  unfold find_noise_for_image_sigma_adjustment.
  destruct (model_wrapper env) as [dnw skip]. simpl fst. simpl snd.
  intros Hlen Hsc. cbv zeta.
  assert (Hrev : length (reverse (get_sigmas dnw steps)) = S s)
    by now rewrite length_reverse.
  unfold bind at 1, modify_state at 1.
  unfold range. rewrite Hrev. replace (S s - 1)%nat with s by lia.
  erewrite bind_ok.
  2:{ apply (inversion_loop_spec dnw skip p cond uncond g _ Hsc s 0). lia. }
  unfold bind at 1, modify_state at 1.
  rewrite (index_last_nth _ (of_number 0)) by lia.
  unfold bind, lift, ret, spec_invert, spec_sigma. simpl.
  rewrite Hrev. reflexivity.
Qed.

(** C1: with a schedule of [s + 1] entries the routine computes what the
    specification describes: for [i = 1 .. s] the update
    [x := x + d * (sigmas[i] - sigmas[i-1])] with the direction [d] of step
    2h, one model call per iteration whose time step is taken from
    [sigmas[1]] when [i = 1] and from [sigmas[i-1]] otherwise, and finally
    [x / sigmas[last]]. *)
Theorem noise_inversion_refines_spec (p : Request T correction)
    (cond uncond : T) (cfg_scale : Q) (s : nat) (w : W) :
  let dnw := fst (model_wrapper env) in
  let skip := snd (model_wrapper env) in
  let sigmas := reverse (get_sigmas dnw (Z.of_nat s)) in
  let latent :=
    spec_latent (shared_sd_model env) dnw skip p cond uncond cfg_scale sigmas in
  length (get_sigmas dnw (Z.of_nat s)) = S s ->
  (forall sg, length (get_scalings dnw sg) = (skip + 2)%nat) ->
  exists w',
    find_noise_for_image_sigma_adjustment env p cond uncond cfg_scale (Z.of_nat s) w
    = (Ok (spec_invert (shared_sd_model env) dnw skip p cond uncond cfg_scale sigmas s),
       w')
    /\ model_calls w'
       = model_calls w ++
         map (fun i => spec_model_call dnw skip p cond uncond sigmas (latent (i - 1)%nat) i)
             (seq 1 s).
Proof.
  intros dnw skip sigmas latent Hlen Hsc.
  eexists. split.
  - apply (find_noise_spec p cond uncond cfg_scale (Z.of_nat s) s w Hlen Hsc).
  - cbv zeta. simpl model_calls. rewrite model_calls_after_steps. reflexivity.
Qed.

(** C2: if the schedule provider returns [s + 1] sigmas (and the two
    k-diffusion wrappers return their two, respectively three, scalings),
    the routine ends normally after exactly [s] calls of [apply_model],
    whatever the parameterization of the model. *)
Theorem model_called_once_per_step (p : Request T correction)
    (cond uncond : T) (cfg_scale : Q) (s : nat) (w : W) :
  (forall m, length (get_sigmas (CompVisDenoiser env m) (Z.of_nat s)) = S s) ->
  (forall m, length (get_sigmas (CompVisVDenoiser env m) (Z.of_nat s)) = S s) ->
  (forall m sg, length (get_scalings (CompVisDenoiser env m) sg) = 2%nat) ->
  (forall m sg, length (get_scalings (CompVisVDenoiser env m) sg) = 3%nat) ->
  exists noise w',
    find_noise_for_image_sigma_adjustment env p cond uncond cfg_scale (Z.of_nat s) w
    = (Ok noise, w')
    /\ length (model_calls w') = (length (model_calls w) + s)%nat.
Proof.
  intros He Hv Hse Hsv.
  assert (Hlen : length (get_sigmas (fst (model_wrapper env)) (Z.of_nat s)) = S s).
  { unfold model_wrapper. destruct (String.eqb _ _); simpl; [apply Hv | apply He]. }
  assert (Hsc : forall sg, length (get_scalings (fst (model_wrapper env)) sg)
                           = (snd (model_wrapper env) + 2)%nat).
  { unfold model_wrapper. destruct (String.eqb _ _); simpl; intros sg;
      [apply Hsv | apply Hse]. }
  eexists. eexists. split.
  - apply (find_noise_spec p cond uncond cfg_scale (Z.of_nat s) s w Hlen Hsc).
  - cbv zeta. simpl model_calls. rewrite model_calls_after_steps.
    rewrite length_app, length_map, length_seq. reflexivity.
Qed.

End InversionFacts.

(* ===================================================================== *)
(** ** Theorems: loading the source                                        *)
(* ===================================================================== *)

Section SourceFacts.

Context {T : Type} {host_state correction : Type}.
Variable env : Env T host_state correction.
Abbreviation W := (World T host_state correction).

Lemma no_image_names (listing : list string) :
  Forall (fun n => has_image_extension n = false) listing ->
  filter (fun n => has_image_extension n = true) listing = [].
Proof.
  induction 1 as [|n l Hn _ IH]; [reflexivity|].
  rewrite filter_cons. destruct (decide _) as [E|_]; [congruence | exact IH].
Qed.

Lemma read_nothing (path : string) (cap : option Z) (w : W) :
  exists w', read_frames path cap [] [] w = (Ok [], w').
Proof.
  unfold read_frames. destruct (frame_cap_reached cap []); eexists; reflexivity.
Qed.

Lemma load_folder_without_images (self : VideoVeilSourceVideo) (d : string)
    (listing : list string) (w : W) :
  directory_upload_path self = Some d ->
  os_listdir env d = Ok listing ->
  Forall (fun n => has_image_extension n = false) listing ->
  _load_frames_from_folder env self w
  = (Raise (Exception ("No images (*.png, *.jpg, *.jpeg) found in '" +:+ d +:+ "'.")),
     log_io (IoListdir d) w).
Proof.
  intros Hd Hls Hnone. unfold _load_frames_from_folder. rewrite Hd. simpl default.
  unfold bind, call_listdir. rewrite Hls, (no_image_names _ Hnone). reflexivity.
Qed.

Lemma load_video_without_frames (self : VideoVeilSourceVideo) (f : string) (w : W) :
  video_path self = Some f ->
  isOpened (VideoCapture env f) = false \/ stream (VideoCapture env f) = [] ->
  exists w', _load_frames_from_video env self w = (Ok (set_frames [] self), w').
Proof.
  intros Hf Hempty. unfold _load_frames_from_video. rewrite Hf.
  unfold bind at 1, call_VideoCapture.
  destruct (isOpened (VideoCapture env f)) eqn:Hop; cbn [negb].
  - destruct Hempty as [Hc | Hs]; [discriminate|]. rewrite Hs.
    destruct (read_nothing (default "" (video_path (set_frames [] self)))
                (test_run_frames_count (set_frames [] self))
                (log_io (IoVideoCapture f) w)) as [w' Hr].
    exists w'. erewrite bind_ok by exact Hr. reflexivity.
  - eexists. reflexivity.
Qed.

(** C6: with [throw_errors_when_invalid] set, a source path that is [None]
    or does not exist makes the constructor raise "... not found" at once:
    the world is left as it was, so no listing, no decoding and no model
    call has happened and no store exists; a run on such a source ends with
    that exception before the pipeline is called. *)
Theorem missing_source_raises (use_dir : bool) (video dir : option string)
    (test : bool) (count : Z) (w : W) :
  path_missing env (if use_dir then dir else video) = true ->
  let not_found :=
    Exception ((if use_dir then "Directory not found: '" else "Video not found: '")
               +:+ str_opt (if use_dir then dir else video) +:+ "'.") in
  VideoVeilSourceVideo_init env use_dir video dir test count true w
  = (Raise not_found, w)
  /\ forall (p : Request T correction) (color_correction : string),
       negb (is_blank video) || negb (is_blank dir) = true ->
       run env p use_dir video dir color_correction test count w
       = (Raise not_found, w).
Proof.
  intros Hmiss not_found.
  assert (E : VideoVeilSourceVideo_init env use_dir video dir test count true w
              = (Raise not_found, w)).
  { unfold VideoVeilSourceVideo_init, not_found.
    destruct use_dir; rewrite Hmiss; reflexivity. }
  split; [exact E|].
  intros p cc Hen. unfold run. rewrite Hen.
  now rewrite (bind_raise _ _ _ _ _ E).
Qed.

(** C5 as the code has it: an existing folder without any [.jpg], [.jpeg]
    or [.png] name makes the constructor raise "No images ... found" (also
    when [throw_errors_when_invalid] is off); an existing video that does
    not open, or opens and decodes nothing, raises nothing: the constructor
    returns a store with no frames and zero width and height. *)
Theorem empty_source_outcomes (video dir : option string) (test : bool)
    (count : Z) (throw : bool) (w : W) :
  (forall (d : string) (listing : list string),
      dir = Some d ->
      os_path_exists env d = true ->
      os_listdir env d = Ok listing ->
      Forall (fun n => has_image_extension n = false) listing ->
      VideoVeilSourceVideo_init env true video dir test count throw w
      = (Raise (Exception ("No images (*.png, *.jpg, *.jpeg) found in '" +:+ d +:+ "'.")),
         log_io (IoListdir d) w))
  /\ (forall (f : string),
      video = Some f ->
      os_path_exists env f = true ->
      isOpened (VideoCapture env f) = false \/ stream (VideoCapture env f) = [] ->
      exists sv w',
        VideoVeilSourceVideo_init env false video dir test count throw w = (Ok sv, w')
        /\ frames sv = [] /\ video_width sv = 0%nat /\ video_height sv = 0%nat).
Proof.
  split.
  - intros d listing -> Hex Hls Hnone.
    assert (Hpm : path_missing env (Some d) = false) by (simpl; now rewrite Hex).
    unfold VideoVeilSourceVideo_init. rewrite Hpm.
    apply bind_raise. now apply load_folder_without_images with (listing := listing).
  - intros f -> Hex Hempty.
    assert (Hpm : path_missing env (Some f) = false) by (simpl; now rewrite Hex).
    unfold VideoVeilSourceVideo_init. rewrite Hpm.
    match goal with |- context [_load_frames_from_video env ?s] =>
      destruct (load_video_without_frames s f w eq_refl Hempty) as (w' & Hl)
    end.
    eexists. eexists. split.
    + erewrite bind_ok by exact Hl. reflexivity.
    + repeat split.
Qed.


(** The frames of a video keep the arrays the decoder returned, in order;
    their images are the RGB conversions. *)
Lemma read_frames_keep_arrays (path : string) (cap : option Z)
    (remaining : list ndarray) : forall (loaded : list VideoVeilImage) (w : W),
  exists new n w',
    read_frames path cap remaining loaded w = (Ok (loaded ++ new), w')
    /\ map frame_array new = take n remaining
    /\ Forall (fun fr => frame_image fr
                         = Image_fromarray (cvtColor_BGR2RGB (frame_array fr))) new.
Proof.
  induction remaining as [|a remaining IH]; intros loaded w; simpl.
  - exists [], 0%nat. rewrite app_nil_r.
    destruct (frame_cap_reached cap loaded); eexists; (split; [reflexivity|]);
      split; constructor.
  - destruct (frame_cap_reached cap loaded).
    + exists [], 0%nat. rewrite app_nil_r. eexists. split; [reflexivity|].
      split; constructor.
    + unfold bind at 1, lift at 1. cbn [VideoVeilImage_init].
      match goal with |- context [read_frames _ _ _ (loaded ++ [?fr]) ?w0] =>
        destruct (IH (loaded ++ [fr]) w0) as (new & n & w' & E & Harr & Himg);
        exists (fr :: new), (S n), w'
      end.
      rewrite <- app_assoc in E. split; [exact E|]. split.
      * simpl. now rewrite Harr.
      * constructor; [reflexivity | exact Himg].
Qed.

(** The frames of a folder are RGB images, and [frame_array] holds the
    pixels of that image. *)
Lemma load_images_keep_pixels (d : string) (cap : option Z) (names : list string) :
  forall (loaded : list VideoVeilImage) (w w' : W) (fs : list VideoVeilImage),
  load_images env (Some d) cap names loaded w = (Ok fs, w') ->
  exists new,
    fs = loaded ++ new
    /\ Forall (fun fr => mode (frame_image fr) = "RGB"
                         /\ frame_array fr = pixels (frame_image fr)) new.
Proof.
  induction names as [|n names IH]; intros loaded w w' fs E; simpl in E.
  - injection E as <- _. exists []. rewrite app_nil_r. split; constructor.
  - destruct (frame_cap_reached cap loaded).
    { injection E as <- _. exists []. rewrite app_nil_r. split; constructor. }
    unfold bind at 1, ret at 1 in E. unfold bind at 1 in E.
    destruct (call_Image_open env (join d n) w) as [[img|e] w1]; [|discriminate].
    unfold bind at 1, lift at 1 in E. cbn [VideoVeilImage_init] in E.
    destruct (IH _ _ _ _ E) as (new & -> & Hnew).
    eexists (_ :: new). rewrite <- app_assoc. split; [reflexivity|].
    constructor; [|exact Hnew]. simpl. split; [|reflexivity].
    destruct (String.eqb (mode img) "RGB") eqn:Em; [|reflexivity].
    simpl. now apply String.eqb_eq.
Qed.


Lemma read_frames_count (path : string) (cap : option Z) (remaining : list ndarray) :
  forall (loaded : list VideoVeilImage) (w : W),
  exists new w',
    read_frames path cap remaining loaded w = (Ok (loaded ++ new), w')
    /\ map frame_array new
       = take (spec_frame_budget cap (length loaded) (length remaining)) remaining.
Proof.
  induction remaining as [|a remaining IH]; intros loaded w; simpl read_frames.
  - exists []. rewrite app_nil_r, take_nil.
    destruct (frame_cap_reached cap loaded); eexists; split; reflexivity.
  - destruct (frame_cap_reached cap loaded) eqn:Hcap.
    + exists []. rewrite app_nil_r. eexists. split; [reflexivity|].
      destruct cap as [k|]; [|discriminate]. simpl in Hcap.
      apply Z.leb_le in Hcap. unfold spec_frame_budget.
      replace (Z.to_nat (k - Z.of_nat (length loaded))) with 0%nat by lia.
      reflexivity.
    + unfold bind at 1, lift at 1. cbn [VideoVeilImage_init].
      match goal with |- context [read_frames _ _ _ (loaded ++ [?fr]) ?w0] =>
        destruct (IH (loaded ++ [fr]) w0) as (new & w' & E & Harr);
        exists (fr :: new), w'
      end.
      rewrite <- app_assoc in E. split; [exact E|].
      rewrite length_app in Harr. simpl length in Harr.
      assert (Hb : spec_frame_budget cap (length loaded) (S (length remaining))
                   = S (spec_frame_budget cap (length loaded + 1) (length remaining))).
      { unfold spec_frame_budget. destruct cap as [k|]; [|reflexivity].
        simpl in Hcap. apply Z.leb_gt in Hcap. lia. }
      simpl length. rewrite Hb. simpl. now rewrite Harr.
Qed.

(** Frame count and test cap for a video source: an existing video whose
    capture opens yields a store with the decoded arrays in order -- all of
    them outside a test run, the first [test_run_frames_count] of them
    (at most) in a test run. *)
Theorem video_frame_count (f : string) (dir : option string) (test : bool)
    (count : Z) (throw : bool) (w : W) :
  os_path_exists env f = true ->
  isOpened (VideoCapture env f) = true ->
  let decoded := stream (VideoCapture env f) in
  let n := if test then Nat.min (Z.to_nat count) (length decoded)
           else length decoded in
  exists sv w',
    VideoVeilSourceVideo_init env false (Some f) dir test count throw w = (Ok sv, w')
    /\ map frame_array (frames sv) = take n decoded
    /\ length (frames sv) = n.
Proof.
  intros Hex Hop decoded n.
  assert (Hpm : path_missing env (Some f) = false) by (simpl; now rewrite Hex).
  unfold VideoVeilSourceVideo_init. rewrite Hpm.
  unfold _load_frames_from_video. cbn [video_path].
  unfold bind at 2, call_VideoCapture. unfold bind at 1.
  rewrite Hop. cbn [negb].
  match goal with |- context [bind (read_frames ?p ?c ?r []) _ ?w0] =>
    destruct (read_frames_count p c r [] w0) as (new & w' & E & Harr)
  end.
  erewrite bind_ok by exact E.
  cbn [test_run_frames_count set_frames] in Harr.
  assert (Hn : spec_frame_budget (if negb test then None else Some count) 0
                 (length decoded) = n).
  { unfold n, spec_frame_budget. destruct test; simpl; [|reflexivity].
    now rewrite Z.sub_0_r. }
  simpl length in Harr. fold decoded in Harr. rewrite Hn in Harr.
  assert (Hfr : forall s, frames (_set_video_dimensions s) = frames s).
  { intros s. unfold _set_video_dimensions. destruct (frames s) eqn:Ef; [exact Ef|].
    simpl. exact Ef. }
  eexists. eexists. split; [reflexivity|].
  rewrite Hfr. simpl frames. split; [exact Harr|].
  rewrite <- (length_map frame_array), Harr, length_take. unfold n.
  destruct test; lia.
Qed.

End SourceFacts.

(* ===================================================================== *)
(** ** Theorems: frames and video assembly                                 *)
(* ===================================================================== *)

Section AssemblyFacts.

Context {T : Type} {host_state correction : Type}.
Variable env : Env T host_state correction.
Abbreviation W := (World T host_state correction).

Lemma fold_video_write (l : list ndarray) : forall v,
  fold_left (fun v a => video_write a v) l v
  = {| vpath := vpath v; fourcc := fourcc v; vfps := vfps v; vsize := vsize v;
       written := written v ++ l; released := released v |}.
Proof.
  induction l as [|a l IH]; intros v.
  - simpl. rewrite app_nil_r. now destruct v.
  - simpl fold_left. rewrite IH. simpl. now rewrite <- app_assoc.
Qed.

Lemma write_frames_ok (fs : list VideoVeilImage) : forall imgs v vs (w : W),
  map transformed_image fs = map Some imgs ->
  videos w = v :: vs ->
  for_each write_frame fs tt w
  = (Ok tt,
     set_videos
       (fold_left (fun v a => video_write a v)
          (map (fun img => cvtColor_RGB2BGR (np_array img)) imgs) v :: vs) w).
Proof.
  induction fs as [|f fs IH]; intros imgs v vs w Himgs Hv.
  - destruct imgs; [|discriminate]. simpl. unfold ret. rewrite <- Hv.
    now destruct w.
  - destruct imgs as [|img imgs]; [discriminate|].
    simpl in Himgs. injection Himgs as Hf Hrest.
    simpl for_each. unfold bind. unfold write_frame at 1. rewrite Hf.
    unfold on_open_video. rewrite Hv.
    rewrite (IH imgs (video_write (cvtColor_RGB2BGR (np_array img)) v) vs
               (set_videos (video_write (cvtColor_RGB2BGR (np_array img)) v :: vs) w)
               Hrest eq_refl).
    reflexivity.
Qed.

(** A frame without transformed image stops the writing loop with the
    error of [cv2.cvtColor]; the frames before it have been written. *)
Lemma write_frames_stops (done : list VideoVeilImage) (f : VideoVeilImage)
    (rest : list VideoVeilImage) (imgs : list Image) v vs (w : W) :
  map transformed_image done = map Some imgs ->
  transformed_image f = None ->
  videos w = v :: vs ->
  for_each write_frame (done ++ f :: rest) tt w
  = (Raise CvError,
     set_videos
       (fold_left (fun v a => video_write a v)
          (map (fun img => cvtColor_RGB2BGR (np_array img)) imgs) v :: vs) w).
Proof.
  revert imgs v w. induction done as [|d done IH]; intros imgs v w Himgs Hf Hv.
  - destruct imgs; [|discriminate]. simpl. unfold bind, write_frame.
    rewrite Hf. unfold raise. rewrite <- Hv. now destruct w.
  - destruct imgs as [|img imgs]; [discriminate|].
    simpl in Himgs. injection Himgs as Hd Hrest.
    simpl app. simpl for_each. unfold bind. unfold write_frame at 1. rewrite Hd.
    unfold on_open_video. rewrite Hv.
    rewrite (IH imgs (video_write (cvtColor_RGB2BGR (np_array img)) v)
               (set_videos (video_write (cvtColor_RGB2BGR (np_array img)) v :: vs) w)
               Hrest Hf eq_refl).
    reflexivity.
Qed.

Lemma strip_cons (c : ascii) (rest : string) :
  strip_trailing_slashes (String c rest)
  = match strip_trailing_slashes rest with
    | EmptyString => if Ascii.eqb c slash then EmptyString else String c EmptyString
    | kept => String c kept
    end.
Proof. reflexivity. Qed.

(** A path that does not end in a separator has nothing to strip. *)
Lemma strip_without_trailing_slash (d : string) :
  endswith d "/" = false -> strip_trailing_slashes d = d.
Proof.
  induction d as [|c d IH]; [reflexivity|]. intros He.
  destruct d as [|c' d'].
  - cbn [strip_trailing_slashes].
    unfold endswith in He. cbn in He.
    destruct (Ascii.eqb c slash) eqn:Ec; [|reflexivity].
    apply Ascii.eqb_eq in Ec. subst c. discriminate He.
  - rewrite endswith_slash_cons in He by discriminate.
    rewrite strip_cons, (IH He). reflexivity.
Qed.

Lemma original_name_agrees (self : VideoVeilSourceVideo) :
  (use_images_directory self = true ->
   forall d, directory_upload_path self = Some d -> endswith d "/" = false) ->
  original_file_name self = spec_original_name self.
Proof.
  intros Hd. unfold original_file_name, spec_original_name, spec_directory_name.
  destruct (use_images_directory self); [|reflexivity].
  destruct (directory_upload_path self) as [d|]; [|reflexivity].
  simpl. now rewrite (strip_without_trailing_slash d (Hd eq_refl d eq_refl)).
Qed.

(** What [create_mp4] writes outside a test run when every frame has its
    transformed image, with the name as the code computes it. *)
Lemma create_mp4_contract (self : VideoVeilSourceVideo) (seed : Z)
    (output_directory : string) (gallery : bool) (w : W)
    (name : string) (imgs : list Image) :
  test_run self = false ->
  original_file_name self = Some name ->
  map transformed_image (frames self) = map Some imgs ->
  let dir := join output_directory "video-veil-output" in
  let path := dir +:+ "/" +:+ spec_file_name env seed name in
  exists w',
    create_mp4 env self seed output_directory gallery w
    = (Ok (set_output_path path self), w')
    /\ videos w'
       = {| vpath := path; fourcc := "mp4v";
            vfps := spec_frame_rate env self;
            vsize := (video_width self, video_height self);
            written := map (fun img => cvtColor_RGB2BGR (np_array img)) imgs;
            released := true |} :: videos w
    /\ (os_path_exists env dir = true \/ dir ∈ dirs_made w').
Proof.
  intros Ht Hname Himgs dir path.
  assert (Hpath : join dir (spec_file_name env seed name) = path).
  { unfold dir, path, spec_file_name. apply join_under_output_directory.
    apply strftime_not_absolute. }
  unfold create_mp4. rewrite Ht.
  unfold original_file_name, spec_frame_rate in *.
  destruct (use_images_directory self) eqn:Huse; cbn [negb].
  - destruct (directory_upload_path self) as [d|] eqn:Hd; [|discriminate].
    simpl in Hname. injection Hname as <-.
    unfold bind at 1, ret at 1. cbn [fst snd].
    fold (spec_file_name env seed (basename d +:+ ".mp4")). fold dir.
    rewrite Hpath.
    unfold bind at 1, makedirs at 1.
    unfold bind at 1, VideoWriter at 1.
    erewrite bind_ok; [| apply write_frames_ok with (imgs := imgs); [exact Himgs | reflexivity]].
    unfold bind at 1, on_open_video at 1. cbn [videos set_videos].
    rewrite fold_video_write. cbn [video_release vpath fourcc vfps vsize written released app].
    destruct gallery; (eexists; split; [reflexivity|]; split;
      [ destruct (os_path_exists env dir || _); reflexivity | ]);
      (destruct (os_path_exists env dir) eqn:Hex; [now left | right]);
      cbn [orb]; (destruct (bool_decide (dir ∈ dirs_made _)) eqn:Hin;
        [ apply bool_decide_eq_true in Hin; exact Hin
        | cbn; apply elem_of_app; right; apply list_elem_of_singleton; reflexivity ]).
  - destruct (video_path self) as [f|] eqn:Hf; [|discriminate].
    simpl in Hname. injection Hname as <-.
    unfold bind at 1. unfold bind at 1. unfold call_VideoCapture, ret at 1.
    cbn [fst snd].
    fold (spec_file_name env seed (basename f)). fold dir.
    rewrite Hpath.
    unfold bind at 1, makedirs at 1.
    unfold bind at 1, VideoWriter at 1.
    erewrite bind_ok; [| apply write_frames_ok with (imgs := imgs); [exact Himgs | reflexivity]].
    unfold bind at 1, on_open_video at 1. cbn [videos set_videos].
    rewrite fold_video_write. cbn [video_release vpath fourcc vfps vsize written released app].
    destruct gallery; (eexists; split; [reflexivity|]; split;
      [ destruct (os_path_exists env dir || _); reflexivity | ]);
      (destruct (os_path_exists env dir) eqn:Hex; [now left | right]);
      cbn [orb]; (destruct (bool_decide (dir ∈ dirs_made _)) eqn:Hin;
        [ apply bool_decide_eq_true in Hin; exact Hin
        | cbn; apply elem_of_app; right; apply list_elem_of_singleton; reflexivity ]).
Qed.

(** Assembly does nothing in a test run.  Otherwise, when every frame has
    its transformed image and the path of a folder source does not end in
    a separator, it writes one file directly inside
    [<output directory>/video-veil-output] (created unless it exists),
    named [<UTC timestamp>-<seed>-<original source name>], where the
    original name of a folder source is [<directory name>.mp4]; the frame
    rate is the source container's for a video source and 30 for a
    folder. *)
Theorem video_assembly (self : VideoVeilSourceVideo) (seed : Z)
    (output_directory : string) (gallery : bool) (w : W) :
  (test_run self = true ->
     create_mp4 env self seed output_directory gallery w = (Ok self, w))
  /\ (forall (name : string) (imgs : list Image),
        test_run self = false ->
        (use_images_directory self = true ->
         forall d, directory_upload_path self = Some d -> endswith d "/" = false) ->
        spec_original_name self = Some name ->
        map transformed_image (frames self) = map Some imgs ->
        let dir := join output_directory "video-veil-output" in
        let path := dir +:+ "/" +:+ spec_file_name env seed name in
        exists w',
          create_mp4 env self seed output_directory gallery w
          = (Ok (set_output_path path self), w')
          /\ videos w'
             = {| vpath := path; fourcc := "mp4v";
                  vfps := spec_frame_rate env self;
                  vsize := (video_width self, video_height self);
                  written := map (fun img => cvtColor_RGB2BGR (np_array img)) imgs;
                  released := true |} :: videos w
          /\ (os_path_exists env dir = true \/ dir ∈ dirs_made w')).
Proof.
  split.
  - intros Ht. unfold create_mp4. now rewrite Ht.
  - intros name imgs Ht Hslash Hname Himgs.
    rewrite <- (original_name_agrees self Hslash) in Hname.
    now apply create_mp4_contract.
Qed.


(** Assembly after an interrupted loop: if the store still holds a frame
    without transformed image, [create_mp4] (outside a test run) writes the
    frames before it and ends with the error of [cv2.cvtColor]; the writer
    is left unreleased and the gallery is not updated. *)
Theorem assembly_fails_on_unprocessed_frame (self : VideoVeilSourceVideo)
    (seed : Z) (output_directory : string) (gallery : bool) (w : W)
    (name : string) (done : list VideoVeilImage) (f : VideoVeilImage)
    (rest : list VideoVeilImage) (imgs : list Image) :
  test_run self = false ->
  original_file_name self = Some name ->
  frames self = done ++ f :: rest ->
  map transformed_image done = map Some imgs ->
  transformed_image f = None ->
  let path := join output_directory "video-veil-output" +:+ "/"
              +:+ spec_file_name env seed name in
  exists w',
    create_mp4 env self seed output_directory gallery w = (Raise CvError, w')
    /\ videos w'
       = {| vpath := path; fourcc := "mp4v"; vfps := spec_frame_rate env self;
            vsize := (video_width self, video_height self);
            written := map (fun img => cvtColor_RGB2BGR (np_array img)) imgs;
            released := false |} :: videos w
    /\ gallery_updates w' = gallery_updates w.
Proof.
  intros Ht Hname Hfs Himgs Hf path.
  assert (Hpath : join (join output_directory "video-veil-output")
                    (spec_file_name env seed name) = path).
  { unfold path, spec_file_name. apply join_under_output_directory.
    apply strftime_not_absolute. }
  unfold create_mp4. rewrite Ht.
  unfold original_file_name, spec_frame_rate in *.
  destruct (use_images_directory self) eqn:Huse; cbn [negb].
  - destruct (directory_upload_path self) as [d|] eqn:Hd; [|discriminate].
    simpl in Hname. injection Hname as <-.
    unfold bind at 1, ret at 1. cbn [fst snd].
    fold (spec_file_name env seed (basename d +:+ ".mp4")).
    rewrite Hpath.
    unfold bind at 1, makedirs at 1.
    unfold bind at 1, VideoWriter at 1.
    rewrite Hfs.
    erewrite bind_raise;
      [| apply write_frames_stops with (imgs := imgs); [exact Himgs | exact Hf | reflexivity]].
    rewrite fold_video_write. cbn [vpath fourcc vfps vsize written released app].
    eexists. split; [reflexivity|].
    split; destruct (os_path_exists env _ || _); reflexivity.
  - destruct (video_path self) as [v|] eqn:Hv; [|discriminate].
    simpl in Hname. injection Hname as <-.
    unfold bind at 1. unfold bind at 1. unfold call_VideoCapture, ret at 1.
    cbn [fst snd].
    fold (spec_file_name env seed (basename v)).
    rewrite Hpath.
    unfold bind at 1, makedirs at 1.
    unfold bind at 1, VideoWriter at 1.
    rewrite Hfs.
    erewrite bind_raise;
      [| apply write_frames_stops with (imgs := imgs); [exact Himgs | exact Hf | reflexivity]].
    rewrite fold_video_write. cbn [vpath fourcc vfps vsize written released app].
    eexists. split; [reflexivity|].
    split; destruct (os_path_exists env _ || _); reflexivity.
Qed.

End AssemblyFacts.

(* ===================================================================== *)
(** ** Theorems: the per-frame request                                     *)
(* ===================================================================== *)

Section RequestFacts.

Context {T : Type} `{TensorOps T} {host_state correction : Type}.
Variable env : Env T host_state correction.
Abbreviation W := (World T host_state correction).

(** The colour-correction step neither fails nor touches the world, and it
    changes nothing of the request but [color_corrections]. *)
Lemma apply_color_correction_ok (color_correction : string)
    (sv : VideoVeilSourceVideo) (frame : VideoVeilImage)
    (cp : Request T correction) (w : W) :
  exists cp',
    apply_color_correction env color_correction sv frame cp w = (Ok cp', w)
    /\ (cp' = cp \/ exists c, cp' = set_color_corrections c cp).
Proof.
  unfold apply_color_correction.
  destruct (String.eqb color_correction color_correction_option_none).
  { exists cp. split; [reflexivity | now left]. }
  destruct (String.eqb color_correction color_correction_option_video).
  { eexists. split; [reflexivity | right; eexists; reflexivity]. }
  destruct (String.eqb color_correction color_correction_option_generated_image);
    [| exists cp; split; [reflexivity | now left]].
  destruct (0 <? length (frames sv))%nat eqn:Hlen;
    [| exists cp; split; [reflexivity | now left]].
  apply Nat.ltb_lt in Hlen.
  unfold bind, lift. rewrite (index_last_nth _ frame Hlen).
  destruct (transformed_image _).
  - eexists. split; [reflexivity | right; eexists; reflexivity].
  - exists cp. split; [reflexivity | now left].
Qed.

(** The request that one pass of the loop body submits for frame [i]. *)
Lemma process_frame_request (p : Request T correction) (color_correction : string)
    (i : nat) (l : locals T correction) (w : W) (frame : VideoVeilImage) :
  frames (l_source_video l) !! i = Some frame ->
  exists cp,
    pipeline_calls (snd (process_frame env p color_correction i l w))
    = pipeline_calls w ++ [cp]
    /\ sample cp = SampleExtra frame prompt_placeholder neg_prompt_placeholder
    /\ batch_size cp = 1 /\ sampler_name cp = "Euler"
    /\ steps cp = steps p
    /\ control_net_input_image cp = Some [frame_array frame]
    /\ init_images cp = [frame_image frame].
Proof.
  intros Hi. unfold process_frame. unfold bind at 1, lift at 1, index.
  rewrite Hi. unfold bind at 1, modify_state at 1.
  match goal with |- context [apply_color_correction env ?c ?s ?f ?r] =>
    destruct (apply_color_correction_ok c s f r
                (set_state (set_job (str_int (job_no (state w) + 1) +:+ " out of "
                                     +:+ str_int (job_count (state w))) (state w)) w))
      as (cp' & Hcc & Hshape)
  end.
  erewrite bind_ok by exact Hcc.
  exists cp'. split.
  - unfold bind at 1, call_process_images.
    destruct (process_images env cp' _) as [[pr|e] s]; [|reflexivity].
    unfold bind at 1, lift at 1.
    destruct (images pr !! 0%nat); reflexivity.
  - destruct Hshape as [-> | [c ->]]; repeat split.
Qed.


Lemma bgr_to_rgb (scene : list (list color)) :
  cvtColor_BGR2RGB (bgr_array scene) = rgb_array scene.
Proof.
  unfold cvtColor_BGR2RGB, bgr_array, rgb_array. rewrite map_map.
  apply map_ext. intros row. rewrite map_map. apply map_ext. now intros [r g b].
Qed.

(** C9: the channel order of [frame_array] follows the source.  A frame
    built from a decoded video array keeps the decoder's BGR array and
    carries its RGB conversion as [frame_image]; a frame built from an
    opened RGB image has the image's RGB pixels as [frame_array].  The
    video loader builds its frames from the decoded arrays, the folder
    loader from RGB images, and the request of every frame passes
    [frame_array] on, unchanged, as the ControlNet input: BGR for a video
    source, RGB for a folder source. *)
Theorem frame_array_channel_order (scene : list (list color)) :
  (exists fr,
      VideoVeilImage_init (Some (bgr_array scene)) None = Ok fr
      /\ frame_array fr = bgr_array scene
      /\ frame_image fr = {| mode := "RGB"; pixels := rgb_array scene |})
  /\ (exists fr,
      VideoVeilImage_init None (Some {| mode := "RGB"; pixels := rgb_array scene |})
      = Ok fr
      /\ frame_array fr = rgb_array scene
      /\ frame_image fr = {| mode := "RGB"; pixels := rgb_array scene |})
  /\ (forall (path : string) (cap : option Z) (decoded : list ndarray) (w : W),
        exists fs n w',
          read_frames path cap decoded [] w = (Ok fs, w')
          /\ map frame_array fs = take n decoded)
  /\ (forall (d : string) (cap : option Z) (names : list string) (w w' : W)
             (fs : list VideoVeilImage),
        load_images env (Some d) cap names [] w = (Ok fs, w') ->
        Forall (fun fr => mode (frame_image fr) = "RGB"
                          /\ frame_array fr = pixels (frame_image fr)) fs)
  /\ (forall (p : Request T correction) (color_correction : string) (i : nat)
             (l : locals T correction) (w : W) (frame : VideoVeilImage),
        frames (l_source_video l) !! i = Some frame ->
        exists cp,
          pipeline_calls (snd (process_frame env p color_correction i l w))
          = pipeline_calls w ++ [cp]
          /\ control_net_input_image cp = Some [frame_array frame]
          /\ init_images cp = [frame_image frame]).
Proof.
  split; [|split; [|split; [|split]]].
  - eexists. split; [reflexivity|]. split; [reflexivity|].
    simpl. unfold Image_fromarray. now rewrite bgr_to_rgb.
  - eexists. split; [reflexivity|]. split; reflexivity.
  - intros path cap decoded w.
    destruct (read_frames_keep_arrays (T := T) (host_state := host_state)
                (correction := correction) path cap decoded [] w)
      as (new & n & w' & E & Harr & _).
    exists new, n, w'. split; [exact E | exact Harr].
  - intros d cap names w w' fs E.
    destruct (load_images_keep_pixels env d cap names [] w w' fs E) as (new & -> & Hnew).
    exact Hnew.
  - intros p cc i l w frame Hi.
    destruct (process_frame_request p cc i l w frame Hi)
      as (cp & Hcalls & _ & _ & _ & _ & Hcn & Himg).
    exists cp. repeat split; assumption.
Qed.

Lemma bind_ext {A B} (m : @M T host_state correction A)
    (k1 k2 : A -> @M T host_state correction B) (w : W) :
  (forall a w', k1 a w' = k2 a w') -> bind m k1 w = bind m k2 w.
Proof.
  intros Hk. unfold bind. destruct (m w) as [[a|e] w']; [apply Hk | reflexivity].
Qed.

Lemma for_each_ext {A X} (f g : A -> X -> @M T host_state correction X)
    (l : list A) :
  (forall a x w, f a x w = g a x w) ->
  forall x w, for_each f l x w = for_each g l x w.
Proof.
  intros Hfg. induction l as [|a l IH]; intros x w; [reflexivity|].
  simpl. unfold bind. rewrite Hfg. destruct (g a x w) as [[x'|e] w']; [apply IH | reflexivity].
Qed.

(** Of the request, the routine reads the initial latent and the image
    conditioning, and nothing else. *)
Lemma find_noise_reads_latent_only (p1 p2 : Request T correction)
    cond uncond g steps (w : W) :
  init_latent p1 = init_latent p2 ->
  image_conditioning p1 = image_conditioning p2 ->
  find_noise_for_image_sigma_adjustment env p1 cond uncond g steps w
  = find_noise_for_image_sigma_adjustment env p2 cond uncond g steps w.
Proof.
  intros Hl Hc. unfold find_noise_for_image_sigma_adjustment.
  destruct (model_wrapper env) as [dnw skip]. rewrite Hl.
  apply bind_ext. intros _ w1. unfold bind at 1 3.
  rewrite (for_each_ext
             (inversion_step env dnw skip p1 cond uncond g
                (reverse (get_sigmas dnw steps)) (new_ones_batch (init_latent p2)))
             (inversion_step env dnw skip p2 cond uncond g
                (reverse (get_sigmas dnw steps)) (new_ones_batch (init_latent p2)))).
  - reflexivity.
  - intros i x w0. unfold inversion_step. now rewrite Hc.
Qed.

(** C10: the sampling override installed on every frame's request calls
    the noise inversion with the conditionings of the two fixed placeholder
    prompts, guidance scale 1.0 and the request's own step count; the
    request's prompt, negative prompt and CFG scale have no part in it; and
    the delegate sampler starts from the inverted noise minus the initial
    latent divided by the first sigma of the sampler's schedule. *)
Theorem sampling_override (p : Request T correction) (color_correction : string)
    (i : nat) (l : locals T correction) (frame : VideoVeilImage) (w0 : W)
    (cp : Request T correction) (conditioning unconditional_conditioning : T)
    (w : W) :
  frames (l_source_video l) !! i = Some frame ->
  sample cp = SampleExtra frame prompt_placeholder neg_prompt_placeholder ->
  let cond := get_learned_conditioning (p_sd_model cp) [prompt_placeholder] in
  let uncond := get_learned_conditioning (p_sd_model cp) [neg_prompt_placeholder] in
  let smp := create_sampler env (sampler_name cp) (p_sd_model cp) in
  let w1 := set_state (set_job_count (job_count (state w) + 1) (state w)) w in
  let inversion := find_noise_for_image_sigma_adjustment env cp cond uncond 1%Q (steps cp) in
  (exists submitted,
      pipeline_calls (snd (process_frame env p color_correction i l w0))
      = pipeline_calls w0 ++ [submitted]
      /\ sample submitted = SampleExtra frame prompt_placeholder neg_prompt_placeholder
      /\ steps submitted = steps p)
  /\ (forall e w2,
        inversion w1 = (Raise e, w2) ->
        call_sample env cp conditioning unconditional_conditioning w = (Raise e, w2))
  /\ (forall rec_noise w2 sigma_0 rest,
        inversion w1 = (Ok rec_noise, w2) ->
        model_wrap_get_sigmas smp (steps cp) = sigma_0 :: rest ->
        call_sample env cp conditioning unconditional_conditioning w
        = call_sample_img2img smp cp (init_latent cp)
            (rec_noise - init_latent cp / sigma_0)%tensor
            conditioning unconditional_conditioning (image_conditioning cp) w2)
  /\ (forall pos neg scale,
        find_noise_for_image_sigma_adjustment env (with_prompting pos neg scale cp)
          cond uncond 1%Q (steps cp) w1
        = inversion w1).
Proof.
  intros Hi Hs cond uncond smp w1 inversion.
  split; [|split; [|split]].
  - destruct (process_frame_request p color_correction i l w0 frame Hi)
      as (sub & Hcalls & Hsample & _ & _ & Hsteps & _).
    exists sub. repeat split; assumption.
  - intros e w2 Hinv. unfold call_sample. rewrite Hs. unfold sample_extra.
    unfold bind at 1, modify_state at 1.
    apply bind_raise. exact Hinv.
  - intros rec_noise w2 sigma_0 rest Hinv Hsig. unfold call_sample. rewrite Hs.
    unfold sample_extra. unfold bind at 1, modify_state at 1.
    erewrite bind_ok by exact Hinv.
    fold smp. rewrite Hsig. reflexivity.
  - intros pos neg scale. apply find_noise_reads_latent_only; reflexivity.
Qed.

End RequestFacts.

(* ===================================================================== *)
(** ** Theorems: the frame loop                                            *)
(* ===================================================================== *)

Section LoopFacts.

Context {T : Type} `{TensorOps T} {host_state correction : Type}.
Variable env : Env T host_state correction.
Abbreviation W := (World T host_state correction).
Abbreviation Mw := (@M T host_state correction).

(** *** Computations that leave the pipeline alone *)

Lemma silent_ret {A} (a : A) : pipeline_silent (ret a : Mw A).
Proof. intros w. reflexivity. Qed.

Lemma silent_raise {A} (e : exn) : pipeline_silent (raise e : Mw A).
Proof. intros w. reflexivity. Qed.

Lemma silent_lift {A} (r : result A) : pipeline_silent (lift r : Mw A).
Proof. intros w. reflexivity. Qed.

Lemma silent_modify_state (f : shared_state host_state -> shared_state host_state) :
  pipeline_silent (modify_state f : Mw unit).
Proof. intros w. reflexivity. Qed.

Lemma silent_bind {A B} (m : Mw A) (k : A -> Mw B) :
  pipeline_silent m -> (forall a, pipeline_silent (k a)) -> pipeline_silent (bind m k).
Proof.
  intros Hm Hk w. unfold bind. specialize (Hm w).
  destruct (m w) as [[a|e] w']; simpl in Hm; [|exact Hm].
  now rewrite Hk.
Qed.

Lemma silent_for_each {A X} (body : A -> X -> Mw X) (l : list A) :
  (forall a x, pipeline_silent (body a x)) ->
  forall x, pipeline_silent (for_each body l x).
Proof.
  intros Hb. induction l as [|a l IH]; intros x; simpl.
  - apply silent_ret.
  - apply silent_bind; [apply Hb | exact IH].
Qed.

Lemma silent_load_images dir cap names : forall loaded,
  pipeline_silent (load_images env dir cap names loaded).
Proof.
  induction names as [|n names IH]; intros loaded; simpl.
  - apply silent_ret.
  - destruct (frame_cap_reached cap loaded); [apply silent_ret|].
    apply silent_bind; [destruct dir; [apply silent_ret | apply silent_raise] |].
    intros path. apply silent_bind; [intros w; reflexivity|].
    intros img. apply silent_bind; [apply silent_lift | intros fr; apply IH].
Qed.

Lemma silent_read_frames path cap remaining : forall loaded,
  pipeline_silent (read_frames path cap remaining loaded : Mw _).
Proof.
  induction remaining as [|a remaining IH]; intros loaded; simpl.
  - destruct (frame_cap_reached cap loaded); [apply silent_ret | intros w; reflexivity].
  - destruct (frame_cap_reached cap loaded); [apply silent_ret|].
    intros w.
    pose proof (silent_bind (lift (VideoVeilImage_init (Some a) None))
                  (fun v => read_frames path cap remaining (loaded ++ [v]))
                  (silent_lift _) (fun v => IH (loaded ++ [v]))
                  (log_io (IoCapRead path) w)) as Hs.
    exact Hs.
Qed.

Lemma silent_source_init use_dir video dir test count throw :
  pipeline_silent (VideoVeilSourceVideo_init env use_dir video dir test count throw).
Proof.
  unfold VideoVeilSourceVideo_init.
  destruct use_dir.
  - destruct (path_missing env dir).
    + destruct throw; [apply silent_raise | apply silent_ret].
    + apply silent_bind; [| intros; apply silent_ret].
      unfold _load_frames_from_folder.
      apply silent_bind; [intros w; reflexivity | intros listing].
      destruct (_ <=? _)%nat; [apply silent_raise|].
      apply silent_bind; [apply silent_load_images | intros; apply silent_ret].
  - destruct (path_missing env video).
    + destruct throw; [apply silent_raise | apply silent_ret].
    + apply silent_bind; [| intros; apply silent_ret].
      unfold _load_frames_from_video.
      apply silent_bind.
      { unfold call_VideoCapture. destruct (video_path _);
          [intros w; reflexivity | apply silent_raise]. }
      intros cap. destruct (negb (isOpened cap)); [apply silent_ret|].
      apply silent_bind; [apply silent_read_frames | intros; apply silent_ret].
Qed.

Lemma silent_create_mp4 self seed out gallery :
  pipeline_silent (create_mp4 env self seed out gallery).
Proof.
  unfold create_mp4. destruct (test_run self); [apply silent_ret|].
  apply silent_bind.
  { destruct (negb (use_images_directory self)).
    - destruct (video_path self); [|apply silent_raise].
      apply silent_bind; [intros w; reflexivity | intros; apply silent_ret].
    - destruct (directory_upload_path self); [apply silent_ret | apply silent_raise]. }
  intros named.
  apply silent_bind; [intros w; unfold makedirs; simpl; now destruct (_ || _) | intros _].
  apply silent_bind; [intros w; reflexivity | intros _].
  apply silent_bind.
  { apply silent_for_each. intros f []. unfold write_frame.
    destruct (transformed_image f); [|apply silent_raise].
    intros w. unfold on_open_video. simpl. now destruct (videos w). }
  intros _.
  apply silent_bind; [intros w; unfold on_open_video; simpl; now destruct (videos w) | intros _].
  destruct gallery; [intros w; reflexivity | apply silent_ret].
Qed.


(** *** Requests submitted under a predicate *)

Lemma submits_silent (P : Request T correction -> Prop) {A} (m : Mw A) :
  pipeline_silent m -> submits_only P m.
Proof. intros Hm w HP. now rewrite Hm. Qed.

Lemma submits_bind (P : Request T correction -> Prop) {A B} (m : Mw A)
    (k : A -> Mw B) :
  submits_only P m -> (forall a w w', m w = (Ok a, w') -> submits_only P (k a)) ->
  submits_only P (bind m k).
Proof.
  intros Hm Hk w HP. unfold bind. specialize (Hm w HP).
  destruct (m w) as [[a|e] w'] eqn:E; simpl in Hm; [|exact Hm].
  now apply (Hk a w w' E).
Qed.

Lemma submits_call_process_images (P : Request T correction -> Prop) cp :
  P cp -> submits_only P (call_process_images env cp).
Proof.
  intros Hcp w HP. unfold call_process_images.
  destruct (process_images env cp _) as [r s]. simpl.
  apply Forall_app. split; [exact HP | now constructor].
Qed.

(** *** Frames are created without transformed image *)

Lemma init_untransformed a b fr :
  VideoVeilImage_init a b = Ok fr -> transformed_image fr = None.
Proof.
  unfold VideoVeilImage_init. destruct a as [arr|], b as [img|];
    try discriminate; intros E; injection E as <-; reflexivity.
Qed.

Lemma load_images_untransformed dir cap names : forall loaded (w w' : W) fs,
  Forall (fun f => transformed_image f = None) loaded ->
  load_images env dir cap names loaded w = (Ok fs, w') ->
  Forall (fun f => transformed_image f = None) fs.
Proof.
  induction names as [|n names IH]; intros loaded w w' fs Hl E; simpl in E.
  - injection E as <- _. exact Hl.
  - destruct (frame_cap_reached cap loaded); [injection E as <- _; exact Hl|].
    unfold bind at 1 in E. destruct dir as [d|]; [|discriminate].
    unfold ret at 1 in E. unfold bind at 1 in E.
    destruct (call_Image_open env (join d n) w) as [[img|e] w1]; [|discriminate].
    unfold bind at 1, lift at 1 in E. cbn [VideoVeilImage_init] in E.
    eapply IH; [|exact E].
    apply Forall_app. split; [exact Hl|]. constructor; [reflexivity | constructor].
Qed.

Lemma read_frames_untransformed path cap remaining : forall loaded (w w' : W) fs,
  Forall (fun f => transformed_image f = None) loaded ->
  read_frames path cap remaining loaded w = (Ok fs, w') ->
  Forall (fun f => transformed_image f = None) fs.
Proof.
  induction remaining as [|a remaining IH]; intros loaded w w' fs Hl E; simpl in E.
  - destruct (frame_cap_reached cap loaded); injection E as <- _; exact Hl.
  - destruct (frame_cap_reached cap loaded); [injection E as <- _; exact Hl|].
    unfold bind at 1, lift at 1 in E. cbn [VideoVeilImage_init] in E.
    eapply IH; [|exact E].
    apply Forall_app. split; [exact Hl|]. constructor; [reflexivity | constructor].
Qed.

Lemma source_init_untransformed use_dir video dir test count throw (w w' : W) sv :
  VideoVeilSourceVideo_init env use_dir video dir test count throw w = (Ok sv, w') ->
  Forall (fun f => transformed_image f = None) (frames sv).
Proof.
  unfold VideoVeilSourceVideo_init. intros E.
  assert (Hdim : forall s, frames (_set_video_dimensions s) = frames s).
  { intros s. unfold _set_video_dimensions. destruct (frames s) eqn:Ef; [exact Ef|].
    simpl. exact Ef. }
  destruct use_dir.
  - destruct (path_missing env dir).
    { destruct throw; [discriminate | injection E as <- _; constructor]. }
    unfold bind at 1 in E. unfold _load_frames_from_folder in E.
    unfold bind at 1 in E.
    destruct (call_listdir env _ w) as [[listing|e] w1]; [|discriminate].
    destruct (_ <=? _)%nat; [discriminate|].
    unfold bind at 1 in E.
    destruct (load_images env _ _ _ [] w1) as [[fs|e] w2] eqn:El; [|discriminate].
    injection E as <- _. rewrite Hdim. simpl.
    apply (load_images_untransformed _ _ _ _ _ _ _ (Forall_nil_2 _) El).
  - destruct (path_missing env video).
    { destruct throw; [discriminate | injection E as <- _; constructor]. }
    unfold bind at 1 in E. unfold _load_frames_from_video in E.
    unfold bind at 1 in E.
    destruct (call_VideoCapture env _ w) as [[cap|e] w1]; [|discriminate].
    destruct (negb (isOpened cap)).
    { injection E as <- _. rewrite Hdim. constructor. }
    unfold bind at 1 in E.
    destruct (read_frames _ _ _ [] w1) as [[fs|e] w2] eqn:El; [|discriminate].
    injection E as <- _. rewrite Hdim. simpl.
    apply (read_frames_untransformed _ _ _ _ _ _ _ (Forall_nil_2 _) El).
Qed.


(** *** Colour correction "From Stable Diffusion Generated Image" *)

Lemma last_untransformed (a : nat) (fs : list VideoVeilImage) f :
  untransformed_from a fs -> (a < length fs)%nat ->
  last fs = Some f -> transformed_image f = None.
Proof.
  intros Hu Ha Hl. rewrite last_lookup in Hl.
  apply (Hu (Nat.pred (length fs)) f); [lia | exact Hl].
Qed.

(** While the last frame of the store has no transformed image, the step
    hands the request back as it was. *)
Lemma apply_color_correction_generated (sv : VideoVeilSourceVideo)
    (frame : VideoVeilImage) (cp : Request T correction) (w : W) :
  (forall f, last (frames sv) = Some f -> transformed_image f = None) ->
  apply_color_correction env color_correction_option_generated_image sv frame cp w
  = (Ok cp, w).
Proof.
  intros Hlast. unfold apply_color_correction.
  change (String.eqb color_correction_option_generated_image
            color_correction_option_none) with false.
  change (String.eqb color_correction_option_generated_image
            color_correction_option_video) with false.
  change (String.eqb color_correction_option_generated_image
            color_correction_option_generated_image) with true.
  cbv iota. destruct (0 <? length (frames sv))%nat eqn:Hlen; [|reflexivity].
  apply Nat.ltb_lt in Hlen.
  unfold bind, lift, index_last.
  destruct (last (frames sv)) as [f|] eqn:El.
  - now rewrite (Hlast f eq_refl).
  - apply last_None in El. rewrite El in Hlen. simpl in Hlen. lia.
Qed.

Lemma process_frame_generated (p : Request T correction) (i : nat)
    (l : locals T correction) :
  untransformed_from i (frames (l_source_video l)) ->
  (i < length (frames (l_source_video l)))%nat ->
  submits_only (fun cp => color_corrections cp = color_corrections p)
    (process_frame env p color_correction_option_generated_image i l).
Proof.
  intros Hu Hi. unfold process_frame.
  apply submits_bind; [apply submits_silent, silent_lift | intros frame _ _ _].
  apply submits_bind; [apply submits_silent, silent_modify_state | intros _ _ _ _].
  apply submits_bind.
  { apply submits_silent. intros w.
    rewrite apply_color_correction_generated; [reflexivity|].
    intros f. now apply last_untransformed with (a := i). }
  intros cp w w' Ecc.
  rewrite apply_color_correction_generated in Ecc
    by (intros f; now apply last_untransformed with (a := i)).
  injection Ecc as <- _.
  apply submits_bind; [now apply submits_call_process_images | intros pr _ _ _].
  apply submits_bind; [apply submits_silent, silent_lift | intros img _ _ _].
  apply submits_bind; [apply submits_silent, silent_modify_state | intros _ _ _ _].
  apply submits_silent, silent_ret.
Qed.

(** A pass through the loop body changes the store at index [i] only. *)
Lemma process_frame_store (p : Request T correction) (cc : string) (i : nat)
    (l l' : locals T correction) (w w' : W) :
  process_frame env p cc i l w = (Ok l', w') ->
  exists fr,
    frames (l_source_video l') = <[i := fr]> (frames (l_source_video l)).
Proof.
  unfold process_frame. intros E.
  unfold bind at 1, lift at 1 in E.
  destruct (index (frames (l_source_video l)) i) as [frame|e]; [|discriminate].
  unfold bind at 1, modify_state at 1 in E.
  unfold bind at 1 in E.
  destruct (apply_color_correction env cc _ frame _ _) as [[cp|e] w1]; [|discriminate].
  unfold bind at 1 in E.
  destruct (call_process_images env cp w1) as [[pr|e] w2]; [|discriminate].
  unfold bind at 1, lift at 1 in E.
  destruct (index (images pr) 0) as [img|e]; [|discriminate].
  unfold bind at 1, modify_state at 1, ret in E.
  injection E as <- _. eexists. reflexivity.
Qed.

Lemma frame_loop_generated (p : Request T correction) (n : nat) :
  forall (a : nat) (l : locals T correction),
  (a + n)%nat = length (frames (l_source_video l)) ->
  untransformed_from a (frames (l_source_video l)) ->
  submits_only (fun cp => color_corrections cp = color_corrections p)
    (frame_loop env p color_correction_option_generated_image (seq a n) l).
Proof.
  induction n as [|n IH]; intros a l Hlen Hu; simpl.
  - apply submits_silent, silent_ret.
  - apply submits_bind; [apply submits_silent, silent_modify_state | intros _ _ _ _].
    apply submits_bind; [apply submits_silent; intros w; reflexivity | intros s _ _ _].
    destruct (interrupted s); [apply submits_silent, silent_ret|].
    apply submits_bind; [apply process_frame_generated; [exact Hu | lia] |].
    intros l' w w' E.
    destruct (process_frame_store _ _ _ _ _ _ _ E) as [fr Hfr].
    apply IH.
    + rewrite Hfr, length_insert. lia.
    + intros j f Hj Hf. rewrite Hfr in Hf.
      rewrite list_lookup_insert_ne in Hf by lia.
      apply (Hu j f); [lia | exact Hf].
Qed.

Lemma run_generated_submits (p : Request T correction)
    (use_dir : bool) (video dir : option string) (test : bool) (count : Z) :
  submits_only (fun cp => color_corrections cp = color_corrections p)
    (run env p use_dir video dir color_correction_option_generated_image test count).
Proof.
  unfold run. destruct (_ || _); [|now apply submits_call_process_images].
  apply submits_bind; [apply submits_silent, silent_source_init | intros sv w w' Einit].
  apply submits_bind; [| intros l _ _ _; apply submits_silent;
                         destruct (l_proc l); [apply silent_ret | apply silent_raise]].
  destruct (0 <? length (frames sv))%nat; [|apply submits_silent, silent_ret].
  apply submits_bind; [apply submits_silent, silent_modify_state | intros _ _ _ _].
  apply submits_bind; [apply submits_silent, silent_modify_state | intros _ _ _ _].
  apply submits_bind.
  { unfold range. rewrite Nat.sub_0_r. apply frame_loop_generated; [reflexivity|].
    intros j f _ Hf. pose proof (source_init_untransformed _ _ _ _ _ _ _ _ _ Einit) as Hall.
    rewrite Forall_lookup in Hall. exact (Hall j f Hf). }
  intros l _ _ _. apply submits_silent.
  apply silent_bind; [destruct (l_proc l); [apply silent_ret | apply silent_raise] | intros shown].
  apply silent_bind; [destruct (l_cp l); [apply silent_ret | apply silent_raise] | intros last_cp].
  apply silent_bind; [apply silent_create_mp4 | intros; apply silent_ret].
Qed.

(** In the mode "From Stable Diffusion Generated Image" no request that a
    run submits to the pipeline carries a colour-correction reference of
    the script's making: each has the [color_corrections] of the base
    request.  The condition on [frames[-1]] is false whenever it is
    evaluated. *)
Theorem generated_mode_attaches_no_reference (p : Request T correction)
    (use_dir : bool) (video dir : option string) (test : bool) (count : Z)
    (w : W) :
  Forall (fun cp => color_corrections cp = color_corrections p) (pipeline_calls w) ->
  Forall (fun cp => color_corrections cp = color_corrections p)
    (pipeline_calls
       (snd (run env p use_dir video dir color_correction_option_generated_image
               test count w))).
Proof. apply run_generated_submits. Qed.

End LoopFacts.

(* ===================================================================== *)
(** ** Theorems: what loading touches, and what it yields                  *)
(* ===================================================================== *)

Section LoadingFacts.

Context {T : Type} {host_state correction : Type}.
Variable env : Env T host_state correction.
Abbreviation W := (World T host_state correction).
Abbreviation Mw := (@M T host_state correction).

Lemma same_but_io_refl (w : W) : same_but_io w w.
Proof. repeat split. exists []. now rewrite app_nil_r. Qed.

Lemma same_but_io_trans (w1 w2 w3 : W) :
  same_but_io w1 w2 -> same_but_io w2 w3 -> same_but_io w1 w3.
Proof.
  intros (a1 & a2 & a3 & a4 & a5 & a6 & a7 & l1 & a8)
         (b1 & b2 & b3 & b4 & b5 & b6 & b7 & l2 & b8).
  repeat split; try congruence.
  exists (l1 ++ l2). rewrite b8, a8. now rewrite app_assoc.
Qed.

Lemma same_but_io_log (e : io_event) (w : W) : same_but_io w (log_io e w).
Proof. repeat split. now exists [e]. Qed.

Lemma io_only_ret {A} (a : A) : io_only (ret a : Mw A).
Proof. intros w. apply same_but_io_refl. Qed.

Lemma io_only_raise {A} (e : exn) : io_only (raise e : Mw A).
Proof. intros w. apply same_but_io_refl. Qed.

Lemma io_only_lift {A} (r : result A) : io_only (lift r : Mw A).
Proof. intros w. apply same_but_io_refl. Qed.

Lemma io_only_bind {A B} (m : Mw A) (k : A -> Mw B) :
  io_only m -> (forall a, io_only (k a)) -> io_only (bind m k).
Proof.
  intros Hm Hk w. unfold bind. specialize (Hm w).
  destruct (m w) as [[a|e] w']; simpl in Hm; [|exact Hm].
  apply (same_but_io_trans _ _ _ Hm). apply Hk.
Qed.

Lemma io_only_load_images dir cap names : forall loaded,
  io_only (load_images env dir cap names loaded).
Proof.
  induction names as [|n names IH]; intros loaded; simpl.
  - apply io_only_ret.
  - destruct (frame_cap_reached cap loaded); [apply io_only_ret|].
    apply io_only_bind; [destruct dir; [apply io_only_ret | apply io_only_raise] |].
    intros path. apply io_only_bind; [intros w; apply same_but_io_log|].
    intros img. apply io_only_bind; [apply io_only_lift | intros fr; apply IH].
Qed.

Lemma io_only_read_frames path cap remaining : forall loaded,
  io_only (read_frames path cap remaining loaded : Mw _).
Proof.
  induction remaining as [|a remaining IH]; intros loaded; simpl.
  - destruct (frame_cap_reached cap loaded);
      [apply io_only_ret | intros w; apply same_but_io_log].
  - destruct (frame_cap_reached cap loaded); [apply io_only_ret|].
    intros w.
    apply (same_but_io_trans _ _ _ (same_but_io_log (IoCapRead path) w)).
    exact (io_only_bind (lift (VideoVeilImage_init (Some a) None))
             (fun v => read_frames path cap remaining (loaded ++ [v]))
             (io_only_lift _) (fun v => IH (loaded ++ [v]))
             (log_io (IoCapRead path) w)).
Qed.

Lemma io_only_source_init use_dir video dir test count throw :
  io_only (VideoVeilSourceVideo_init env use_dir video dir test count throw).
Proof.
  unfold VideoVeilSourceVideo_init.
  destruct use_dir.
  - destruct (path_missing env dir).
    + destruct throw; [apply io_only_raise | apply io_only_ret].
    + apply io_only_bind; [| intros; apply io_only_ret].
      unfold _load_frames_from_folder.
      apply io_only_bind; [intros w; apply same_but_io_log | intros listing].
      destruct (_ <=? _)%nat; [apply io_only_raise|].
      apply io_only_bind; [apply io_only_load_images | intros; apply io_only_ret].
  - destruct (path_missing env video).
    + destruct throw; [apply io_only_raise | apply io_only_ret].
    + apply io_only_bind; [| intros; apply io_only_ret].
      unfold _load_frames_from_video.
      apply io_only_bind.
      { unfold call_VideoCapture. destruct (video_path _);
          [intros w; apply same_but_io_log | apply io_only_raise]. }
      intros cap. destruct (negb (isOpened cap)); [apply io_only_ret|].
      apply io_only_bind; [apply io_only_read_frames | intros; apply io_only_ret].
Qed.

(** Constructing a store only reads: whatever the source and whether or
    not construction succeeds, the shared state, the recorded model,
    pipeline and sampler calls, the directories made and the videos
    written are as before; only file-system operations are added to the
    record. *)
Theorem construction_only_reads (use_dir : bool) (video dir : option string)
    (test : bool) (count : Z) (throw : bool) (w : W) :
  same_but_io w
    (snd (VideoVeilSourceVideo_init env use_dir video dir test count throw w)).
Proof. apply io_only_source_init. Qed.

(** What a successfully constructed store remembers of its arguments. *)
Lemma source_init_fields use_dir video dir test count throw (w w' : W) sv :
  VideoVeilSourceVideo_init env use_dir video dir test count throw w = (Ok sv, w') ->
  use_images_directory sv = use_dir /\ video_path sv = video
  /\ directory_upload_path sv = dir /\ test_run sv = test.
Proof.
  unfold VideoVeilSourceVideo_init. intros E.
  assert (Hdim : forall s,
            use_images_directory (_set_video_dimensions s) = use_images_directory s
            /\ video_path (_set_video_dimensions s) = video_path s
            /\ directory_upload_path (_set_video_dimensions s) = directory_upload_path s
            /\ test_run (_set_video_dimensions s) = test_run s).
  { intros s. unfold _set_video_dimensions. destruct (frames s); repeat split. }
  destruct use_dir.
  - destruct (path_missing env dir).
    { destruct throw; [discriminate | injection E as <- _; repeat split]. }
    unfold bind at 1 in E. unfold _load_frames_from_folder in E.
    unfold bind at 1 in E.
    destruct (call_listdir env _ w) as [[listing|e] w1]; [|discriminate].
    destruct (_ <=? _)%nat; [discriminate|].
    unfold bind at 1 in E.
    destruct (load_images env _ _ _ [] w1) as [[fs|e] w2]; [|discriminate].
    injection E as <- _. destruct (Hdim (set_frames fs
      {| frames := []; use_images_directory := true; video_path := video;
         directory_upload_path := dir; test_run := test;
         test_run_frames_count := if negb test then None else Some count;
         output_video_path := None; video_width := 0; video_height := 0;
         output_path := None |})) as (-> & -> & -> & ->). repeat split.
  - destruct (path_missing env video).
    { destruct throw; [discriminate | injection E as <- _; repeat split]. }
    unfold bind at 1 in E. unfold _load_frames_from_video in E.
    unfold bind at 1 in E.
    destruct (call_VideoCapture env _ w) as [[cap|e] w1]; [|discriminate].
    destruct (negb (isOpened cap)).
    { injection E as <- _. destruct (Hdim (set_frames []
      {| frames := []; use_images_directory := false; video_path := video;
         directory_upload_path := dir; test_run := test;
         test_run_frames_count := if negb test then None else Some count;
         output_video_path := None; video_width := 0; video_height := 0;
         output_path := None |})) as (-> & -> & -> & ->). repeat split. }
    unfold bind at 1 in E.
    destruct (read_frames _ _ _ [] w1) as [[fs|e] w2]; [|discriminate].
    injection E as <- _. destruct (Hdim (set_frames fs (set_frames []
      {| frames := []; use_images_directory := false; video_path := video;
         directory_upload_path := dir; test_run := test;
         test_run_frames_count := if negb test then None else Some count;
         output_video_path := None; video_width := 0; video_height := 0;
         output_path := None |}))) as (-> & -> & -> & ->). repeat split.
Qed.


(** Every successful construction goes through one of three paths: no
    loading at all, the folder loader, or the video loader. *)
Lemma source_init_paths use_dir video dir test count throw (w w' : W) sv :
  VideoVeilSourceVideo_init env use_dir video dir test count throw w = (Ok sv, w') ->
  let cap := if negb test then None else Some count in
  exists fs,
    sv = _set_video_dimensions
           (set_frames fs
              {| frames := []; use_images_directory := use_dir;
                 video_path := video; directory_upload_path := dir;
                 test_run := test; test_run_frames_count := cap;
                 output_video_path := None; video_width := 0; video_height := 0;
                 output_path := None |})
    /\ (fs = []
        \/ (exists names (w1 w2 : W), load_images env dir cap names [] w1 = (Ok fs, w2))
        \/ (exists path decoded (w1 w2 : W),
              read_frames path cap decoded [] w1 = (Ok fs, w2))).
Proof.
  intros E cap. unfold VideoVeilSourceVideo_init in E.
  destruct use_dir.
  - destruct (path_missing env dir).
    { destruct throw; [discriminate|]. injection E as <- _. exists [].
      split; [reflexivity | now left]. }
    unfold bind at 1 in E. unfold _load_frames_from_folder in E.
    unfold bind at 1 in E.
    destruct (call_listdir env _ w) as [[listing|e] w1]; [|discriminate].
    destruct (_ <=? _)%nat; [discriminate|].
    unfold bind at 1 in E.
    destruct (load_images env _ _ _ [] w1) as [[fs|e] w2] eqn:El; [|discriminate].
    injection E as <- _. exists fs. split; [reflexivity|].
    right; left. eexists. eexists. eexists. exact El.
  - destruct (path_missing env video).
    { destruct throw; [discriminate|]. injection E as <- _. exists [].
      split; [reflexivity | now left]. }
    unfold bind at 1 in E. unfold _load_frames_from_video in E.
    unfold bind at 1 in E.
    destruct (call_VideoCapture env _ w) as [[c|e] w1]; [|discriminate].
    destruct (negb (isOpened c)).
    { injection E as <- _. exists []. split; [reflexivity | now left]. }
    unfold bind at 1 in E.
    destruct (read_frames _ _ _ [] w1) as [[fs|e] w2] eqn:El; [|discriminate].
    injection E as <- _. exists fs. split; [reflexivity|].
    right; right. eexists. eexists. eexists. eexists. exact El.
Qed.

Lemma load_images_forall (P : VideoVeilImage -> Prop) dir cap names :
  (forall a b fr, VideoVeilImage_init a b = Ok fr -> P fr) ->
  forall loaded (w w' : W) fs,
  Forall P loaded ->
  load_images env dir cap names loaded w = (Ok fs, w') -> Forall P fs.
Proof.
  intros HP. induction names as [|n names IH]; intros loaded w w' fs Hl E; simpl in E.
  - injection E as <- _. exact Hl.
  - destruct (frame_cap_reached cap loaded); [injection E as <- _; exact Hl|].
    unfold bind at 1 in E. destruct dir as [d|]; [|discriminate].
    unfold ret at 1 in E. unfold bind at 1 in E.
    destruct (call_Image_open env (join d n) w) as [[img|e] w1]; [|discriminate].
    unfold bind at 1, lift at 1 in E. cbn [VideoVeilImage_init] in E.
    eapply IH; [|exact E].
    apply Forall_app. split; [exact Hl|]. constructor; [|constructor].
    match goal with
    | |- P {| frame_array := _; frame_image := ?i; transformed_image := _;
              height := _; width := _ |} =>
        apply (HP None (Some i)); reflexivity
    end.
Qed.

Lemma read_frames_forall (P : VideoVeilImage -> Prop) path cap remaining :
  (forall a b fr, VideoVeilImage_init a b = Ok fr -> P fr) ->
  forall loaded (w w' : W) fs,
  Forall P loaded ->
  read_frames path cap remaining loaded w = (Ok fs, w') -> Forall P fs.
Proof.
  intros HP. induction remaining as [|a remaining IH]; intros loaded w w' fs Hl E;
    simpl in E.
  - destruct (frame_cap_reached cap loaded); injection E as <- _; exact Hl.
  - destruct (frame_cap_reached cap loaded); [injection E as <- _; exact Hl|].
    unfold bind at 1, lift at 1 in E. cbn [VideoVeilImage_init] in E.
    eapply IH; [|exact E].
    apply Forall_app. split; [exact Hl|]. constructor; [|constructor].
    apply (HP (Some a) None); reflexivity.
Qed.

Lemma init_dimensions a b fr :
  VideoVeilImage_init a b = Ok fr -> dimensions_of_array fr.
Proof.
  unfold VideoVeilImage_init, dimensions_of_array.
  destruct a as [arr|], b as [img|]; try discriminate;
    intros E; injection E as <-; split; reflexivity.
Qed.

(** The dimensions of a store.  After any successful construction every
    frame's height and width are those of its pixel buffer, and the video's
    width and height are those of the first frame -- or zero when there is
    no frame; later frames of another size are accepted as they are. *)
Theorem store_dimensions (use_dir : bool) (video dir : option string)
    (test : bool) (count : Z) (throw : bool) (w w' : W)
    (sv : VideoVeilSourceVideo) :
  VideoVeilSourceVideo_init env use_dir video dir test count throw w = (Ok sv, w') ->
  Forall dimensions_of_array (frames sv)
  /\ match frames sv with
     | first_frame :: _ =>
         video_width sv = width first_frame /\ video_height sv = height first_frame
     | [] => video_width sv = 0%nat /\ video_height sv = 0%nat
     end.
Proof.
  intros E. destruct (source_init_paths _ _ _ _ _ _ _ _ _ E) as (fs & -> & Hfs).
  assert (Hall : Forall dimensions_of_array fs).
  { destruct Hfs as [-> | [(names & w1 & w2 & El) | (path & dec & w1 & w2 & El)]].
    - constructor.
    - apply (load_images_forall _ _ _ _ init_dimensions _ _ _ _ (Forall_nil_2 _) El).
    - apply (read_frames_forall _ _ _ _ init_dimensions _ _ _ _ (Forall_nil_2 _) El). }
  unfold _set_video_dimensions. simpl frames.
  destruct fs as [|f fs]; simpl; split; auto.
Qed.


Lemma frame_budget_step (cap : option Z) (loaded : list VideoVeilImage) (n : nat) :
  frame_cap_reached cap loaded = false ->
  spec_frame_budget cap (length loaded) (S n)
  = S (spec_frame_budget cap (length loaded + 1) n).
Proof.
  intros Hcap. unfold spec_frame_budget. destruct cap as [k|]; [|reflexivity].
  simpl in Hcap. apply Z.leb_gt in Hcap. lia.
Qed.

Lemma frame_budget_spent (cap : option Z) (loaded : list VideoVeilImage) (n : nat) :
  frame_cap_reached cap loaded = true ->
  spec_frame_budget cap (length loaded) n = 0%nat.
Proof.
  intros Hcap. unfold spec_frame_budget. destruct cap as [k|]; [|discriminate].
  simpl in Hcap. apply Z.leb_le in Hcap. lia.
Qed.

Lemma load_images_count (d : string) (cap : option Z) (names : list string) :
  Forall (fun n => exists img, Image_open env (join d n) = Ok img) names ->
  forall (loaded : list VideoVeilImage) (w : W),
  exists new w',
    load_images env (Some d) cap names loaded w = (Ok (loaded ++ new), w')
    /\ Forall2 (frame_of_file env d)
         (take (spec_frame_budget cap (length loaded) (length names)) names) new.
Proof.
  induction 1 as [|n names [img Hopen] _ IH]; intros loaded w; simpl load_images.
  - exists []. rewrite app_nil_r, take_nil. eexists. split; [reflexivity | constructor].
  - destruct (frame_cap_reached cap loaded) eqn:Hcap.
    + exists []. rewrite app_nil_r. eexists. split; [reflexivity|].
      rewrite (frame_budget_spent _ _ _ Hcap). constructor.
    + unfold bind at 1, ret at 1. unfold bind at 1, call_Image_open. rewrite Hopen.
      unfold bind at 1, lift at 1. cbn [VideoVeilImage_init].
      match goal with |- context [load_images _ _ _ _ (loaded ++ [?fr]) ?w0] =>
        destruct (IH (loaded ++ [fr]) w0) as (new & w' & E & Hnew);
        exists (fr :: new), w'
      end.
      rewrite <- app_assoc in E. split; [exact E|].
      rewrite length_app in Hnew. simpl length in Hnew.
      simpl length. rewrite (frame_budget_step _ _ _ Hcap). simpl take.
      constructor; [|exact Hnew].
      exists img. split; [exact Hopen|]. simpl.
      destruct (String.eqb (mode img) "RGB") eqn:Em; simpl; repeat split.
      now apply String.eqb_eq.
Qed.

Lemma load_folder_count (self : VideoVeilSourceVideo) (d : string)
    (listing : list string) (w : W) :
  directory_upload_path self = Some d ->
  os_listdir env d = Ok listing ->
  let image_names := filter (fun n => has_image_extension n = true) listing in
  image_names <> [] ->
  Forall (fun n => exists img, Image_open env (join d n) = Ok img) image_names ->
  exists new w',
    _load_frames_from_folder env self w = (Ok (set_frames new self), w')
    /\ Forall2 (frame_of_file env d)
         (take (spec_frame_budget (test_run_frames_count self) 0 (length image_names))
               image_names) new.
Proof.
  intros Hd Hls image_names Hne Hopen.
  unfold _load_frames_from_folder. rewrite Hd. simpl default.
  unfold bind at 1, call_listdir. rewrite Hls. fold image_names.
  destruct (length image_names <=? 0)%nat eqn:Hlen.
  { apply Nat.leb_le in Hlen. destruct image_names; [congruence | simpl in Hlen; lia]. }
  destruct (load_images_count d (test_run_frames_count self) image_names Hopen []
              (log_io (IoListdir d) w)) as (new & w' & E & Hnew).
  exists new, w'. erewrite bind_ok by exact E. split; [reflexivity | exact Hnew].
Qed.

(** Frame count, order and test cap for a folder source.  When every file
    with an image extension opens, the store holds one frame per such file,
    in the order of the directory listing, other files skipped: all of them
    outside a test run, the first [test_run_frames_count] (at most) in a
    test run.  Each frame is the RGB image of its file. *)
Theorem folder_frame_count (d : string) (video : option string) (test : bool)
    (count : Z) (throw : bool) (w : W) (listing : list string) :
  os_path_exists env d = true ->
  os_listdir env d = Ok listing ->
  let image_names := filter (fun n => has_image_extension n = true) listing in
  image_names <> [] ->
  Forall (fun n => exists img, Image_open env (join d n) = Ok img) image_names ->
  let n := if test then Nat.min (Z.to_nat count) (length image_names)
           else length image_names in
  exists sv w',
    VideoVeilSourceVideo_init env true video (Some d) test count throw w = (Ok sv, w')
    /\ Forall2 (frame_of_file env d) (take n image_names) (frames sv)
    /\ length (frames sv) = n.
Proof.
  intros Hex Hls image_names Hne Hopen n.
  assert (Hpm : path_missing env (Some d) = false) by (simpl; now rewrite Hex).
  unfold VideoVeilSourceVideo_init. rewrite Hpm.
  match goal with |- context [_load_frames_from_folder env ?s] =>
    destruct (load_folder_count s d listing w eq_refl Hls Hne Hopen)
      as (new & w' & E & Hnew)
  end.
  erewrite bind_ok by exact E.
  assert (Hn : spec_frame_budget (if negb test then None else Some count) 0
                 (length image_names) = n).
  { unfold n, spec_frame_budget. destruct test; simpl; [|reflexivity].
    now rewrite Z.sub_0_r. }
  cbn [test_run_frames_count] in Hnew. fold image_names in Hnew. rewrite Hn in Hnew.
  assert (Hfr : forall s, frames (_set_video_dimensions s) = frames s).
  { intros s. unfold _set_video_dimensions. destruct (frames s) eqn:Ef; [exact Ef|].
    simpl. exact Ef. }
  eexists. eexists. split; [reflexivity|].
  rewrite Hfr. simpl frames. split; [exact Hnew|].
  rewrite <- (Forall2_length _ _ _ Hnew), length_take. unfold n.
  destruct test; lia.
Qed.

Lemma load_images_fails (d : string) (cap : option Z) (good : list string)
    (bad : string) (rest : list string) (e : exn) :
  Forall (fun n => exists img, Image_open env (join d n) = Ok img) good ->
  Image_open env (join d bad) = Raise e ->
  forall (loaded : list VideoVeilImage) (w : W),
  match cap with
  | None => True
  | Some k => Z.of_nat (length loaded + length good) < k
  end ->
  fst (load_images env (Some d) cap (good ++ bad :: rest) loaded w) = Raise e.
Proof.
  intros Hgood Hbad.
  induction Hgood as [|n good [img Hopen] _ IH]; intros loaded w Hcap; simpl app;
    simpl load_images.
  - assert (Hc : frame_cap_reached cap loaded = false).
    { destruct cap as [k|]; [|reflexivity]. simpl in *. apply Z.leb_gt. lia. }
    rewrite Hc.
    unfold bind at 1, ret at 1. unfold bind at 1, call_Image_open. now rewrite Hbad.
  - assert (Hc : frame_cap_reached cap loaded = false).
    { destruct cap as [k|]; [|reflexivity]. simpl in *. apply Z.leb_gt. lia. }
    rewrite Hc.
    unfold bind at 1, ret at 1. unfold bind at 1, call_Image_open. rewrite Hopen.
    unfold bind at 1, lift at 1. cbn [VideoVeilImage_init].
    apply IH. destruct cap as [k|]; [|exact I].
    rewrite length_app. simpl in *. lia.
Qed.

Lemma load_folder_fails (self : VideoVeilSourceVideo) (d : string)
    (listing good rest : list string) (bad : string) (e : exn) (w : W) :
  directory_upload_path self = Some d ->
  os_listdir env d = Ok listing ->
  filter (fun n => has_image_extension n = true) listing = good ++ bad :: rest ->
  Forall (fun n => exists img, Image_open env (join d n) = Ok img) good ->
  Image_open env (join d bad) = Raise e ->
  match test_run_frames_count self with
  | None => True
  | Some k => Z.of_nat (length good) < k
  end ->
  fst (_load_frames_from_folder env self w) = Raise e.
Proof.
  intros Hd Hls Hnames Hgood Hbad Hcap.
  unfold _load_frames_from_folder. rewrite Hd. simpl default.
  unfold bind at 1, call_listdir. rewrite Hls, Hnames.
  destruct (length (good ++ bad :: rest) <=? 0)%nat eqn:Hlen.
  { apply Nat.leb_le in Hlen. rewrite length_app in Hlen. simpl in Hlen. lia. }
  pose proof (load_images_fails d (test_run_frames_count self) good bad rest e
                Hgood Hbad [] (log_io (IoListdir d) w)) as Hf.
  unfold bind at 1.
  destruct (load_images env (Some d) _ _ [] _) as [[fs|e'] w1]; simpl in Hf |- *.
  - assert (Hx : @Ok (list VideoVeilImage) fs = Raise e); [|discriminate Hx].
    apply Hf. destruct (test_run_frames_count self); auto.
  - assert (Hx : @Raise (list VideoVeilImage) e' = Raise e).
    { apply Hf. destruct (test_run_frames_count self); auto. }
    now injection Hx as ->.
Qed.

(** One image file that does not open aborts the construction of a folder
    store: if the files before it (in listing order) open, the cap does not
    stop the loader before it, and opening it raises [e], the constructor
    ends with [e] and returns no store, however many frames were loaded
    before. *)
Theorem folder_image_failure (d : string) (video : option string) (test : bool)
    (count : Z) (throw : bool) (w : W) (listing good rest : list string)
    (bad : string) (e : exn) :
  os_path_exists env d = true ->
  os_listdir env d = Ok listing ->
  filter (fun n => has_image_extension n = true) listing = good ++ bad :: rest ->
  Forall (fun n => exists img, Image_open env (join d n) = Ok img) good ->
  Image_open env (join d bad) = Raise e ->
  test = false \/ Z.of_nat (length good) < count ->
  fst (VideoVeilSourceVideo_init env true video (Some d) test count throw w) = Raise e.
Proof.
  intros Hex Hls Hnames Hgood Hbad Hcap.
  assert (Hpm : path_missing env (Some d) = false) by (simpl; now rewrite Hex).
  unfold VideoVeilSourceVideo_init. rewrite Hpm.
  match goal with |- context [_load_frames_from_folder env ?s] =>
    pose proof (load_folder_fails s d listing good rest bad e w eq_refl Hls Hnames
                  Hgood Hbad) as Hl
  end.
  unfold bind at 1.
  match goal with |- context [_load_frames_from_folder env ?s w] =>
    destruct (_load_frames_from_folder env s w) as [[sv|e'] w1]
  end; simpl in Hl |- *.
  - assert (Hx : @Ok VideoVeilSourceVideo sv = Raise e); [|discriminate Hx].
    apply Hl. destruct Hcap as [-> | Hlt]; [exact I|]. destruct test; [exact Hlt | exact I].
  - exact (Hl ltac:(destruct Hcap as [-> | Hlt]; [exact I|];
                     destruct test; [exact Hlt | exact I])).
Qed.

End LoadingFacts.

(* ===================================================================== *)
(** ** Theorems: a whole run                                               *)
(* ===================================================================== *)

Section RunFacts.

Context {T : Type} `{TensorOps T} {host_state correction : Type}.
Variable env : Env T host_state correction.
Abbreviation W := (World T host_state correction).
Abbreviation Mw := (@M T host_state correction).

(** *** Colour correction, mode by mode *)

Lemma apply_color_correction_video (sv : VideoVeilSourceVideo)
    (frame : VideoVeilImage) (cp : Request T correction) (w : W) :
  apply_color_correction env color_correction_option_video sv frame cp w
  = (Ok (set_color_corrections [setup_color_correction env (frame_image frame)] cp), w).
Proof. reflexivity. Qed.

Lemma apply_color_correction_other (cc : string) (sv : VideoVeilSourceVideo)
    (frame : VideoVeilImage) (cp : Request T correction) (w : W) :
  cc <> color_correction_option_video ->
  cc <> color_correction_option_generated_image ->
  apply_color_correction env cc sv frame cp w = (Ok cp, w).
Proof.
  intros Hv Hg. unfold apply_color_correction.
  destruct (String.eqb cc color_correction_option_none); [reflexivity|].
  apply String.eqb_neq in Hv, Hg. now rewrite Hv, Hg.
Qed.

(** What the loop body submits, given the result of the colour-correction
    step. *)
Lemma process_frame_submits (p : Request T correction) (cc : string) (i : nat)
    (l : locals T correction) (w : W) (frame : VideoVeilImage)
    (cp : Request T correction) :
  frames (l_source_video l) !! i = Some frame ->
  (forall w0,
     apply_color_correction env cc (l_source_video l) frame
       (set_frame_inputs [frame_array frame] [frame_image frame]
          (apply_img2img_alternate_fix p frame prompt_placeholder
             neg_prompt_placeholder)) w0
     = (Ok cp, w0)) ->
  pipeline_calls (snd (process_frame env p cc i l w)) = pipeline_calls w ++ [cp].
Proof.
  intros Hi Hcc. unfold process_frame. unfold bind at 1, lift at 1, index.
  rewrite Hi. unfold bind at 1, modify_state at 1.
  erewrite bind_ok by apply Hcc.
  unfold bind at 1, call_process_images.
  destruct (process_images env cp _) as [[pr|e] s]; [|reflexivity].
  unfold bind at 1, lift at 1.
  destruct (images pr !! 0%nat); reflexivity.
Qed.

(** Colour correction by mode.  With "From Source Video" the request of a
    frame carries the reference computed from that frame's own image; with
    "None", and with any string that is none of the three options, the
    request keeps the [color_corrections] of the base request. *)
Theorem color_correction_by_mode (p : Request T correction) (cc : string)
    (i : nat) (l : locals T correction) (w : W) (frame : VideoVeilImage) :
  frames (l_source_video l) !! i = Some frame ->
  exists cp,
    pipeline_calls (snd (process_frame env p cc i l w)) = pipeline_calls w ++ [cp]
    /\ (cc = color_correction_option_video ->
        color_corrections cp
        = Some [setup_color_correction env (frame_image frame)])
    /\ (cc <> color_correction_option_video ->
        cc <> color_correction_option_generated_image ->
        color_corrections cp = color_corrections p).
Proof.
  intros Hi.
  destruct (String.eqb_spec cc color_correction_option_video) as [-> | Hv].
  - eexists. split; [|split].
    + apply (process_frame_submits _ _ _ _ _ _ _ Hi).
      intros w0. apply apply_color_correction_video.
    + reflexivity.
    + congruence.
  - destruct (String.eqb_spec cc color_correction_option_generated_image) as [-> | Hg].
    + destruct (process_frame_request env p color_correction_option_generated_image
                  i l w frame Hi) as (cp & Hcalls & _).
      exists cp. split; [exact Hcalls|]. split; congruence.
    + eexists. split; [|split].
      * apply (process_frame_submits _ _ _ _ _ _ _ Hi).
        intros w0. now apply apply_color_correction_other.
      * congruence.
      * reflexivity.
Qed.

(** *** What one pass and the whole loop do to the store *)

Lemma process_frame_outcome (p : Request T correction) (cc : string) (i : nat)
    (l l' : locals T correction) (w w' : W) :
  process_frame env p cc i l w = (Ok l', w') ->
  exists frame img pr cp,
    frames (l_source_video l) !! i = Some frame
    /\ l_source_video l'
       = set_frames (<[i := set_transformed_image frame img]> (frames (l_source_video l)))
           (l_source_video l)
    /\ l_proc l' = Some pr /\ l_cp l' = Some cp
    /\ images pr !! 0%nat = Some img
    /\ outpath_samples cp = outpath_samples p
    /\ request_for_frame frame cp.
Proof.
  unfold process_frame. intros E.
  unfold bind at 1, lift at 1, index in E.
  destruct (frames (l_source_video l) !! i) as [frame|] eqn:Hi; [|discriminate].
  unfold bind at 1, modify_state at 1 in E.
  match type of E with context [bind (apply_color_correction env ?c ?s ?f ?r) _ ?w0] =>
    destruct (apply_color_correction_ok env c s f r w0) as (cp & Hcc & Hshape)
  end.
  rewrite (bind_ok _ _ _ _ _ Hcc) in E.
  unfold bind at 1 in E.
  destruct (call_process_images env cp _) as [[pr|e] w2]; [|discriminate].
  unfold bind at 1, lift at 1, index in E.
  destruct (images pr !! 0%nat) as [img|] eqn:Himg; [|discriminate].
  unfold bind at 1, modify_state at 1, ret in E.
  injection E as <- _.
  exists frame, img, pr, cp. repeat split; try reflexivity; try exact Himg;
    destruct Hshape as [-> | [c ->]]; reflexivity.
Qed.

Lemma same_frame_data_refl (fs : list VideoVeilImage) :
  Forall2 same_frame_data fs fs.
Proof. induction fs; constructor; [repeat split | assumption]. Qed.

Lemma same_frame_data_insert (fs : list VideoVeilImage) : forall i f f',
  fs !! i = Some f -> same_frame_data f f' ->
  Forall2 same_frame_data fs (<[i := f']> fs).
Proof.
  induction fs as [|g fs IH]; intros i f f' Hi Hf; [discriminate|].
  destruct i as [|i]; simpl in *.
  - injection Hi as ->. constructor; [exact Hf | apply same_frame_data_refl].
  - constructor; [repeat split | eapply IH; eassumption].
Qed.

Lemma same_frame_data_trans (l1 l2 l3 : list VideoVeilImage) :
  Forall2 same_frame_data l1 l2 -> Forall2 same_frame_data l2 l3 ->
  Forall2 same_frame_data l1 l3.
Proof.
  intros H12. revert l3. induction H12 as [|a b l1 l2 Hab _ IH]; intros l3 H23.
  - inversion H23. constructor.
  - inversion H23 as [|b' c l2' l3' Hbc Hrest]; subst. constructor; [|now apply IH].
    destruct Hab as (a1 & a2 & a3 & a4), Hbc as (b1 & b2 & b3 & b4).
    repeat split; congruence.
Qed.

(** The loop never alters what was loaded.  Whatever the host does and
    wherever the loop stops, every frame of the store keeps its pixel
    buffer, its image, its height and its width, and the store keeps its
    number of frames, its source, its test settings and its dimensions:
    only transformed images are attached. *)
Theorem frame_loop_keeps_frames (p : Request T correction) (cc : string)
    (todo : list nat) :
  forall (l l' : locals T correction) (w w' : W),
  frame_loop env p cc todo l w = (Ok l', w') ->
  Forall2 same_frame_data (frames (l_source_video l)) (frames (l_source_video l'))
  /\ l_source_video l'
     = set_frames (frames (l_source_video l')) (l_source_video l).
Proof.
  induction todo as [|i todo IH]; intros l l' w w' E; simpl in E.
  - injection E as <- _. split; [apply same_frame_data_refl|].
    now destruct (l_source_video l).
  - unfold bind at 1, modify_state at 1 in E.
    unfold bind at 1, get_state at 1 in E.
    destruct (interrupted _).
    { injection E as <- _. split; [apply same_frame_data_refl|].
      now destruct (l_source_video l). }
    unfold bind at 1 in E.
    destruct (process_frame env p cc i l _) as [[l1|e] w1] eqn:Ep; [|discriminate].
    destruct (process_frame_outcome _ _ _ _ _ _ _ Ep)
      as (frame & img & pr & cp & Hi & Hsv & _).
    destruct (IH _ _ _ _ E) as [Hdata Hrest]. split.
    + apply (same_frame_data_trans _ (frames (l_source_video l1))); [|exact Hdata].
      rewrite Hsv. simpl frames.
      apply (same_frame_data_insert _ _ _ _ Hi). repeat split.
    + rewrite Hrest, Hsv. reflexivity.
Qed.


(** *** Runs that end before any frame is processed *)

Lemma run_after_construction (p : Request T correction) (use_dir : bool)
    (video dir : option string) (cc : string) (test : bool) (count : Z)
    (w w1 : W) (sv : VideoVeilSourceVideo) :
  negb (is_blank video) || negb (is_blank dir) = true ->
  VideoVeilSourceVideo_init env use_dir video dir test count true w = (Ok sv, w1) ->
  run env p use_dir video dir cc test count w
  = bind
      (if (0 <? length (frames sv))%nat then
         bind (modify_state
                 (fun s => set_job_count (Z.of_nat (length (frames sv)) * n_iter p) s))
           (fun _ =>
         bind (modify_state (set_job_no 0)) (fun _ =>
         bind (frame_loop env p cc (range 0 (length (frames sv)))
                 {| l_source_video := sv; l_proc := None; l_cp := None |})
           (fun l =>
         bind (read_local "proc" (l_proc l)) (fun shown =>
         bind (read_local "cp" (l_cp l)) (fun last_cp =>
         bind (create_mp4 env (l_source_video l) (seed shown)
                 (outpath_samples last_cp) true)
           (fun sv' =>
         ret {| l_source_video := sv';
                l_proc := Some {| images := map transformed_image
                                              (frames (l_source_video l));
                                  seed := seed shown |};
                l_cp := l_cp l |}))))))
       else ret {| l_source_video := sv; l_proc := None; l_cp := None |})
      (fun l => read_local "proc" (l_proc l)) w1.
Proof.
  intros Hen Einit. unfold run. rewrite Hen.
  now rewrite (bind_ok _ _ _ _ _ Einit).
Qed.

(** A store without frames: the run skips the loop and the assembly and
    then reads [proc], which was never assigned. *)
Lemma run_without_frames (p : Request T correction) (use_dir : bool)
    (video dir : option string) (cc : string) (test : bool) (count : Z)
    (w w1 : W) (sv : VideoVeilSourceVideo) :
  negb (is_blank video) || negb (is_blank dir) = true ->
  VideoVeilSourceVideo_init env use_dir video dir test count true w = (Ok sv, w1) ->
  frames sv = [] ->
  run env p use_dir video dir cc test count w = (Raise (UnboundLocalError "proc"), w1).
Proof.
  intros Hen Einit Hfs. rewrite (run_after_construction _ _ _ _ _ _ _ _ _ _ Hen Einit).
  rewrite Hfs. reflexivity.
Qed.

(** A video that exists but does not open, or opens and decodes nothing:
    the run ends with [UnboundLocalError] for the local [proc]; nothing
    was submitted to the pipeline, nothing written, and the shared state
    is untouched. *)
Theorem run_on_empty_video (p : Request T correction) (f : string)
    (dir : option string) (cc : string) (test : bool) (count : Z) (w : W) :
  f <> "" ->
  os_path_exists env f = true ->
  isOpened (VideoCapture env f) = false \/ stream (VideoCapture env f) = [] ->
  exists w',
    run env p false (Some f) dir cc test count w
    = (Raise (UnboundLocalError "proc"), w')
    /\ same_but_io w w'.
Proof.
  intros Hf Hex Hempty.
  assert (Hen : negb (is_blank (Some f)) || negb (is_blank dir) = true).
  { simpl. apply String.eqb_neq in Hf. now rewrite Hf. }
  assert (Hpm : path_missing env (Some f) = false) by (simpl; now rewrite Hex).
  assert (Einit : exists sv w',
            VideoVeilSourceVideo_init env false (Some f) dir test count true w
            = (Ok sv, w') /\ frames sv = []).
  { unfold VideoVeilSourceVideo_init. rewrite Hpm.
    match goal with |- context [_load_frames_from_video env ?s] =>
      destruct (load_video_without_frames env s f w eq_refl Hempty) as (w' & Hl)
    end.
    eexists. eexists. split; [erewrite bind_ok by exact Hl; reflexivity|].
    reflexivity. }
  destruct Einit as (sv & w' & Einit & Hfs).
  exists w'. split.
  - now apply run_without_frames with (sv := sv).
  - pose proof (io_only_source_init env false (Some f) dir test count true w) as Hio.
    now rewrite Einit in Hio.
Qed.

Lemma frame_loop_interrupted (p : Request T correction) (cc : string) (i : nat)
    (todo : list nat) (l : locals T correction) (w : W) :
  interrupted (state w) = true ->
  frame_loop env p cc (i :: todo) l w
  = (Ok l, set_state (if skipped (state w) then set_skipped false (state w)
                      else state w) w).
Proof.
  intros Hint. simpl. unfold bind, modify_state, get_state. simpl.
  destruct (skipped (state w)); simpl; now rewrite Hint.
Qed.

(** An interrupt that is pending when the run starts: with a store of at
    least one frame the loop breaks at once, no request is submitted and
    no video is written, and the run ends with [UnboundLocalError] for the
    local [proc] where it wants to show the results. *)
Theorem run_interrupted_before_first_frame (p : Request T correction)
    (use_dir : bool) (video dir : option string) (cc : string) (test : bool)
    (count : Z) (w w1 : W) (sv : VideoVeilSourceVideo) :
  negb (is_blank video) || negb (is_blank dir) = true ->
  VideoVeilSourceVideo_init env use_dir video dir test count true w = (Ok sv, w1) ->
  frames sv <> [] ->
  interrupted (state w) = true ->
  exists w',
    run env p use_dir video dir cc test count w
    = (Raise (UnboundLocalError "proc"), w')
    /\ pipeline_calls w' = pipeline_calls w
    /\ videos w' = videos w
    /\ job_count (state w') = Z.of_nat (length (frames sv)) * n_iter p
    /\ job_no (state w') = 0.
Proof.
  intros Hen Einit Hfs Hint.
  pose proof (io_only_source_init env use_dir video dir test count true w) as Hio.
  rewrite Einit in Hio. destruct Hio as (Hst & _ & Hpc & _ & _ & Hvid & _).
  simpl in Hst, Hpc, Hvid.
  rewrite (run_after_construction _ _ _ _ _ _ _ _ _ _ Hen Einit).
  destruct (frames sv) as [|f fs] eqn:Ef; [congruence|].
  simpl length. change (0 <? S (length fs))%nat with true. cbv iota.
  unfold range. simpl seq.
  unfold bind at 1. unfold bind at 1, modify_state at 1.
  unfold bind at 1, modify_state at 1.
  unfold bind at 1.
  rewrite frame_loop_interrupted by (simpl; now rewrite Hst).
  eexists. split; [reflexivity|]. simpl.
  repeat split; try assumption; destruct (skipped (state w1)); reflexivity.
Qed.


(** *** A run that nothing interrupts *)

Lemma create_mp4_writes (self : VideoVeilSourceVideo) (seed : Z)
    (output_directory : string) (w : W) (name : string) (imgs : list Image) :
  test_run self = false ->
  original_file_name self = Some name ->
  map transformed_image (frames self) = map Some imgs ->
  let path := join output_directory "video-veil-output" +:+ "/"
              +:+ spec_file_name env seed name in
  exists w',
    create_mp4 env self seed output_directory true w
    = (Ok (set_output_path path self), w')
    /\ videos w'
       = {| vpath := path; fourcc := "mp4v"; vfps := spec_frame_rate env self;
            vsize := (video_width self, video_height self);
            written := map (fun img => cvtColor_RGB2BGR (np_array img)) imgs;
            released := true |} :: videos w
    /\ gallery_updates w' = gallery_updates w ++ [[path]]
    /\ pipeline_calls w' = pipeline_calls w.
Proof.
  intros Ht Hname Himgs path.
  assert (Hpath : join (join output_directory "video-veil-output")
                    (spec_file_name env seed name) = path).
  { unfold path, spec_file_name. apply join_under_output_directory.
    apply strftime_not_absolute. }
  unfold create_mp4. rewrite Ht.
  unfold original_file_name, spec_frame_rate in *.
  destruct (use_images_directory self) eqn:Huse; cbn [negb].
  - destruct (directory_upload_path self) as [d|] eqn:Hd; [|discriminate].
    simpl in Hname. injection Hname as <-.
    unfold bind at 1, ret at 1. cbn [fst snd].
    fold (spec_file_name env seed (basename d +:+ ".mp4")).
    rewrite Hpath.
    unfold bind at 1, makedirs at 1.
    unfold bind at 1, VideoWriter at 1.
    erewrite bind_ok; [| apply write_frames_ok with (imgs := imgs); [exact Himgs | reflexivity]].
    unfold bind at 1, on_open_video at 1. cbn [videos set_videos].
    rewrite fold_video_write. cbn [video_release vpath fourcc vfps vsize written released app].
    eexists. split; [reflexivity|].
    repeat split; destruct (os_path_exists env _ || _); reflexivity.
  - destruct (video_path self) as [f|] eqn:Hf; [|discriminate].
    simpl in Hname. injection Hname as <-.
    unfold bind at 1. unfold bind at 1. unfold call_VideoCapture, ret at 1.
    cbn [fst snd].
    fold (spec_file_name env seed (basename f)).
    rewrite Hpath.
    unfold bind at 1, makedirs at 1.
    unfold bind at 1, VideoWriter at 1.
    erewrite bind_ok; [| apply write_frames_ok with (imgs := imgs); [exact Himgs | reflexivity]].
    unfold bind at 1, on_open_video at 1. cbn [videos set_videos].
    rewrite fold_video_write. cbn [video_release vpath fourcc vfps vsize written released app].
    eexists. split; [reflexivity|].
    repeat split; destruct (os_path_exists env _ || _); reflexivity.
Qed.

Lemma process_frame_completes (p : Request T correction) (cc : string) (i : nat)
    (l : locals T correction) (w : W) (frame : VideoVeilImage) :
  cooperative_host env ->
  interrupted (state w) = false ->
  frames (l_source_video l) !! i = Some frame ->
  exists l' w' img pr cp s1,
    process_frame env p cc i l w = (Ok l', w')
    /\ process_images env cp
         (set_job (str_int (job_no (state w) + 1) +:+ " out of "
                   +:+ str_int (job_count (state w))) (state w))
       = (Ok pr, s1)
    /\ images pr !! 0%nat = Some (Some img)
    /\ state w' = p_close env cp s1
    /\ l_source_video l'
       = set_frames (<[i := set_transformed_image frame (Some img)]>
                      (frames (l_source_video l))) (l_source_video l)
    /\ l_proc l' = Some pr /\ l_cp l' = Some cp
    /\ outpath_samples cp = outpath_samples p
    /\ request_for_frame frame cp
    /\ pipeline_calls w' = pipeline_calls w ++ [cp]
    /\ same_but_pipeline w w'
    /\ interrupted (state w') = false.
Proof.
  intros [Hproc Hclose] Hint Hi.
  unfold process_frame. unfold bind at 1, lift at 1, index. rewrite Hi.
  unfold bind at 1, modify_state at 1.
  match goal with |- context [bind (apply_color_correction env ?c ?s ?f ?r) _ ?w0] =>
    destruct (apply_color_correction_ok env c s f r w0) as (cp & Hcc & Hshape)
  end.
  rewrite (bind_ok _ _ _ _ _ Hcc).
  unfold bind at 1, call_process_images.
  match goal with |- context [process_images env cp ?s0] =>
    destruct (Hproc cp s0 Hint) as (pr & img & rest & s' & Ep & Himg & Hint')
  end.
  rewrite Ep. unfold bind at 1, lift at 1, index. rewrite Himg. simpl lookup.
  unfold bind at 1, modify_state at 1, ret.
  eexists. eexists. exists img, pr, cp, s'. split; [reflexivity|].
  split; [exact Ep|]. split; [now rewrite Himg|].
  simpl. repeat split; try reflexivity.
  - destruct Hshape as [-> | [c ->]]; reflexivity.
  - destruct Hshape as [-> | [c ->]]; reflexivity.
  - destruct Hshape as [-> | [c ->]]; reflexivity.
  - destruct Hshape as [-> | [c ->]]; reflexivity.
  - destruct Hshape as [-> | [c ->]]; reflexivity.
  - destruct Hshape as [-> | [c ->]]; reflexivity.
  - now apply Hclose.
Qed.

Lemma same_but_pipeline_trans (w1 w2 w3 : W) :
  same_but_pipeline w1 w2 -> same_but_pipeline w2 w3 -> same_but_pipeline w1 w3.
Proof.
  intros (a1 & a2 & a3 & a4 & a5 & a6) (b1 & b2 & b3 & b4 & b5 & b6).
  repeat split; congruence.
Qed.

(** The loop over the frames [rest] that follow [pre], with a cooperative
    host: the requests it submits, the results the host gives for them,
    and the images it attaches. *)
Lemma frame_loop_completes (p : Request T correction) (cc : string) :
  cooperative_host env ->
  forall (rest pre : list VideoVeilImage) (l : locals T correction) (w : W),
  frames (l_source_video l) = pre ++ rest ->
  interrupted (state w) = false ->
  exists l' w' reqs imgs,
    frame_loop env p cc (seq (length pre) (length rest)) l w = (Ok l', w')
    /\ Forall2 request_for_frame rest reqs
    /\ pipeline_calls w' = pipeline_calls w ++ reqs
    /\ same_but_pipeline w w'
    /\ interrupted (state w') = false
    /\ map (fun pr => images pr !! 0%nat) (host_pass env reqs (state w))
       = map (fun img => Some (Some img)) imgs
    /\ l_source_video l'
       = set_frames
           (pre ++ zip_with (fun f img => set_transformed_image f (Some img)) rest imgs)
           (l_source_video l)
    /\ (rest <> [] ->
        l_proc l' = last (host_pass env reqs (state w))
        /\ exists pr cp, l_proc l' = Some pr /\ l_cp l' = Some cp
                         /\ outpath_samples cp = outpath_samples p).
Proof.
  intros Hhost. induction rest as [|f rest IH]; intros pre l w Hfs Hint.
  - exists l, w, [], []. rewrite app_nil_r in Hfs.
    split; [reflexivity|]. split; [constructor|].
    split; [now rewrite app_nil_r|]. split; [repeat split|].
    split; [exact Hint|]. split; [reflexivity|].
    split; [|congruence].
    cbn [zip_with]. rewrite app_nil_r, <- Hfs. now destruct (l_source_video l).
  - simpl length. simpl seq. simpl frame_loop.
    unfold bind at 1, modify_state at 1. unfold bind at 1, get_state at 1.
    cbn [state set_state].
    assert (Hint1 : interrupted (if skipped (state w) then set_skipped false (state w)
                                 else state w) = false)
      by (destruct (skipped (state w)); exact Hint).
    rewrite Hint1.
    assert (Hi : frames (l_source_video l) !! length pre = Some f)
      by (rewrite Hfs; apply list_lookup_middle; reflexivity).
    destruct (process_frame_completes p cc (length pre) l
                (set_state (if skipped (state w) then set_skipped false (state w)
                            else state w) w) f Hhost Hint1 Hi)
      as (l1 & w1 & img & pr & cp & s1 & Ep & Ehost & Himg & Hst1 & Hsv & Hpr & Hcp
          & Hout & Hreq & Hcalls & Hsame & Hint2).
    rewrite (bind_ok _ _ _ _ _ Ep).
    assert (Hfs1 : frames (l_source_video l1)
                   = (pre ++ [set_transformed_image f (Some img)]) ++ rest).
    { rewrite Hsv. simpl frames. rewrite Hfs.
      replace (length pre) with (length pre + 0)%nat by lia.
      rewrite insert_app_r. simpl. now rewrite <- app_assoc. }
    destruct (IH _ l1 w1 Hfs1 Hint2)
      as (l' & w' & reqs & imgs & E & Hreqs & Hcalls' & Hsame' & Hint' & Hhost'
          & Hsv' & Hlast).
    rewrite length_app in E. simpl length in E.
    replace (length pre + 1)%nat with (S (length pre)) in E by lia.
    assert (Hpass : host_pass env (cp :: reqs) (state w)
                    = pr :: host_pass env reqs (state w1)).
    { cbn [host_pass]. unfold state_at_submission. cbn [state set_state] in Ehost.
      rewrite Ehost, Hst1. reflexivity. }
    exists l', w', (cp :: reqs), (img :: imgs).
    split; [exact E|].
    split; [constructor; assumption|].
    split; [rewrite Hcalls', Hcalls; simpl; now rewrite <- app_assoc|].
    split; [eapply same_but_pipeline_trans; [|exact Hsame'];
            eapply same_but_pipeline_trans; [|exact Hsame]; repeat split|].
    split; [exact Hint'|].
    split; [rewrite Hpass; cbn [map]; now rewrite Himg, Hhost'|].
    split; [rewrite Hsv', Hsv; rewrite <- app_assoc; reflexivity|].
    intros _. rewrite Hpass. destruct rest as [|g rest].
    + simpl in E. unfold ret in E. injection E as <- _.
      inversion Hreqs; subst. cbn [host_pass last].
      split; [exact Hpr|]. exists pr, cp. repeat split; assumption.
    + destruct (Hlast ltac:(discriminate)) as (Hl & pr' & cp' & Hpr' & Hcp' & Hout').
      split.
      * rewrite Hl. destruct (host_pass env reqs (state w1)) as [|q qs] eqn:Eq.
        { rewrite Hl in Hpr'. discriminate Hpr'. }
        reflexivity.
      * exists pr', cp'. repeat split; assumption.
Qed.

Lemma source_init_selected use_dir video dir test count (w w' : W) sv :
  VideoVeilSourceVideo_init env use_dir video dir test count true w = (Ok sv, w') ->
  exists name, original_file_name sv = Some name.
Proof.
  intros E.
  destruct (source_init_fields env _ _ _ _ _ _ _ _ _ E) as (Hu & Hv & Hd & _).
  unfold original_file_name. rewrite Hu, Hv, Hd.
  unfold VideoVeilSourceVideo_init in E.
  destruct use_dir.
  - destruct dir as [d|]; [eexists; reflexivity | discriminate].
  - destruct video as [f|]; [eexists; reflexivity | discriminate].
Qed.

Lemma transformed_images_of_zip (rest : list VideoVeilImage) (imgs : list Image) :
  length imgs = length rest ->
  map transformed_image
    (zip_with (fun f img => set_transformed_image f (Some img)) rest imgs)
  = map Some imgs.
Proof.
  revert imgs. induction rest as [|f rest IH]; intros [|img imgs] Hlen;
    try discriminate; [reflexivity|].
  simpl. rewrite IH by (simpl in Hlen; lia). reflexivity.
Qed.

Lemma host_pass_length (reqs : list (Request T correction))
    (s : shared_state host_state) :
  (length (host_pass env reqs s) <= length reqs)%nat.
Proof.
  revert s. induction reqs as [|cp reqs IH]; intros s; simpl; [lia|].
  destruct (process_images env cp (state_at_submission s)) as [[pr|e] s']; simpl.
  - specialize (IH (p_close env cp s')). lia.
  - lia.
Qed.

(** With a host that processes every request, a run over a store with
    frames submits one request per frame, in frame order; the images it
    returns are, in that order, the first image of each result the host
    gave for these requests, and its seed is that of the last result.
    Outside a test run it writes exactly these images into one released
    video; a test run writes no video. *)
Theorem run_processes_every_frame (p : Request T correction)
    (use_dir : bool) (video dir : option string) (cc : string) (test : bool)
    (count : Z) (w w1 : W) (sv : VideoVeilSourceVideo) :
  cooperative_host env ->
  negb (is_blank video) || negb (is_blank dir) = true ->
  VideoVeilSourceVideo_init env use_dir video dir test count true w = (Ok sv, w1) ->
  frames sv <> [] ->
  interrupted (state w) = false ->
  exists res w' reqs imgs,
    run env p use_dir video dir cc test count w = (Ok res, w')
    /\ Forall2 request_for_frame (frames sv) reqs
    /\ pipeline_calls w' = pipeline_calls w ++ reqs
    /\ (let results :=
          host_pass env reqs
            (set_job_no 0
               (set_job_count (Z.of_nat (length (frames sv)) * n_iter p) (state w))) in
        length results = length (frames sv)
        /\ map (fun pr => images pr !! 0%nat) results
           = map (fun img => Some (Some img)) imgs
        /\ Some (seed res) = seed <$> last results)
    /\ images res = map Some imgs
    /\ if test
       then videos w' = videos w
       else exists name,
              original_file_name sv = Some name
              /\ let path := join (outpath_samples p) "video-veil-output" +:+ "/"
                             +:+ spec_file_name env (seed res) name in
                 videos w'
                 = {| vpath := path; fourcc := "mp4v";
                      vfps := spec_frame_rate env sv;
                      vsize := (video_width sv, video_height sv);
                      written := map (fun img => cvtColor_RGB2BGR (np_array img)) imgs;
                      released := true |} :: videos w.
Proof.
  intros Hhost Hen Einit Hfs Hint.
  pose proof (io_only_source_init env use_dir video dir test count true w) as Hio.
  rewrite Einit in Hio. destruct Hio as (Hst & _ & Hpc & _ & _ & Hvid & Hgal & _).
  simpl in Hst, Hpc, Hvid, Hgal.
  destruct (source_init_fields env _ _ _ _ _ _ _ _ _ Einit) as (_ & _ & _ & Htest).
  destruct (source_init_selected _ _ _ _ _ _ _ _ Einit) as [name Hname].
  rewrite (run_after_construction _ _ _ _ _ _ _ _ _ _ Hen Einit).
  assert (Hpos : (0 <? length (frames sv))%nat = true).
  { destruct (frames sv); [congruence | reflexivity]. }
  rewrite Hpos. unfold range. rewrite Nat.sub_0_r.
  unfold bind at 1. unfold bind at 1, modify_state at 1.
  unfold bind at 1, modify_state at 1.
  match goal with |- context [bind (frame_loop env p cc _ ?l) _ ?w0] =>
    destruct (frame_loop_completes p cc Hhost (frames sv) [] l w0 eq_refl)
      as (l' & w2 & reqs & imgs & E & Hreqs & Hcalls & Hsame & Hint2 & Hpass
          & Hsv & Hlast);
      [simpl; now rewrite Hst|]
  end.
  simpl length in E. simpl app in Hsv. cbn [l_source_video] in Hsv.
  cbn [state set_state] in Hpass, Hlast. rewrite Hst in Hpass, Hlast.
  rewrite (bind_ok _ _ _ _ _ E).
  destruct (Hlast Hfs) as (Hl & pr & cp & Hpr & Hcp & Hout).
  rewrite Hpr, Hcp. unfold read_local at 1 2. unfold bind at 1, ret at 1.
  unfold bind at 1, ret at 1. rewrite Hout. cbn [seed].
  assert (Hlen_imgs : length imgs = length (frames sv)).
  { apply Nat.le_antisymm.
    - rewrite <- (length_map (fun img => Some (Some img)) imgs), <- Hpass, length_map.
      rewrite (Forall2_length _ _ _ Hreqs). apply host_pass_length.
    - destruct (le_lt_dec (length (frames sv)) (length imgs)) as [Hle|Hlt]; [exact Hle|].
      exfalso.
      assert (Hz : length (frames (l_source_video l')) = length imgs).
      { rewrite Hsv. cbn [frames set_frames]. rewrite length_zip_with. lia. }
      pose proof (frame_loop_keeps_frames _ _ _ _ _ _ _ E) as [Hkeep _].
      apply Forall2_length in Hkeep. cbn [l_source_video] in Hkeep. lia. }
  assert (Hmap : map transformed_image (frames (l_source_video l')) = map Some imgs).
  { rewrite Hsv. cbn [frames set_frames]. now apply transformed_images_of_zip. }
  assert (Hres : length (host_pass env reqs
                   (set_job_no 0
                      (set_job_count (Z.of_nat (length (frames sv)) * n_iter p)
                         (state w))))
                 = length (frames sv)).
  { rewrite <- (length_map (fun pr => images pr !! 0%nat)), Hpass, length_map.
    exact Hlen_imgs. }
  destruct Hsame as (_ & _ & _ & _ & Hvid2 & Hgal2).
  simpl in Hcalls, Hvid2, Hgal2.
  destruct test.
  - unfold create_mp4. rewrite Hsv. cbn [test_run set_frames]. rewrite Htest.
    unfold bind at 1, ret at 1. unfold ret at 1. simpl.
    eexists. exists w2, reqs, imgs. split; [reflexivity|].
    cbn [images seed frames]. rewrite (transformed_images_of_zip _ _ Hlen_imgs).
    split; [exact Hreqs|]. split; [congruence|].
    split; [split; [exact Hres|]; split; [exact Hpass|]; rewrite <- Hl, Hpr; reflexivity|].
    split; [reflexivity | congruence].
  - destruct (create_mp4_writes (l_source_video l') (seed pr) (outpath_samples p)
                w2 name imgs) as (w3 & Emp4 & Hv3 & Hg3 & Hp3).
    { rewrite Hsv. exact Htest. }
    { rewrite Hsv. exact Hname. }
    { exact Hmap. }
    rewrite (bind_ok _ _ _ _ _ Emp4). unfold ret, read_local. simpl.
    eexists. exists w3, reqs, imgs. split; [reflexivity|].
    cbn [images seed]. rewrite Hmap.
    split; [exact Hreqs|]. split; [congruence|].
    split; [split; [exact Hres|]; split; [exact Hpass|]; rewrite <- Hl, Hpr; reflexivity|].
    split; [reflexivity|].
    exists name. split; [exact Hname|]. cbv zeta.
    rewrite Hv3, Hsv, Hvid2, Hvid. reflexivity.
Qed.

End RunFacts.

(* ===================================================================== *)
(** ** Theorems: the inversion at its edges, and the sampling closure      *)
(* ===================================================================== *)

Section InversionEdgeFacts.

Context {T : Type} `{TensorOps T} {host_state correction : Type}.
Variable env : Env T host_state correction.
Abbreviation W := (World T host_state correction).
Abbreviation Mw := (@M T host_state correction).

(** *** What the inversion touches *)

Lemma at_most_weaken {A} (n n' : nat) (m : Mw A) :
  (n <= n')%nat -> calls_model_at_most n m -> calls_model_at_most n' m.
Proof.
  intros Hle Hm w. destruct (Hm w) as (a & b & c & d & e & f & more & Hmore & Hlen).
  repeat split; try assumption. exists more. split; [assumption | lia].
Qed.

Lemma at_most_ret {A} (a : A) : calls_model_at_most 0 (ret a : Mw A).
Proof. intros w. repeat split. exists []. now rewrite app_nil_r. Qed.

Lemma at_most_raise {A} (e : exn) : calls_model_at_most 0 (raise e : Mw A).
Proof. intros w. repeat split. exists []. now rewrite app_nil_r. Qed.

Lemma at_most_lift {A} (r : result A) : calls_model_at_most 0 (lift r : Mw A).
Proof. intros w. repeat split. exists []. now rewrite app_nil_r. Qed.

Lemma at_most_modify_state (f : shared_state host_state -> shared_state host_state) :
  calls_model_at_most 0 (modify_state f : Mw unit).
Proof. intros w. repeat split. exists []. now rewrite app_nil_r. Qed.

Lemma at_most_unpack2 {A} (l : list A) : calls_model_at_most 0 (unpack2 l : Mw (A * A)).
Proof.
  destruct l as [|a [|b [|c l]]]; simpl;
    first [apply at_most_ret | apply at_most_raise].
Qed.

Lemma at_most_call_apply_model (m : sd_model) (x t : T) (c : cond_dict) :
  calls_model_at_most 1 (call_apply_model m x t c : Mw T).
Proof. intros w. repeat split. exists [(x, t, c)]. split; [reflexivity | simpl; lia]. Qed.

Lemma at_most_bind {A B} (n k : nat) (m : Mw A) (f : A -> Mw B) :
  calls_model_at_most n m -> (forall a, calls_model_at_most k (f a)) ->
  calls_model_at_most (n + k) (bind m f).
Proof.
  intros Hm Hf w. unfold bind.
  destruct (Hm w) as (a1 & a2 & a3 & a4 & a5 & a6 & more & Hmore & Hlen).
  destruct (m w) as [[a|e] w1]; simpl in *.
  - destruct (Hf a w1) as (b1 & b2 & b3 & b4 & b5 & b6 & more' & Hmore' & Hlen').
    repeat split; try congruence.
    exists (more ++ more'). split.
    + rewrite Hmore', Hmore. now rewrite app_assoc.
    + rewrite length_app. lia.
  - repeat split; try assumption. exists more. split; [assumption | lia].
Qed.

Lemma at_most_for_each {A X} (n : nat) (body : A -> X -> Mw X) (l : list A) :
  (forall a x, calls_model_at_most n (body a x)) ->
  forall x, calls_model_at_most (length l * n) (for_each body l x).
Proof.
  intros Hbody. induction l as [|a l IH]; intros x; simpl.
  - apply at_most_ret.
  - apply at_most_bind; [apply Hbody | intros x'; apply IH].
Qed.

Lemma at_most_inversion_step dnw skip (p : Request T correction) cond uncond g
    sigmas s_in i x :
  calls_model_at_most 1 (inversion_step env dnw skip p cond uncond g sigmas s_in i x).
Proof.
  unfold inversion_step.
  apply (at_most_bind 0 1); [apply at_most_lift | intros sigma_prev].
  apply (at_most_bind 0 1); [apply at_most_unpack2 | intros scalings].
  apply (at_most_bind 0 1).
  { destruct (Nat.eqb i 1); [|apply at_most_ret].
    apply (at_most_bind 0 0); [apply at_most_lift | intros; apply at_most_ret]. }
  intros t.
  apply (at_most_bind 1 0); [apply at_most_call_apply_model | intros eps].
  destruct (chunk2 _) as [du dc].
  apply (at_most_bind 0 0).
  { destruct (Nat.eqb i 1); [|apply at_most_ret].
    apply (at_most_bind 0 0); [apply at_most_lift | intros; apply at_most_ret]. }
  intros d.
  apply (at_most_bind 0 0); [apply at_most_lift | intros sigma_i].
  apply (at_most_bind 0 0); [apply at_most_modify_state | intros; apply at_most_ret].
Qed.

(** However the inversion ends -- with a noise tensor or with an exception
    -- it has called the model at most once per step of the schedule, and
    it has submitted nothing to the pipeline, called no sampler, read no
    file, made no directory, written no video and shown nothing in the
    gallery. *)
Theorem inversion_touches_model_only (p : Request T correction)
    (cond uncond : T) (cfg_scale : Q) (steps : Z) :
  calls_model_at_most (length (get_sigmas (fst (model_wrapper env)) steps) - 1)
    (find_noise_for_image_sigma_adjustment env p cond uncond cfg_scale steps).
Proof.
  unfold find_noise_for_image_sigma_adjustment.
  destruct (model_wrapper env) as [dnw skip]. simpl fst.
  eapply at_most_weaken; cycle 1.
  { apply (at_most_bind 0); [apply at_most_modify_state | intros _].
    eapply (at_most_bind _ 0).
    { apply (at_most_for_each 1). intros i x. apply at_most_inversion_step. }
    intros x.
    apply (at_most_bind 0 0); [apply at_most_modify_state | intros _].
    apply (at_most_bind 0 0); [apply at_most_lift | intros; apply at_most_ret]. }
  unfold range. rewrite length_seq, length_reverse. lia.
Qed.

(** *** Degenerate schedules *)

(** A schedule with fewer than two entries leaves nothing to iterate over:
    the model is not called, the job is still advanced, and the result is
    the initial latent over the only sigma -- or, with no sigma at all, the
    [IndexError] of [sigmas[-1]]. *)
Theorem inversion_short_schedule (p : Request T correction)
    (cond uncond : T) (cfg_scale : Q) (steps : Z) (w : W) :
  (length (get_sigmas (fst (model_wrapper env)) steps) <= 1)%nat ->
  find_noise_for_image_sigma_adjustment env p cond uncond cfg_scale steps w
  = (match get_sigmas (fst (model_wrapper env)) steps with
     | [] => Raise IndexError
     | sigma :: _ => Ok (init_latent p / sigma)%tensor
     end,
     set_state (nextjob env (set_sampling_steps steps (state w))) w).
Proof.
  unfold find_noise_for_image_sigma_adjustment.
  destruct (model_wrapper env) as [dnw skip]. simpl fst. intros Hlen.
  destruct (get_sigmas dnw steps) as [|sigma [|sigma' l]]; [| |simpl in Hlen; lia].
  - reflexivity.
  - reflexivity.
Qed.

(** A wrapper whose scalings, after the skipped ones, are not exactly two
    makes the first iteration fail at the unpacking: [ValueError] before
    any model call, with [sampling_steps] already set and the job never
    advanced. *)
Theorem inversion_wrong_scalings (p : Request T correction)
    (cond uncond : T) (cfg_scale : Q) (steps : Z) (w : W) :
  (2 <= length (get_sigmas (fst (model_wrapper env)) steps))%nat ->
  (forall sg, length (drop (snd (model_wrapper env))
                        (get_scalings (fst (model_wrapper env)) sg)) <> 2%nat) ->
  find_noise_for_image_sigma_adjustment env p cond uncond cfg_scale steps w
  = (Raise ValueError, set_state (set_sampling_steps steps (state w)) w).
Proof.
  unfold find_noise_for_image_sigma_adjustment.
  destruct (model_wrapper env) as [dnw skip]. simpl fst. simpl snd.
  intros Hlen Hsc.
  assert (Hrev : (2 <= length (reverse (get_sigmas dnw steps)))%nat)
    by now rewrite length_reverse.
  destruct (reverse (get_sigmas dnw steps)) as [|s0 [|s1 sigmas]] eqn:Erev;
    [simpl in Hrev; lia | simpl in Hrev; lia |].
  unfold bind at 1, modify_state at 1.
  unfold range. simpl length. simpl seq. simpl for_each.
  unfold bind at 1. unfold bind at 1.
  unfold inversion_step at 1. unfold bind at 1, lift at 1, index. simpl lookup.
  unfold bind at 1.
  match goal with |- context [unpack2 ?l] =>
    assert (Hl : length l <> 2%nat) by (rewrite length_map; apply Hsc);
    destruct l as [|a [|b [|c l']]]; simpl in Hl; try lia; reflexivity
  end.
Qed.

(** *** The closure [sample_extra] *)

Lemma world_after_steps_others dnw skip (p : Request T correction) cond uncond g
    sigmas n : forall k (w : W),
  sampler_calls (world_after_steps env dnw skip p cond uncond g sigmas k n w)
  = sampler_calls w
  /\ pipeline_calls (world_after_steps env dnw skip p cond uncond g sigmas k n w)
     = pipeline_calls w.
Proof.
  induction n as [|n IH]; intros k w; [now split|].
  cbn [world_after_steps]. cbv zeta.
  split; [rewrite (proj1 (IH _ _)) | rewrite (proj2 (IH _ _))]; reflexivity.
Qed.

(** Under the interface assumptions of the inversion, and with a sampler
    schedule that has a first sigma, one call of [sample_extra] counts one
    more job, calls the model once per step, and then calls the sampler
    exactly once: on the request's own initial latent, with the recovered
    noise minus that latent over the first sigma, and with the two
    conditionings it was given.  The frame it closed over plays no part. *)
Theorem sample_extra_feeds_recovered_noise (cp : Request T correction)
    (frame : VideoVeilImage) (pos neg : string) (c uc : T) (s : nat)
    (sigma_0 : T) (rest : list T) (w : W) :
  let dnw := fst (model_wrapper env) in
  let skip := snd (model_wrapper env) in
  let smp := create_sampler env (sampler_name cp) (p_sd_model cp) in
  let rec_noise :=
    spec_invert (shared_sd_model env) dnw skip cp
      (get_learned_conditioning (p_sd_model cp) [pos])
      (get_learned_conditioning (p_sd_model cp) [neg]) 1
      (reverse (get_sigmas dnw (steps cp))) s in
  let noise := (rec_noise - init_latent cp / sigma_0)%tensor in
  length (get_sigmas dnw (steps cp)) = S s ->
  (forall sg, length (get_scalings dnw sg) = (skip + 2)%nat) ->
  model_wrap_get_sigmas smp (steps cp) = sigma_0 :: rest ->
  exists st w',
    sample_extra env cp frame pos neg c uc w
    = (fst (sample_img2img smp cp (init_latent cp) noise c uc
              (image_conditioning cp) st), w')
    /\ state w' = snd (sample_img2img smp cp (init_latent cp) noise c uc
                         (image_conditioning cp) st)
    /\ sampler_calls w' = sampler_calls w ++ [(cp, init_latent cp, noise)]
    /\ length (model_calls w') = (length (model_calls w) + s)%nat
    /\ pipeline_calls w' = pipeline_calls w.
Proof.
  intros dnw skip smp rec_noise noise Hlen Hsc Hsig.
  unfold sample_extra. unfold bind at 1, modify_state at 1.
  erewrite bind_ok; [| apply (find_noise_spec env cp _ _ 1 (steps cp) s _ Hlen Hsc)].
  fold dnw skip smp. fold rec_noise. cbv zeta.
  rewrite Hsig. unfold bind at 1, lift at 1, index. simpl lookup. cbv iota.
  fold noise.
  unfold call_sample_img2img.
  match goal with |- context [sample_img2img smp cp _ _ _ _ _ ?st0] =>
    exists st0; destruct (sample_img2img smp cp (init_latent cp) noise c uc
                            (image_conditioning cp) st0) as [r st'] eqn:Es
  end.
  eexists. split; [reflexivity|]. simpl.
  destruct (world_after_steps_others dnw skip cp
              (get_learned_conditioning (p_sd_model cp) [pos])
              (get_learned_conditioning (p_sd_model cp) [neg]) 1
              (reverse (get_sigmas dnw (steps cp))) s 0
              (set_state
                 (set_sampling_steps (steps cp)
                    (set_job_count (job_count (state w) + 1) (state w)))
                 (set_state (set_job_count (job_count (state w) + 1) (state w)) w)))
    as [Hsc' Hpc'].
  simpl in Hsc', Hpc'.
  repeat split.
  - now rewrite Hsc'.
  - rewrite model_calls_after_steps. simpl.
    now rewrite length_app, length_map, length_seq.
  - exact Hpc'.
Qed.

End InversionEdgeFacts.

(* ===================================================================== *)
(** ** Theorems: the user-interface callbacks                              *)
(* ===================================================================== *)

Section PreviewFacts.

Context {T : Type} `{TensorOps T} {host_state correction : Type}.
Variable env : Env T host_state correction.
Abbreviation W := (World T host_state correction).
Abbreviation Mw := (@M T host_state correction).

(** When the selected source -- the folder in folder mode, the video file
    otherwise -- is not given or does not exist, the preview callback does
    not fail and does not touch the file system: it clears the img2img
    image and resets both sliders to 512.  The "Invalid source" message is
    shown only if the video field holds a value and the folder field holds
    a non-empty one, whichever of the two is the selected source. *)
Theorem preview_without_source (use_dir : bool) (video dir : option string) (w : W) :
  path_missing env (if use_dir then dir else video) = true ->
  video_src_change env use_dir video dir w
  = (Ok {| img2img_component_value := None;
           img2img_w_slider_value := 512;
           img2img_h_slider_value := 512;
           video_source_info_value :=
             "<div style='color: red'>"
             +:+ (if nothing_selected video dir then ""
                  else "Invalid source, unable to parse video frames from input.")
             +:+ "</div>" |}, w).
Proof.
  intros Hmiss. unfold video_src_change, VideoVeilSourceVideo_init.
  destruct use_dir; rewrite Hmiss; reflexivity.
Qed.

(** For a video that opens and has a first frame, the preview callback
    decodes exactly that one frame: it shows the frame converted from BGR to
    RGB and sets the sliders to the frame's width and height. *)
Theorem preview_of_video (f : string) (dir : option string) (arr : ndarray)
    (rest : list ndarray) (w : W) :
  os_path_exists env f = true ->
  isOpened (VideoCapture env f) = true ->
  stream (VideoCapture env f) = arr :: rest ->
  let rows := length arr in
  let cols := match arr with row :: _ => length row | [] => 0%nat end in
  exists w',
    video_src_change env false (Some f) dir w
    = (Ok {| img2img_component_value := Some (Image_fromarray (cvtColor_BGR2RGB arr));
             img2img_w_slider_value := Z.of_nat cols;
             img2img_h_slider_value := Z.of_nat rows;
             video_source_info_value :=
               "<div style='color: #333'>Video Frames found: "
               +:+ str_int (Z.of_nat cols) +:+ "x" +:+ str_int (Z.of_nat rows)
               +:+ "px</div>" |}, w')
    /\ io_log w' = io_log w ++ [IoVideoCapture f; IoCapRead f]
    /\ same_but_io w w'.
Proof.
  intros Hex Hop Hst rows cols.
  assert (Hpm : path_missing env (Some f) = false) by (simpl; now rewrite Hex).
  unfold video_src_change, VideoVeilSourceVideo_init. rewrite Hpm.
  unfold _load_frames_from_video. cbn [video_path].
  unfold bind at 3, call_VideoCapture. unfold bind at 2. unfold bind at 1.
  rewrite Hop, Hst. cbn [negb test_run_frames_count set_frames default].
  cbn [read_frames frame_cap_reached length]. simpl Z.leb. cbv iota.
  unfold bind at 1. unfold bind at 1. cbn [lift VideoVeilImage_init shape].
  destruct rest as [|arr' rest'];
    cbn [read_frames frame_cap_reached length app]; simpl Z.leb; cbv iota;
    cbn [ret frames set_frames _set_video_dimensions set_dimensions fst snd];
    (eexists; split; [reflexivity|]);
    (split; [cbn [io_log log_io]; now rewrite <- app_assoc|]);
    repeat split; exists [IoVideoCapture f; IoCapRead f];
    cbn [io_log log_io]; now rewrite <- app_assoc.
Qed.

(** For a folder, the preview callback lists it once and opens only the
    first name with an image extension; what it shows is that image,
    converted to RGB unless it is RGB already. *)
Theorem preview_of_folder (d : string) (video : option string)
    (listing : list string) (name : string) (others : list string)
    (img : Image) (w : W) :
  os_path_exists env d = true ->
  os_listdir env d = Ok listing ->
  filter (fun n => has_image_extension n = true) listing = name :: others ->
  Image_open env (join d name) = Ok img ->
  let shown := if String.eqb (mode img) "RGB" then img else Image_convert_RGB img in
  exists w',
    video_src_change env true video (Some d) w
    = (Ok {| img2img_component_value := Some shown;
            img2img_w_slider_value :=
              Z.of_nat (match pixels img with row :: _ => length row | [] => 0%nat end);
            img2img_h_slider_value := Z.of_nat (length (pixels img));
            video_source_info_value :=
              "<div style='color: #333'>Video Frames found: "
              +:+ str_int (Z.of_nat (match pixels img with
                                     | row :: _ => length row | [] => 0%nat end))
              +:+ "x" +:+ str_int (Z.of_nat (length (pixels img)))
              +:+ "px</div>" |}, w')
    /\ io_log w' = io_log w ++ [IoListdir d; IoImageOpen (join d name)]
    /\ same_but_io w w'.
Proof.
  intros Hex Hls Hnames Himg shown.
  assert (Hpm : path_missing env (Some d) = false) by (simpl; now rewrite Hex).
  unfold video_src_change, VideoVeilSourceVideo_init. rewrite Hpm.
  unfold _load_frames_from_folder. cbn [directory_upload_path default].
  unfold bind at 3, call_listdir. unfold bind at 2. unfold bind at 1.
  change (id d) with d.
  rewrite Hls, Hnames. cbn [length Nat.leb test_run_frames_count negb].
  cbn [load_images frame_cap_reached length]. simpl Z.leb. cbv iota.
  unfold bind at 1. unfold bind at 1. unfold bind at 1. unfold bind at 1.
  cbn [ret]. unfold call_Image_open. rewrite Himg.
  assert (Hshown : (if negb (String.eqb (mode img) "RGB")
                    then Image_convert_RGB img else img) = shown).
  { unfold shown. now destruct (String.eqb (mode img) "RGB"). }
  rewrite Hshown.
  assert (Hpix : pixels shown = pixels img).
  { unfold shown. now destruct (String.eqb (mode img) "RGB"). }
  cbn [lift VideoVeilImage_init np_array shape].
  unfold np_array. rewrite Hpix.
  change (1 <=? Z.of_nat 0)%Z with false. cbv iota.
  destruct others as [|name' others'];
    cbn [load_images frame_cap_reached length app]; simpl Z.leb; cbv iota;
    cbn [ret frames set_frames _set_video_dimensions set_dimensions fst snd];
    (eexists; split; [reflexivity|]);
    (split; [cbn [io_log log_io]; now rewrite <- app_assoc|]);
    repeat split; exists [IoListdir d; IoImageOpen (join d name)];
    cbn [io_log log_io]; now rewrite <- app_assoc.
Qed.

End PreviewFacts.

Section ComponentFacts.

Variable component : Type.
Variable elem_id : component -> option string.

Lemma has_one_elem_id (c : component) (a b : string) :
  a <> b -> has_elem_id component elem_id c a = true ->
  has_elem_id component elem_id c b = false.
Proof.
  unfold has_elem_id. intros Hab Ha. destruct (elem_id c) as [s|]; [|discriminate].
  apply String.eqb_eq in Ha. subst s. now apply String.eqb_neq.
Qed.

(** After the host has announced its components one by one, each of the
    four slots of the script holds the last announced component that
    carries the slot's [elem_id] -- or what it held before, if there was
    none -- and the source video of the script is untouched. *)
Theorem after_components_keeps_last (self : Script component) (cs : list component) :
  let self' := after_components component elem_id self cs in
  img2img_component component self'
  = last_with_id component elem_id "img2img_image" (img2img_component component self) cs
  /\ img2img_gallery component self'
     = last_with_id component elem_id "img2img_gallery"
         (img2img_gallery component self) cs
  /\ img2img_w_slider component self'
     = last_with_id component elem_id "img2img_width"
         (img2img_w_slider component self) cs
  /\ img2img_h_slider component self'
     = last_with_id component elem_id "img2img_height"
         (img2img_h_slider component self) cs
  /\ script_source_video component self' = script_source_video component self.
Proof.
  cbv zeta. revert self. induction cs as [|c cs IH]; intros self.
  - repeat split.
  - unfold after_components, last_with_id in *. cbn [fold_left].
    destruct (IH (fst (after_component component elem_id self c)))
      as (H1 & H2 & H3 & H4 & H5).
    rewrite H1, H2, H3, H4, H5. clear IH H1 H2 H3 H4 H5.
    unfold after_component.
    destruct (has_elem_id component elem_id c "img2img_image") eqn:E1.
    { rewrite (has_one_elem_id c "img2img_image" "img2img_gallery") by (exact E1 || discriminate).
      rewrite (has_one_elem_id c "img2img_image" "img2img_width") by (exact E1 || discriminate).
      rewrite (has_one_elem_id c "img2img_image" "img2img_height") by (exact E1 || discriminate).
      repeat split. }
    destruct (has_elem_id component elem_id c "img2img_gallery") eqn:E2.
    { rewrite (has_one_elem_id c "img2img_gallery" "img2img_width") by (exact E2 || discriminate).
      rewrite (has_one_elem_id c "img2img_gallery" "img2img_height") by (exact E2 || discriminate).
      repeat split. }
    destruct (has_elem_id component elem_id c "img2img_width") eqn:E3.
    { rewrite (has_one_elem_id c "img2img_width" "img2img_height") by (exact E3 || discriminate).
      repeat split. }
    destruct (has_elem_id component elem_id c "img2img_height") eqn:E4;
      repeat split.
Qed.

End ComponentFacts.

Section NamingFacts.

Context {T : Type} `{TensorOps T} {host_state correction : Type}.
Variable env : Env T host_state correction.
Abbreviation W := (World T host_state correction).

Lemma has_slash_trailing (x : string) : has_slash (x +:+ "/") = true.
Proof.
  induction x as [|c x IH]; [reflexivity|].
  change (String c x +:+ "/") with (String c (x +:+ "/")).
  cbn [has_slash]. rewrite IH. apply orb_true_r.
Qed.

Lemma basename_trailing_slash (x : string) : basename (x +:+ "/") = "".
Proof.
  induction x as [|c x IH]; [reflexivity|].
  change (String c x +:+ "/") with (String c (x +:+ "/")).
  cbn [basename]. destruct x as [|c' x'].
  - cbn [append has_slash]. simpl. destruct (Ascii.eqb c slash); reflexivity.
  - rewrite has_slash_trailing. exact IH.
Qed.

(** A folder path typed with a trailing slash has an empty base name: the
    video assembled from that folder is named after the time and the seed
    only, [<time>-<seed>-.mp4]. *)
Theorem folder_with_trailing_slash_names_video (self : VideoVeilSourceVideo)
    (d : string) (seed : Z) (output_directory : string) (imgs : list Image)
    (w : W) :
  use_images_directory self = true ->
  directory_upload_path self = Some (d +:+ "/") ->
  test_run self = false ->
  map transformed_image (frames self) = map Some imgs ->
  exists sv w' v,
    create_mp4 env self seed output_directory true w = (Ok sv, w')
    /\ videos w' = v :: videos w
    /\ vpath v = join output_directory "video-veil-output" +:+ "/"
                 +:+ strftime (datetime_now_utc env) +:+ "-" +:+ str_int seed
                 +:+ "-.mp4"
    /\ output_path sv = Some (vpath v).
Proof.
  intros Huse Hd Ht Himgs.
  destruct (create_mp4_writes env self seed output_directory w ".mp4" imgs Ht)
    as (w' & E & Hv & _); [|exact Himgs|].
  { unfold original_file_name. rewrite Huse, Hd. simpl.
    now rewrite basename_trailing_slash. }
  eexists. exists w'. eexists. split; [exact E|]. split; [exact Hv|].
  split; reflexivity.
Qed.

End NamingFacts.

(* ===================================================================== *)
(** ** The theorems at work in the concrete world                          *)
(* ===================================================================== *)

Section DemoFacts.

Import Demo.

Example basename_examples :
  basename "/tmp/in/clip.mp4" = "clip.mp4" /\ basename "frames/" = ""
  /\ basename "frames" = "frames".
Proof. repeat split. Qed.

Example join_examples :
  join "out" "video-veil-output" = "out/video-veil-output"
  /\ join "out/" "x" = "out/x" /\ join "" "x" = "x" /\ join "a" "/x" = "/x".
Proof. repeat split. Qed.

Example endswith_examples :
  endswith "a.png" ".png" = true /\ endswith "png" ".png" = false
  /\ has_image_extension "b.jpeg" = true /\ has_image_extension "b.JPG" = false.
Proof. repeat split. Qed.

Example strftime_example :
  strftime {| year := 2023; month := 4; day := 9; hour := 7; minute := 30; second := 5 |}
  = "2023-04-09T07-30-05".
Proof. reflexivity. Qed.

Example str_int_examples : str_int 1234 = "1234" /\ str_int (-1) = "-1" /\ str_int 0 = "0".
Proof. repeat split. Qed.

(** Two steps of inversion on the one-entry latent [3]: the schedule is
    [0, 1, 2] after reversal, the model is called twice, the result is
    [x / 2]. *)
Example inversion_example :
  let r := find_noise_for_image_sigma_adjustment (demo_env "eps") demo_request
             [1%Q] [2%Q] 1%Q 2 (demo_world None) in
  fst r = Ok [(11 # 4)%Q] /\ length (model_calls (snd r)) = 2%nat
  /\ job_no (state (snd r)) = 1 /\ sampling_steps (state (snd r)) = 2.
Proof. vm_compute. repeat split. Qed.

(** A complete run over the two-frame clip. *)
Example run_example :
  let r := run (demo_env "eps") demo_request false (Some "/in/clip.mp4") None
             color_correction_option_none false 1 (demo_world None) in
  (exists shown, fst r = Ok shown /\ images shown = [Some stylized; Some stylized])
  /\ map vpath (videos (snd r))
     = ["outputs/img2img/video-veil-output/2023-04-09T07-30-05-42-clip.mp4"]
  /\ map (fun v => length (written v)) (videos (snd r)) = [2%nat]
  /\ map released (videos (snd r)) = [true]
  /\ map vfps (videos (snd r)) = [24%Q]
  /\ length (pipeline_calls (snd r)) = 2%nat.
Proof. vm_compute. split; [eexists; split; reflexivity|]. repeat split. Qed.

Lemma noise_inversion_refines_spec_witness :
  let env := demo_env "eps" in
  let dnw := fst (model_wrapper env) in
  let skip := snd (model_wrapper env) in
  let sigmas := reverse (get_sigmas dnw 2) in
  exists w',
    find_noise_for_image_sigma_adjustment env demo_request [1%Q] [2%Q] 1%Q 2
      (demo_world None)
    = (Ok (spec_invert (shared_sd_model env) dnw skip demo_request [1%Q] [2%Q]
             1%Q sigmas 2), w')
    /\ model_calls w'
       = model_calls (demo_world None) ++
         map (fun i => spec_model_call dnw skip demo_request [1%Q] [2%Q] sigmas
                         (spec_latent (shared_sd_model env) dnw skip demo_request
                            [1%Q] [2%Q] 1%Q sigmas (i - 1)%nat) i)
             (seq 1 2).
Proof.
  apply (noise_inversion_refines_spec (demo_env "eps") demo_request [1%Q] [2%Q]
           1%Q 2 (demo_world None)).
  - reflexivity.
  - intros sg. reflexivity.
Defined.

Lemma model_called_once_per_step_witness :
  exists noise w',
    find_noise_for_image_sigma_adjustment (demo_env "v") demo_request [1%Q] [2%Q]
      1%Q 3 (demo_world None)
    = (Ok noise, w')
    /\ length (model_calls w') = (length (model_calls (demo_world None)) + 3)%nat.
Proof.
  apply (model_called_once_per_step (demo_env "v") demo_request [1%Q] [2%Q] 1%Q 3
           (demo_world None)); intros; reflexivity.
Defined.

Lemma missing_source_raises_witness :
  VideoVeilSourceVideo_init (demo_env "eps") false (Some "/in/gone.mp4") None
    false 1 true (demo_world None)
  = (Raise (Exception "Video not found: '/in/gone.mp4'."), demo_world None)
  /\ forall (p : Request tensor nat) (color_correction : string),
       negb (is_blank (Some "/in/gone.mp4")) || negb (is_blank None) = true ->
       run (demo_env "eps") p false (Some "/in/gone.mp4") None color_correction
         false 1 (demo_world None)
       = (Raise (Exception "Video not found: '/in/gone.mp4'."), demo_world None).
Proof.
  apply (missing_source_raises (demo_env "eps") false (Some "/in/gone.mp4") None
           false 1 (demo_world None)).
  reflexivity.
Defined.


Lemma empty_source_outcomes_witness :
  VideoVeilSourceVideo_init (demo_env "eps") true (Some "/in/broken.mp4")
    (Some "/in/empty") false 1 false (demo_world None)
  = (Raise (Exception "No images (*.png, *.jpg, *.jpeg) found in '/in/empty'."),
     log_io (IoListdir "/in/empty") (demo_world None))
  /\ exists sv w',
       VideoVeilSourceVideo_init (demo_env "eps") false (Some "/in/broken.mp4")
         (Some "/in/empty") false 1 false (demo_world None)
       = (Ok sv, w')
       /\ frames sv = [] /\ video_width sv = 0%nat /\ video_height sv = 0%nat.
Proof.
  destruct (empty_source_outcomes (demo_env "eps") (Some "/in/broken.mp4")
              (Some "/in/empty") false 1 false (demo_world None)) as [Hdir Hvideo].
  split.
  - apply (Hdir "/in/empty" ["notes.txt"]); [reflexivity | reflexivity | reflexivity |].
    repeat constructor.
  - apply (Hvideo "/in/broken.mp4"); [reflexivity | reflexivity | left; reflexivity].
Defined.

(** C5, as stated, fails: [/in/broken.mp4] exists and no decoder opens it,
    yet constructing the store with error-raising enabled raises nothing; it
    returns a store without frames. *)
Lemma empty_video_source_raises_nothing :
  os_path_exists (demo_env "eps") "/in/broken.mp4" = true
  /\ isOpened (VideoCapture (demo_env "eps") "/in/broken.mp4") = false
  /\ (exists sv w',
        VideoVeilSourceVideo_init (demo_env "eps") false (Some "/in/broken.mp4")
          None false 1 true (demo_world None)
        = (Ok sv, w')
        /\ frames sv = [])
  /\ ~ (exists e w',
          VideoVeilSourceVideo_init (demo_env "eps") false (Some "/in/broken.mp4")
            None false 1 true (demo_world None)
          = (Raise e, w')).
Proof.
  split; [reflexivity|]. split; [reflexivity|]. split.
  - eexists. eexists. split; reflexivity.
  - intros (e & w' & E). vm_compute in E. discriminate E.
Qed.

Lemma video_assembly_witness :
  let folder_store :=
    {| frames := [demo_frame]; use_images_directory := true; video_path := None;
       directory_upload_path := Some "/in/frames"; test_run := false;
       test_run_frames_count := None; output_video_path := None;
       video_width := 2; video_height := 1; output_path := None |} in
  create_mp4 (demo_env "eps") (demo_store true) 42 "outputs/img2img" true
    (demo_world None)
  = (Ok (demo_store true), demo_world None)
  /\ (exists w',
       create_mp4 (demo_env "eps") (demo_store false) 42 "outputs/img2img" true
         (demo_world None)
       = (Ok (set_output_path
                "outputs/img2img/video-veil-output/2023-04-09T07-30-05-42-clip.mp4"
                (demo_store false)), w')
       /\ videos w'
          = [{| vpath := "outputs/img2img/video-veil-output/2023-04-09T07-30-05-42-clip.mp4";
                fourcc := "mp4v"; vfps := 24%Q; vsize := (2%nat, 1%nat);
                written := [[[(9, 8, 7); (3, 2, 1)]]]; released := true |}]
       /\ (os_path_exists (demo_env "eps") "outputs/img2img/video-veil-output" = true
           \/ "outputs/img2img/video-veil-output" ∈ dirs_made w'))
  /\ (exists w',
       create_mp4 (demo_env "eps") folder_store 42 "outputs/img2img" true
         (demo_world None)
       = (Ok (set_output_path
                "outputs/img2img/video-veil-output/2023-04-09T07-30-05-42-frames.mp4"
                folder_store), w')
       /\ videos w'
          = [{| vpath := "outputs/img2img/video-veil-output/2023-04-09T07-30-05-42-frames.mp4";
                fourcc := "mp4v"; vfps := 30%Q; vsize := (2%nat, 1%nat);
                written := [[[(9, 8, 7); (3, 2, 1)]]]; released := true |}]
       /\ (os_path_exists (demo_env "eps") "outputs/img2img/video-veil-output" = true
           \/ "outputs/img2img/video-veil-output" ∈ dirs_made w')).
Proof.
  intros folder_store. split; [|split].
  - apply (proj1 (video_assembly (demo_env "eps") (demo_store true) 42
                    "outputs/img2img" true (demo_world None))).
    reflexivity.
  - apply (proj2 (video_assembly (demo_env "eps") (demo_store false) 42
                    "outputs/img2img" true (demo_world None))
             "clip.mp4" [stylized]); (reflexivity || discriminate).
  - apply (proj2 (video_assembly (demo_env "eps") folder_store 42
                    "outputs/img2img" true (demo_world None))
             "frames.mp4" [stylized]).
    + reflexivity.
    + intros _ d Hd. injection Hd as <-. reflexivity.
    + reflexivity.
    + reflexivity.
Defined.

Lemma frame_array_channel_order_witness :
  (exists fr,
      VideoVeilImage_init (Some (bgr_array scene_a)) None = Ok fr
      /\ frame_array fr = [[(0, 0, 255); (0, 255, 0)]]
      /\ frame_image fr = {| mode := "RGB"; pixels := [[(255, 0, 0); (0, 255, 0)]] |})
  /\ (exists cp,
        pipeline_calls
          (snd (process_frame (demo_env "eps") demo_request
                  color_correction_option_none 0 demo_locals (demo_world None)))
        = pipeline_calls (demo_world None) ++ [cp]
        /\ control_net_input_image cp = Some [[[(0, 0, 255); (0, 255, 0)]]]
        /\ init_images cp = [frame_image demo_frame]).
Proof.
  destruct (frame_array_channel_order (demo_env "eps") scene_a)
    as (Hv & _ & _ & _ & Hreq).
  split; [exact Hv|].
  apply (Hreq demo_request color_correction_option_none 0%nat demo_locals
           (demo_world None) demo_frame).
  reflexivity.
Defined.

Lemma sampling_override_witness :
  let cp := apply_img2img_alternate_fix demo_request demo_frame
              prompt_placeholder neg_prompt_placeholder in
  let w1 := set_state (set_job_count 1 (demo_state None)) (demo_world None) in
  let inversion :=
    find_noise_for_image_sigma_adjustment (demo_env "eps") cp [44%Q] [56%Q] 1%Q 2 in
  call_sample (demo_env "eps") cp [5%Q] [6%Q] (demo_world None)
  = call_sample_img2img demo_sampler cp [3%Q] [(5 # 4)%Q] [5%Q] [6%Q] [0%Q]
      (snd (inversion w1)).
Proof.
  intros cp w1 inversion.
  destruct (sampling_override (demo_env "eps") demo_request
              color_correction_option_none 0 demo_locals demo_frame
              (demo_world None) cp [5%Q] [6%Q] (demo_world None)
              eq_refl eq_refl) as (_ & _ & Hok & _).
  apply (Hok [(11 # 4)%Q] (snd (inversion w1)) [2%Q] [[1%Q]; [0%Q]]);
    vm_compute; reflexivity.
Defined.

(** C3 on the two-frame clip with colour correction
    "From Stable Diffusion Generated Image": both frames are processed and
    frame 0 has its transformed image when frame 1 is prepared, yet the
    request of frame 1 carries no colour-correction reference -- the code
    looks at the last frame of the store, which is not transformed yet,
    where its comment says "use the previous frame". *)
Theorem generated_image_correction_never_attached :
  let env := demo_env "eps" in
  let r := run env demo_request false (Some "/in/clip.mp4") None
             color_correction_option_generated_image false 1 (demo_world None) in
  (exists shown, fst r = Ok shown /\ images shown = [Some stylized; Some stylized])
  /\ map color_corrections (pipeline_calls (snd r)) = [None; None]
  /\ map color_corrections (pipeline_calls (snd r))
     <> [None; Some [setup_color_correction env stylized]].
Proof.
  vm_compute. split; [eexists; split; reflexivity|]. split; [reflexivity|].
  discriminate.
Qed.

(** C4 on the two-frame clip when the user interrupts after frame 0: the
    loop stops, one frame has been processed, and the assembly then walks
    over both frames: it writes frame 0, fails on frame 1, which has no
    transformed image, and the run ends with that error -- the writer is
    never released and the gallery never learns of a file. *)
Theorem interrupted_run_fails_in_assembly :
  let r := run (demo_env "eps") demo_request false (Some "/in/clip.mp4") None
             color_correction_option_none false 1 (demo_world (Some 0%nat)) in
  fst r = Raise CvError
  /\ interrupted (state (snd r)) = true
  /\ length (pipeline_calls (snd r)) = 1%nat
  /\ map (fun v => (length (written v), released v)) (videos (snd r)) = [(1%nat, false)]
  /\ gallery_updates (snd r) = [].
Proof. vm_compute. repeat split. Qed.


Lemma generated_mode_attaches_no_reference_witness :
  Forall (fun cp => color_corrections cp = color_corrections demo_request)
    (pipeline_calls
       (snd (run (demo_env "eps") demo_request false (Some "/in/clip.mp4") None
               color_correction_option_generated_image false 1 (demo_world None)))).
Proof.
  apply (generated_mode_attaches_no_reference (demo_env "eps") demo_request false
           (Some "/in/clip.mp4") None false 1 (demo_world None)).
  constructor.
Defined.

Lemma assembly_fails_on_unprocessed_frame_witness :
  let untouched := set_transformed_image demo_frame None in
  let store := set_frames [demo_frame; untouched] (demo_store false) in
  exists w',
    create_mp4 (demo_env "eps") store 42 "outputs/img2img" true (demo_world None)
    = (Raise CvError, w')
    /\ videos w'
       = [{| vpath := "outputs/img2img/video-veil-output/2023-04-09T07-30-05-42-clip.mp4";
             fourcc := "mp4v"; vfps := 24%Q; vsize := (2%nat, 1%nat);
             written := [[[(9, 8, 7); (3, 2, 1)]]]; released := false |}]
    /\ gallery_updates w' = [].
Proof.
  intros untouched store.
  apply (assembly_fails_on_unprocessed_frame (demo_env "eps") store 42
           "outputs/img2img" true (demo_world None) "clip.mp4"
           [demo_frame] untouched [] [stylized]); reflexivity.
Defined.


Lemma video_frame_count_witness :
  exists sv w',
    VideoVeilSourceVideo_init (demo_env "eps") false (Some "/in/clip.mp4") None
      true 1 true (demo_world None)
    = (Ok sv, w')
    /\ map frame_array (frames sv) = [bgr_array scene_a]
    /\ length (frames sv) = 1%nat.
Proof.
  apply (video_frame_count (demo_env "eps") "/in/clip.mp4" None true 1 true
           (demo_world None)); reflexivity.
Defined.

End DemoFacts.

(* ===================================================================== *)
(** ** Further theorems at work in the concrete world                      *)
(* ===================================================================== *)

Section MoreDemoFacts.

Import Demo DemoHosts.

Lemma steady_host_cooperates (kind : string) : cooperative_host (steady_env kind).
Proof.
  split.
  - intros cp s Hs. exists {| images := [Some stylized]; seed := 42 |}, stylized, [], s.
    repeat split. exact Hs.
  - intros cp s Hs. exact Hs.
Qed.

(** C8 on a folder typed with a separator at its end, [/in/frames/]: the
    run processes both images and writes its video, but names it
    [<timestamp>-<seed>-.mp4]; the directory name, [frames], which the
    specification puts before [.mp4], is missing from the name. *)
Theorem folder_typed_with_slash_loses_name :
  let r := run slash_env demo_request true None (Some "/in/frames/")
             color_correction_option_none false 1 (demo_world None) in
  (exists res, fst r = Ok res)
  /\ map (fun v => (vpath v, length (written v), released v)) (videos (snd r))
     = [("outputs/img2img/video-veil-output/2023-04-09T07-30-05-42-.mp4",
         2%nat, true)]
  /\ spec_directory_name "/in/frames/" = "frames"
  /\ spec_file_name slash_env 42 (spec_directory_name "/in/frames/" +:+ ".mp4")
     = "2023-04-09T07-30-05-42-frames.mp4".
Proof. vm_compute. split; [eexists; reflexivity|]. repeat split. Qed.

Lemma store_dimensions_witness :
  exists sv w',
    VideoVeilSourceVideo_init (demo_env "eps") false (Some "/in/clip.mp4") None
      false 1 true (demo_world None) = (Ok sv, w')
    /\ Forall dimensions_of_array (frames sv)
    /\ match frames sv with
       | first_frame :: _ =>
           video_width sv = width first_frame /\ video_height sv = height first_frame
       | [] => video_width sv = 0%nat /\ video_height sv = 0%nat
       end.
Proof.
  eexists. eexists. split; [reflexivity|].
  eapply (store_dimensions (demo_env "eps") false (Some "/in/clip.mp4") None
           false 1 true (demo_world None)).
  reflexivity.
Defined.

Lemma folder_frame_count_witness :
  exists sv w',
    VideoVeilSourceVideo_init (demo_env "eps") true None (Some "/in/frames")
      false 1 true (demo_world None) = (Ok sv, w')
    /\ Forall2 (frame_of_file (demo_env "eps") "/in/frames") ["a.png"; "b.jpg"]
         (frames sv)
    /\ length (frames sv) = 2%nat.
Proof.
  apply (folder_frame_count (demo_env "eps") "/in/frames" None false 1 true
           (demo_world None) ["a.png"; "notes.txt"; "b.jpg"]).
  - reflexivity.
  - reflexivity.
  - discriminate.
  - repeat constructor; eexists; reflexivity.
Defined.

Lemma folder_image_failure_witness :
  fst (VideoVeilSourceVideo_init damaged_env true None (Some "/in/frames")
         false 1 true (demo_world None))
  = Raise (HostError 2).
Proof.
  apply (folder_image_failure damaged_env "/in/frames" None false 1 true
           (demo_world None) ["a.png"; "notes.txt"; "b.jpg"] ["a.png"] [] "b.jpg").
  - reflexivity.
  - reflexivity.
  - reflexivity.
  - repeat constructor; eexists; reflexivity.
  - reflexivity.
  - left. reflexivity.
Defined.

Lemma color_correction_by_mode_witness :
  exists cp,
    pipeline_calls (snd (process_frame (demo_env "eps") demo_request
                           color_correction_option_video 0 demo_locals
                           (demo_world None)))
    = pipeline_calls (demo_world None) ++ [cp]
    /\ (color_correction_option_video = color_correction_option_video ->
        color_corrections cp
        = Some [setup_color_correction (demo_env "eps") (frame_image demo_frame)])
    /\ (color_correction_option_video <> color_correction_option_video ->
        color_correction_option_video <> color_correction_option_generated_image ->
        color_corrections cp = color_corrections demo_request).
Proof.
  apply (color_correction_by_mode (demo_env "eps") demo_request
           color_correction_option_video 0 demo_locals (demo_world None) demo_frame).
  reflexivity.
Defined.

Lemma frame_loop_keeps_frames_witness :
  exists l' w',
    frame_loop (demo_env "eps") demo_request color_correction_option_none [0%nat]
      demo_locals (demo_world None) = (Ok l', w')
    /\ Forall2 same_frame_data (frames (l_source_video demo_locals))
         (frames (l_source_video l'))
    /\ l_source_video l'
       = set_frames (frames (l_source_video l')) (l_source_video demo_locals).
Proof.
  eexists. eexists. split; [reflexivity|].
  eapply (frame_loop_keeps_frames (demo_env "eps") demo_request
           color_correction_option_none [0%nat] demo_locals _ (demo_world None) _).
  reflexivity.
Defined.

Lemma run_on_empty_video_witness :
  exists w',
    run (demo_env "eps") demo_request false (Some "/in/broken.mp4") None
      color_correction_option_none false 1 (demo_world None)
    = (Raise (UnboundLocalError "proc"), w')
    /\ same_but_io (demo_world None) w'.
Proof.
  apply (run_on_empty_video (demo_env "eps") demo_request "/in/broken.mp4" None
           color_correction_option_none false 1 (demo_world None)).
  - discriminate.
  - reflexivity.
  - left. reflexivity.
Defined.

Lemma run_interrupted_before_first_frame_witness :
  let w := set_state (after_frame (demo_state (Some 0%nat))) (demo_world (Some 0%nat)) in
  exists sv w1,
    VideoVeilSourceVideo_init (demo_env "eps") false (Some "/in/clip.mp4") None
      false 1 true w = (Ok sv, w1)
    /\ exists w',
         run (demo_env "eps") demo_request false (Some "/in/clip.mp4") None
           color_correction_option_none false 1 w
         = (Raise (UnboundLocalError "proc"), w')
         /\ pipeline_calls w' = pipeline_calls w
         /\ videos w' = videos w
         /\ job_count (state w') = Z.of_nat (length (frames sv)) * n_iter demo_request
         /\ job_no (state w') = 0.
Proof.
  intros w. eexists. eexists. split; [reflexivity|].
  eapply (run_interrupted_before_first_frame (demo_env "eps") demo_request false
           (Some "/in/clip.mp4") None color_correction_option_none false 1 w).
  - reflexivity.
  - reflexivity.
  - discriminate.
  - reflexivity.
Defined.

Lemma run_processes_every_frame_witness :
  exists res w' reqs,
    run (steady_env "eps") demo_request false (Some "/in/clip.mp4") None
      color_correction_option_none false 1 (demo_world None) = (Ok res, w')
    /\ pipeline_calls w' = reqs
    /\ length reqs = 2%nat
    /\ images res = [Some stylized; Some stylized]
    /\ seed res = 42
    /\ map (fun v => (written v, released v)) (videos w')
       = [([cvtColor_RGB2BGR (np_array stylized);
            cvtColor_RGB2BGR (np_array stylized)], true)].
Proof.
  destruct (run_processes_every_frame (steady_env "eps") demo_request false
              (Some "/in/clip.mp4") None color_correction_option_none false 1
              (demo_world None)
              (snd (VideoVeilSourceVideo_init (steady_env "eps") false
                      (Some "/in/clip.mp4") None false 1 true (demo_world None)))
              (set_frames
                 [set_transformed_image demo_frame None;
                  {| frame_array := bgr_array scene_b;
                     frame_image := Image_fromarray (rgb_array scene_b);
                     transformed_image := None; height := 1; width := 2 |}]
                 (demo_store false))
              (steady_host_cooperates "eps"))
    as (res & w' & reqs & imgs & E & Hreqs & Hcalls & (Hlen & Hmap & Hseed) & Himgs
        & name & Hname & Hvid).
  - reflexivity.
  - reflexivity.
  - discriminate.
  - reflexivity.
  - pose proof (Forall2_length _ _ _ Hreqs) as Hn. cbn [frames set_frames length] in Hn.
    destruct reqs as [|r1 [|r2 [|r3 reqs]]]; try discriminate Hn.
    cbn in Hmap, Hseed.
    destruct imgs as [|i1 [|i2 [|i3 imgs]]]; try discriminate Hmap.
    injection Hmap as <- <-. injection Hseed as Hseed.
    exists res, w', [r1; r2]. split; [exact E|]. split; [exact Hcalls|].
    split; [reflexivity|]. split; [exact Himgs|]. split; [exact Hseed|].
    rewrite Hvid. reflexivity.
Defined.

Lemma inversion_short_schedule_witness :
  find_noise_for_image_sigma_adjustment (demo_env "eps") demo_request [1%Q] [0%Q]
    1%Q 0 (demo_world None)
  = (Ok (init_latent demo_request / [0%Q])%tensor,
     set_state (nextjob (demo_env "eps")
                  (set_sampling_steps 0 (state (demo_world None))))
       (demo_world None)).
Proof.
  apply (inversion_short_schedule (demo_env "eps") demo_request [1%Q] [0%Q] 1%Q 0
           (demo_world None)).
  apply le_n.
Defined.

Lemma inversion_wrong_scalings_witness :
  find_noise_for_image_sigma_adjustment miswired_env demo_request [1%Q] [0%Q]
    1%Q 2 (demo_world None)
  = (Raise ValueError,
     set_state (set_sampling_steps 2 (state (demo_world None))) (demo_world None)).
Proof.
  apply (inversion_wrong_scalings miswired_env demo_request [1%Q] [0%Q] 1%Q 2
           (demo_world None)).
  - simpl. lia.
  - intros sg. simpl. discriminate.
Defined.

Lemma sample_extra_feeds_recovered_noise_witness :
  let cp := demo_request in
  let smp := create_sampler (demo_env "eps") (sampler_name cp) (p_sd_model cp) in
  let rec_noise :=
    spec_invert (shared_sd_model (demo_env "eps")) eps_wrapper 0 cp
      (get_learned_conditioning (p_sd_model cp) ["a"])
      (get_learned_conditioning (p_sd_model cp) ["bc"]) 1
      (reverse (demo_sigmas 2)) 2 in
  let noise := (rec_noise - init_latent cp / [2%Q])%tensor in
  exists st w',
    sample_extra (demo_env "eps") cp demo_frame "a" "bc" [5%Q] [6%Q] (demo_world None)
    = (fst (sample_img2img smp cp (init_latent cp) noise [5%Q] [6%Q]
              (image_conditioning cp) st), w')
    /\ state w' = snd (sample_img2img smp cp (init_latent cp) noise [5%Q] [6%Q]
                         (image_conditioning cp) st)
    /\ sampler_calls w'
       = sampler_calls (demo_world None) ++ [(cp, init_latent cp, noise)]
    /\ length (model_calls w') = (length (model_calls (demo_world None)) + 2)%nat
    /\ pipeline_calls w' = pipeline_calls (demo_world None).
Proof.
  apply (sample_extra_feeds_recovered_noise (demo_env "eps") demo_request demo_frame
           "a" "bc" [5%Q] [6%Q] 2 [2%Q] [[1%Q]; [0%Q]] (demo_world None)).
  - reflexivity.
  - intros sg. reflexivity.
  - reflexivity.
Defined.

Lemma preview_without_source_witness :
  video_src_change (demo_env "eps") false (Some "/in/none.mp4") (Some "/in/frames")
    (demo_world None)
  = (Ok {| img2img_component_value := None;
           img2img_w_slider_value := 512;
           img2img_h_slider_value := 512;
           video_source_info_value :=
             "<div style='color: red'>"
             +:+ "Invalid source, unable to parse video frames from input."
             +:+ "</div>" |}, demo_world None).
Proof.
  apply (preview_without_source (demo_env "eps") false (Some "/in/none.mp4")
           (Some "/in/frames") (demo_world None)).
  reflexivity.
Defined.

Lemma preview_of_video_witness :
  exists w',
    video_src_change (demo_env "eps") false (Some "/in/clip.mp4") None (demo_world None)
    = (Ok {| img2img_component_value := Some (Image_fromarray (rgb_array scene_a));
             img2img_w_slider_value := 2;
             img2img_h_slider_value := 1;
             video_source_info_value :=
               "<div style='color: #333'>Video Frames found: 2x1px</div>" |}, w')
    /\ io_log w' = io_log (demo_world None)
                   ++ [IoVideoCapture "/in/clip.mp4"; IoCapRead "/in/clip.mp4"]
    /\ same_but_io (demo_world None) w'.
Proof.
  apply (preview_of_video (demo_env "eps") "/in/clip.mp4" None (bgr_array scene_a)
           [bgr_array scene_b] (demo_world None)).
  - reflexivity.
  - reflexivity.
  - reflexivity.
Defined.

Lemma preview_of_folder_witness :
  exists w',
    video_src_change (demo_env "eps") true None (Some "/in/frames") (demo_world None)
    = (Ok {| img2img_component_value :=
               Some {| mode := "RGB"; pixels := rgb_array scene_a |};
             img2img_w_slider_value := 2;
             img2img_h_slider_value := 1;
             video_source_info_value :=
               "<div style='color: #333'>Video Frames found: 2x1px</div>" |}, w')
    /\ io_log w' = io_log (demo_world None)
                   ++ [IoListdir "/in/frames"; IoImageOpen "/in/frames/a.png"]
    /\ same_but_io (demo_world None) w'.
Proof.
  apply (preview_of_folder (demo_env "eps") "/in/frames" None
           ["a.png"; "notes.txt"; "b.jpg"] "a.png" ["b.jpg"]
           {| mode := "RGB"; pixels := rgb_array scene_a |} (demo_world None)).
  - reflexivity.
  - reflexivity.
  - reflexivity.
  - reflexivity.
Defined.

Lemma folder_with_trailing_slash_names_video_witness :
  exists sv w' v,
    create_mp4 (demo_env "eps") demo_folder_store 42 "outputs/img2img" true
      (demo_world None) = (Ok sv, w')
    /\ videos w' = v :: videos (demo_world None)
    /\ vpath v = "outputs/img2img/video-veil-output/2023-04-09T07-30-05-42-.mp4"
    /\ output_path sv = Some (vpath v).
Proof.
  apply (folder_with_trailing_slash_names_video (demo_env "eps") demo_folder_store
           "/in/frames" 42 "outputs/img2img" [stylized] (demo_world None)).
  - reflexivity.
  - reflexivity.
  - reflexivity.
  - reflexivity.
Defined.

End MoreDemoFacts.
